(** * Lesson exercises: console guessing game, exchange-rate dashboards,
      stock watch list

    A shallow embedding of the parts of the lesson scripts that carry
    behaviour of their own:

    - [Guess]: [src/lesson3/lesson3_4.py], the console guessing game;
    - [Py]: the string and float operations of Python the scripts rely
      on ([str.strip], truth values, float division, the [.2f] format);
    - [Dashboard]: [src/lesson7_1/main.py], the web dashboard: the
      cleaning of the rates, the script from run to run, the currency
      selector and the conversion;
    - [Exchange]: [src/lesson8/main.py], the exchange-rate desktop window;
    - [Fetcher], [Stock], [Listing]: [src/lesson8_1/main.py], the stock
      fetcher, the stock watch-list desktop window and its list panel.

    Widgets are modelled by the part of their state the code reads or
    writes (a label by its text, a button by its state, a table by its
    rows); message boxes, console output and thread starts are recorded in
    the order the code performs them.  A call that can raise returns how
    it ended next to the state it leaves. *)

From Stdlib Require Import ZArith String Ascii DecimalString.
From Stdlib Require Import Floats.PrimFloat Floats.FloatOps Floats.SpecFloat.
From stdpp Require Import gmap strings list fin_maps relations sorting.

Local Open Scope string_scope.
Local Open Scope list_scope.
Local Open Scope Z_scope.

(* Rates such as 30.1 are read as Python reads them: the nearest binary64
   value. *)
Set Warnings "-inexact-float".

(* ===================================================================== *)
(** ** The console guessing game ([src/lesson3/lesson3_4.py])            *)
(* ===================================================================== *)

Module Guess.

(** One line of standard input, together with what Python's [int] makes of
    it: [Some z] when [int(text)] returns [z], [None] when it raises
    [ValueError]. *)
Record line := Line { text : string; as_int : option Z }.

(** What the game writes to standard output, one constructor per [print]
    or [input] prompt of the source. *)
Inductive output :=
| PrintTarget (t : Z)            (* print(target) *)
| PrintBanner                    (* =======猜數字遊戲======= *)
| Prompt (lo hi : Z)             (* 猜數字範圍{min}到{max}: *)
| PrintHit                       (* 中 *)
| PrintCount (n : Z)             (* 您猜了{count}次 *)
| PrintSmaller                   (* 小一點 *)
| PrintBigger                    (* 大一點 *)
| PrintOutOfRange                (* 輸入提示範圍內的數字 *)
| PromptAgain                    (* 您還要繼續嗎？y/n *)
| PrintGameOver.                 (* 遊戲結束 *)

(** The exceptions that can leave the game: nothing in the file catches
    either of them. *)
Inductive exn :=
| ValueError (offending : string)  (* int() on a line that is no integer *)
| EOFError.                        (* input() on an exhausted stdin *)

(** The locals of [play_game]. *)
Record game := Game {
  min : Z;
  max : Z;
  count : Z;
  target : Z;
  out : list output
}.

Definition print (o : output) (g : game) : game :=
  Game (min g) (max g) (count g) (target g) (out g ++ [o]).

Definition set_min (z : Z) (g : game) : game :=
  Game z (max g) (count g) (target g) (out g).

Definition set_max (z : Z) (g : game) : game :=
  Game (min g) z (count g) (target g) (out g).

Definition incr_count (g : game) : game :=
  Game (min g) (max g) (count g + 1) (target g) (out g).

(** The state before the loop: [min = 1], [max = 100], [count = 0], the
    drawn target printed, then the banner. *)
Definition start (t : Z) : game :=
  print PrintBanner (print (PrintTarget t) (Game 1 100 0 t [])).

Inductive flow := Continue | Break.

(** The body of the [while] loop after [keyin] has been read and
    converted (lines 14 to 32). *)
Definition guess (g : game) (keyin : Z) : game * flow :=
  let g := incr_count g in
  if (min g <=? keyin) && (keyin <=? max g) then
    if target g =? keyin then
      (print (PrintCount (count g)) (print PrintHit g), Break)
    else if keyin >? target g then
      (print (PrintCount (count g)) (set_max (keyin - 1) (print PrintSmaller g)),
       Continue)
    else if keyin <? target g then
      (print (PrintCount (count g)) (set_min (keyin + 1) (print PrintBigger g)),
       Continue)
    else (print (PrintCount (count g)) g, Continue)
  else (print PrintOutOfRange g, Continue).

(** The prompt that [input] writes before it reads. *)
Definition prompt (g : game) : game := print (Prompt (min g) (max g)) g.

Inductive result :=
| Returned (g : game) (rest : list line)
| Raised (e : exn) (g : game).

(** The [while(True)] loop, by recursion on the lines still to be read:
    every iteration reads exactly one. *)
Fixpoint while_true (g : game) (stdin : list line) : result :=
  match stdin with
  | [] => Raised EOFError (prompt g)
  | l :: rest =>
      match as_int l with
      | None => Raised (ValueError (text l)) (prompt g)
      | Some keyin =>
          match guess (prompt g) keyin with
          | (g', Break) => Returned g' rest
          | (g', Continue) => while_true g' rest
          end
      end
  end.

(** [play_game], given the value [random.randint(min, max)] drew. *)
Definition play_game (t : Z) (stdin : list line) : result :=
  while_true (start t) stdin.

(** How the process ends. *)
Inductive exit :=
| ExitNormally (printed : list output)
| Uncaught (e : exn) (printed : list output).

(** [main]: play, ask whether to go on, stop on the answer [n].  [draw k]
    is the target drawn for the [k]-th game.  Every round reads at least
    one line, so the number of lines bounds the number of rounds. *)
Fixpoint main_loop (rounds : nat) (k : nat) (draw : nat -> Z)
    (printed : list output) (stdin : list line) : exit :=
  match rounds with
  | O => Uncaught EOFError printed
  | S rounds' =>
      match play_game (draw k) stdin with
      | Raised e g => Uncaught e (printed ++ out g)
      | Returned g rest =>
          let printed := printed ++ out g ++ [PromptAgain] in
          match rest with
          | [] => Uncaught EOFError printed
          | answer :: rest' =>
              if String.eqb (text answer) "n"
              then ExitNormally (printed ++ [PrintGameOver])
              else main_loop rounds' (S k) draw printed rest'
          end
      end
  end.

Definition main (draw : nat -> Z) (stdin : list line) : exit :=
  main_loop (S (length stdin)) 0 draw [] stdin.

(** One pass through the loop body that goes round again. *)
Definition iteration (g g' : game) : Prop :=
  exists keyin, guess (prompt g) keyin = (g', Continue).

(** The target lies between the bounds the next prompt shows. *)
Definition in_bounds (g : game) : Prop := min g <= target g <= max g.

(** Whether a printed line is one of the two hints. *)
Definition is_hint (o : output) : bool :=
  match o with
  | PrintSmaller | PrintBigger => true
  | _ => false
  end.

(** Number of hints among the lines printed. *)
Definition hints (printed : list output) : Z :=
  Z.of_nat (length (List.filter is_hint printed)).

End Guess.

(* ===================================================================== *)
(** ** Python strings and floats as the scripts use them                 *)
(* ===================================================================== *)

Module Py.

(** A string from its bytes (UTF-8). *)
Definition bytes (l : list N) : string :=
  fold_right (fun n s => String (ascii_of_N n) s) EmptyString l.

(** The characters [str.isspace] accepts, as UTF-8 byte sequences:
    U+0009 to U+000D, U+001C to U+0020, U+0085, U+00A0, U+1680, U+2000 to
    U+200A, U+2028, U+2029, U+202F, U+205F and U+3000. *)
Definition whitespace : list string :=
  map bytes
    [ [9]; [10]; [11]; [12]; [13]; [28]; [29]; [30]; [31]; [32];
      [194; 133]; [194; 160]; [225; 154; 128];
      [226; 128; 128]; [226; 128; 129]; [226; 128; 130]; [226; 128; 131];
      [226; 128; 132]; [226; 128; 133]; [226; 128; 134]; [226; 128; 135];
      [226; 128; 136]; [226; 128; 137]; [226; 128; 138];
      [226; 128; 168]; [226; 128; 169]; [226; 128; 175]; [226; 129; 159];
      [227; 128; 128] ]%N.

(** Number of bytes of the token of [ws] that [s] starts with, [0] when
    it starts with none. *)
Definition token_width (ws : list string) (s : string) : nat :=
  match filter (fun w => Is_true (String.prefix w s)) ws with
  | w :: _ => String.length w
  | [] => O
  end.

(** [drop_leading ws skip s]: drop [skip] bytes, then every leading token
    of [ws]. *)
Fixpoint drop_leading (ws : list string) (skip : nat) (s : string) : string :=
  match s with
  | EmptyString => EmptyString
  | String c s' =>
      match skip with
      | S k => drop_leading ws k s'
      | O =>
          match token_width ws s with
          | O => s
          | S k => drop_leading ws k s'
          end
      end
  end.

Definition lstrip (s : string) : string := drop_leading whitespace 0 s.

(** The same from the end, on the reversed bytes. *)
Definition rstrip (s : string) : string :=
  String.rev (drop_leading (map String.rev whitespace) 0 (String.rev s)).

(** [s.strip()] *)
Definition strip (s : string) : string := rstrip (lstrip s).

(** Truth value of a string: non-empty. *)
Definition truthy (s : string) : bool := negb (String.eqb s "").

(** [f"{x:.2f}"], in two steps: the number of hundredths nearest to the
    exact value of the float (ties to even), then its decimal digits. *)

(** Nearest integer to [n / d] for [0 <= n], [0 < d], ties to even. *)
Definition round_half_even (n d : Z) : Z :=
  let q := n / d in
  let r := n mod d in
  if 2 * r <? d then q
  else if d <? 2 * r then q + 1
  else if Z.even q then q else q + 1.

(** The exact value of [100 * m * 2^e] as a fraction. *)
Definition hundredths_fraction (m : positive) (e : Z) : Z * Z :=
  if 0 <=? e then (Z.pos m * 100 * 2 ^ e, 1)
  else (Z.pos m * 100, 2 ^ (- e)).

Definition hundredths (m : positive) (e : Z) : Z :=
  let '(n, d) := hundredths_fraction m e in round_half_even n d.

Definition digits (z : Z) : string :=
  NilZero.string_of_uint (N.to_uint (Z.to_N z)).

(** [h] hundredths written with two decimals. *)
Definition two_decimals (h : Z) : string :=
  digits (h / 100) +:+ "." +:+ digits (h mod 100 / 10) +:+ digits (h mod 10).

Definition minus (negative : bool) : string := if negative then "-" else "".

Definition format_2f (x : float) : string :=
  match Prim2SF x with
  | S754_nan => "nan"
  | S754_infinity s => minus s +:+ "inf"
  | S754_zero s => minus s +:+ two_decimals 0
  | S754_finite s m e => minus s +:+ two_decimals (hundredths m e)
  end.

(** [s.split(sep)[0]] for a non-empty [sep]: what precedes the first
    occurrence of [sep], all of [s] when there is none. *)
Fixpoint split_first (sep s : string) : string :=
  match s with
  | EmptyString => EmptyString
  | String c s' =>
      if String.prefix sep s then EmptyString else String c (split_first sep s')
  end.

(** Truth value of a float: anything but zero (NaN included). *)
Definition nonzero (x : float) : bool := negb (PrimFloat.eqb x 0%float).

(** [x / y] on floats: [ZeroDivisionError] ([None]) when [y] is zero. *)
Definition truediv (x y : float) : option float :=
  if PrimFloat.eqb y 0%float then None else Some (x / y)%float.

(** No token of [ws] is a prefix of [s]. *)
Definition starts_clean (ws : list string) (s : string) : Prop :=
  Forall (fun w => String.prefix w s = false) ws.

End Py.

(* ===================================================================== *)
(** ** Effects shared by the two desktop windows                         *)
(* ===================================================================== *)

(** A scraped record: field name to text. *)
Abbreviation dict := (gmap string string).

(** A clock reading, as [strftime('%Y-%m-%d %H:%M:%S')] prints it. *)
Abbreviation time := string (only parsing).

(** Truth value of an optional value. *)
Definition is_Some_bool {A} (o : option A) : bool :=
  match o with Some _ => true | None => false end.

(** [d.get(k, v)] *)
Definition get (d : dict) (k v : string) : string := default v (d !! k).

(** What the user is shown outside the widgets, in the order it happens:
    the [messagebox] calls, the lines printed on the console, and the
    trace Tk prints when a callback raises. *)
Inductive effect :=
| ShowInfo (title message : string)
| ShowWarning (title message : string)
| ShowError (title message : string)
| Print (message : string)
| Traceback (exception : string).

(* ===================================================================== *)
(** ** The web dashboard ([src/lesson7_1/main.py])                       *)
(* ===================================================================== *)

Module Dashboard.

Definition suspended : string := "暫停交易".

(** A row of the cached table: the columns 幣別, 買入, 賣出, 買入值 and
    賣出值; the last two hold a float or [None]. *)
Record rate_row := RateRow {
  currency : string;
  buy : string;
  sell : string;
  buy_value : option float;
  sell_value : option float
}.

(** [sub in s] *)
Definition within (sub s : string) : bool :=
  match String.index 0 sub s with Some _ => true | None => false end.

Section Clean.

(** Python's [float] on a string: [None] when it raises [ValueError]. *)
Variable float_of : string -> option float.

(** [float(rate) if rate != "暫停交易" else None]; the outer [None] is the
    [ValueError]. *)
Definition rate_value (rate : string) : option (option float) :=
  if String.eqb rate suspended then Some None
  else match float_of rate with
       | Some x => Some (Some x)
       | None => None
       end.

(** One pass of the loop of [clean_rate_data] (lines 81 to 115). *)
Definition clean_rate (cleaned_data : list rate_row) (rate : dict) : list rate_row :=
  let currency := Py.strip (get rate "幣別" "") in
  let buy_rate := Py.strip (get rate "本行即期買入" "") in
  let sell_rate := Py.strip (get rate "本行即期賣出" "") in
  if negb (Py.truthy currency) then cleaned_data
  else if within suspended buy_rate || within suspended sell_rate then cleaned_data
  else
    let buy_rate := if Py.truthy buy_rate then buy_rate else suspended in
    let sell_rate := if Py.truthy sell_rate then sell_rate else suspended in
    match rate_value buy_rate with
    | None => cleaned_data
    | Some buy_float =>
        match rate_value sell_rate with
        | None => cleaned_data
        | Some sell_float =>
            if is_Some_bool buy_float || is_Some_bool sell_float
            then cleaned_data ++ [RateRow currency buy_rate sell_rate buy_float sell_float]
            else cleaned_data
        end
    end.

(** [clean_rate_data]: the table is the list of its rows. *)
Definition clean_rate_data (rates : list dict) : list rate_row :=
  fold_left clean_rate rates [].

End Clean.

(** [Series.notna]: neither [None] nor NaN. *)
Definition notna (v : option float) : bool :=
  match v with
  | Some x => negb (PrimFloat.is_nan x)
  | None => false
  end.

(** [rates_df[rates_df['買入值'].notna()]['幣別'].tolist()] (line 201) *)
Definition currencies (rates_df : list rate_row) : list string :=
  map currency (filter (fun r => Is_true (notna (buy_value r))) rates_df).

(** [currency_row.iloc[0]['賣出值']] for the selected currency: a column
    that holds at least one float is a float column, where [None] reads
    back as NaN. *)
Definition sell_rate_of (selected_currency : string) (rates_df : list rate_row)
  : option (option float) :=
  match filter (fun r => currency r = selected_currency) rates_df with
  | [] => None
  | r :: _ =>
      Some match sell_value r with
           | Some x => Some x
           | None =>
               if existsb (fun r => is_Some_bool (sell_value r)) rates_df
               then Some PrimFloat.nan else None
           end
  end.

(** Lines 212 to 219: the value of the metric, or [None] when the warning
    is shown instead. *)
Definition converted_amount (twd_amount : float) (sell_rate : option float)
  : option string :=
  match sell_rate with
  | Some sell_rate =>
      if Py.nonzero sell_rate
      then Some (Py.format_2f (twd_amount / sell_rate)%float)
      else None
  | None => None
  end.

(** *** The script, run by run *)

(** The script is read as its Python lines; the file's last line, the
    shell command that starts the dashboard, is no part of it. *)

(** The three metrics under the table (lines 259 to 267): rows, rows whose
    buy column is not 暫停交易, rows whose buy column is. *)
Definition metrics (display_df : list rate_row) : nat * nat * nat :=
  (length display_df,
   length (filter (fun r => buy r <> suspended) display_df),
   length (filter (fun r => buy r = suspended) display_df)).

(** [st.session_state]: the cached table, the time of the last update (a
    [datetime], in microseconds on the local time line) and the key
    [need_refresh], absent until the button is first pressed. *)
Record session := Session {
  rates_cache : option (list rate_row);
  last_update : option Z;
  need_refresh : option bool
}.

(** The state after lines 129 to 131 on a new session. *)
Definition new_session : session := Session None None None.

(** What [asyncio.run(fetch_exchange_rates())] did. *)
Inductive fetched :=
| FetchReturned (rates_data : option (list dict))
| FetchRaised (e : string).

(** What the script shows through [st.success], [st.warning], [st.error]
    and [st.info], the text of each. *)
Inductive notice :=
| StSuccess (body : string)
| StWarning (body : string)
| StError (body : string)
| StInfo (body : string).

(** [timedelta(minutes=10)] *)
Definition ten_minutes : Z := 600000000.

Definition save_rates_to_cache (df : list rate_row) (now : Z) (s : session) : session :=
  Session (Some df) (Some now) (need_refresh s).

(** Lines 147 and 148: the button. *)
Definition press (pressed : bool) (s : session) : session :=
  if pressed then Session (rates_cache s) (last_update s) (Some true) else s.

(** Lines 151 to 158. *)
Definition need_update (now : Z) (s : session) : bool :=
  match rates_cache s with
  | None => true
  | Some _ =>
      match last_update s with
      | Some t => ten_minutes <=? now - t
      | None => false
      end
  end.

(** Lines 179 and 180. *)
Definition reset_need_refresh (s : session) : session :=
  match need_refresh s with
  | Some _ => Session (rates_cache s) (last_update s) (Some false)
  | None => s
  end.

(** The test of line 183. *)
Definition has_rates (s : session) : bool :=
  match rates_cache s with
  | Some (_ :: _) => true
  | _ => false
  end.

Section Script.

Variable float_of : string -> option float.

(** Python's [str] of a float, as an f-string prints [{sell_rate}]. *)
Variable float_str : float -> string.

(** The calculator (lines 188 to 231): what it shows, given the amount of
    the number input and the currency the select box returns.  A selected
    currency that has no row shows nothing. *)
Definition calculator (twd_amount : float) (selected_currency : string)
    (rates_df : list rate_row) : list notice :=
  match currencies rates_df with
  | [] => [StWarning "⚠️ 目前無可交易的貨幣"]
  | _ :: _ =>
      match sell_rate_of selected_currency rates_df with
      | None => []
      | Some sell_rate =>
          match sell_rate, converted_amount twd_amount sell_rate with
          | Some rate, Some value =>
              [StSuccess "✅ 轉換結果";
               StInfo ("💡 計算公式：" +:+ Py.bytes [10%N]
                       +:+ Py.format_2f twd_amount +:+ " TWD ÷ " +:+ float_str rate
                       +:+ " = " +:+ value +:+ " " +:+ selected_currency)]
          | _, _ => [StWarning ("⚠️ " +:+ selected_currency +:+ " 暫停交易")]
          end
      end
  end.

(** The [try] of lines 163 to 177. *)
Definition update (f : fetched) (stamp : Z) (s : session) : session * list notice :=
  match f with
  | FetchRaised e => (s, [StError ("❌ 更新失敗: " +:+ e)])
  | FetchReturned (Some ((_ :: _) as rates_data)) =>
      match clean_rate_data float_of rates_data with
      | [] => (s, [StWarning "⚠️ 無有效的匯率資料"])
      | rates_df =>
          (save_rates_to_cache rates_df stamp s, [StSuccess "✅ 匯率資料更新成功！"])
      end
  | FetchReturned _ => (s, [StError "❌ 無法取得匯率資料，請稍後重試"])
  end.

(** The [try] of lines 272 to 279. *)
Definition initial_load (f : fetched) (stamp : Z) (s : session) : session * list notice :=
  match f with
  | FetchRaised e => (s, [StError ("初始化失敗: " +:+ e)])
  | FetchReturned (Some ((_ :: _) as rates_data)) =>
      match clean_rate_data float_of rates_data with
      | [] => (s, [])
      | rates_df => (save_rates_to_cache rates_df stamp s, [])
      end
  | FetchReturned _ => (s, [])
  end.

(** One run of the script: whether the button was pressed, the clock
    readings (at the staleness test and at each save), what the first and
    the second call of the fetcher do, and the amount and the currency the
    calculator's widgets return.  The result is the session, the notices
    shown, in order, and the number of calls of the fetcher. *)
Definition run (pressed : bool) (now saved_at loaded_at : Z)
    (first second : fetched) (twd_amount : float) (selected_currency : string)
    (s : session) : session * list notice * nat :=
  let s := press pressed s in
  let '(s, shown, calls, next) :=
    if need_update now s || default false (need_refresh s)
    then let '(s', shown) := update first saved_at s in
         (reset_need_refresh s', shown, 1%nat, second)
    else (s, [], 0%nat, first) in
  if has_rates s
  then (s, shown ++ calculator twd_amount selected_currency (default [] (rates_cache s)),
        calls)
  else
    let '(s', more) := initial_load next loaded_at s in
    (s', shown ++ StInfo "📡 正在載入匯率資料，請稍候..." :: more, S calls).

(** The session after the first half of a run, lines 147 to 180: the
    button, and the refresh if it is due. *)
Definition refreshed (pressed : bool) (now saved_at : Z) (first : fetched) (s : session)
  : session :=
  let s := press pressed s in
  if need_update now s || default false (need_refresh s)
  then reset_need_refresh (update first saved_at s).1
  else s.

End Script.

(** The cached table is never empty, and it is there exactly when the
    time of the last update is. *)
Definition consistent (s : session) : Prop :=
  rates_cache s <> Some []
  /\ (rates_cache s = None <-> last_update s = None).

(** A session as the script leaves it: consistent, and no refresh request
    pending. *)
Definition settled (s : session) : Prop :=
  consistent s /\ need_refresh s <> Some true.

(** A row as [clean_rate_data] makes them: a currency name; each rate
    column either the text 暫停交易, with no value, or a text that [float]
    reads, with that value; and a value in at least one of the two. *)
Definition valid_rate (float_of : string -> option float)
    (rate : string) (value : option float) : Prop :=
  rate <> ""
  /\ (value = None <-> rate = suspended)
  /\ (within suspended rate = true -> rate = suspended)
  /\ forall x, value = Some x -> float_of rate = Some x.

Definition valid_row (float_of : string -> option float) (r : rate_row) : Prop :=
  currency r <> ""
  /\ valid_rate float_of (buy r) (buy_value r)
  /\ valid_rate float_of (sell r) (sell_value r)
  /\ (buy_value r <> None \/ sell_value r <> None).

(** A call of the fetcher that gives the script no table: it raised,
    returned nothing, or returned rows of which none is kept. *)
Definition gave_nothing (float_of : string -> option float) (f : fetched) : Prop :=
  match f with
  | FetchRaised _ => True
  | FetchReturned None => True
  | FetchReturned (Some rates_data) => clean_rate_data float_of rates_data = []
  end.

End Dashboard.

(* ===================================================================== *)
(** ** The exchange-rate window ([src/lesson8/main.py])                  *)
(* ===================================================================== *)

Module Exchange.

Definition currency_key : string := "幣別".
Definition buy_key : string := "本行即期買入".
Definition sell_key : string := "本行即期賣出".

(** *** [fetch_exchange_rates]: the cleaning of the extracted rows *)

Definition contains (c : ascii) (s : string) : bool :=
  existsb (Ascii.eqb c) (list_ascii_of_string s).

(** [s.split(c)[0]]: up to the first [c]. *)
Fixpoint before (c : ascii) (s : string) : string :=
  match s with
  | EmptyString => EmptyString
  | String x s' => if Ascii.eqb x c then EmptyString else String x (before c s')
  end.

(** What follows the first [c]; [None] when there is none. *)
Fixpoint after_first (c : ascii) (s : string) : option string :=
  match s with
  | EmptyString => None
  | String x s' => if Ascii.eqb x c then Some s' else after_first c s'
  end.

(** [s.split("(")[1].split(")")[0]], for an [s] that contains ["("]. *)
Definition between_parentheses (s : string) : string :=
  before ")" (before "(" (default EmptyString (after_first "(" s))).

(** One pass of the cleaning loop (lines 90 to 112) over a row. *)
Definition clean_row (cleaned_rates : list dict) (rate : dict) : list dict :=
  let currency_full := Py.strip (get rate currency_key "") in
  let buy := Py.strip (get rate buy_key "") in
  let sell := Py.strip (get rate sell_key "") in
  if String.eqb buy "-" && String.eqb sell "-" then cleaned_rates
  else
    let currency_code :=
      if contains "(" currency_full && contains ")" currency_full
      then between_parentheses currency_full
      else currency_full in
    if Py.truthy currency_code && Py.truthy buy && Py.truthy sell
       && negb (String.eqb buy "-") && negb (String.eqb sell "-")
    then cleaned_rates ++ [ {[ currency_key := currency_code;
                               buy_key := buy;
                               sell_key := sell ]} ]
    else cleaned_rates.

(** The value [fetch_exchange_rates] returns for the decoded rows
    (line 115): the cleaned list, or [None] when nothing is left. *)
Definition cleaned (rates : list dict) : option (list dict) :=
  match fold_left clean_row rates [] with
  | [] => None
  | cleaned_rates => Some cleaned_rates
  end.

(** *** The window *)

(** A row of the table: [values=(currency, buy, sell)]. *)
Definition row : Type := string * string * string.

(** A callback handed to [self.after]. *)
Inductive callback :=
| UpdateUI (data : option (list dict))  (* lambda: self._update_ui_with_data(data) *)
| ShowErrorOf                           (* lambda: self._show_error(f"...{str(e)}") *)
| ClearStatus.                          (* lambda: self.status_label.config(text="") *)

(** The text of the result label. *)
Inductive result_text :=
| Hint                                  (* 請先選擇貨幣並點擊計算 *)
| Converted (twd_amount : float) (selected_currency : string)
            (buy_rate : float) (buy_result : string)
            (sell_rate : float) (sell_result : string) (at_time : time).

(** The window: its three attributes, the widgets the methods touch, the
    effects so far, the callbacks waiting in [self.after], and the worker
    threads ([fetching]: inside [run_until_complete]; [finishing]: the
    callback is scheduled, the [finally] block is still to run). *)
Record app := App {
  exchange_data : option (list dict);
  last_update : option time;
  is_loading : bool;
  update_btn : bool;
  status_label : string;
  cursor : string;
  time_label : string;
  tree : list (nat * row);
  tree_next : nat;
  combo_values : list string;
  combo_text : string;
  twd_entry : string;
  result_label : result_text;
  effects : list effect;
  after : list (Z * callback);
  fetching : nat;
  finishing : nat
}.

Definition set_exchange_data (v : option (list dict)) (a : app) : app :=
  App v (last_update a) (is_loading a) (update_btn a) (status_label a)
      (cursor a) (time_label a) (tree a) (tree_next a) (combo_values a)
      (combo_text a) (twd_entry a) (result_label a) (effects a) (after a)
      (fetching a) (finishing a).

Definition set_last_update (v : option time) (a : app) : app :=
  App (exchange_data a) v (is_loading a) (update_btn a) (status_label a)
      (cursor a) (time_label a) (tree a) (tree_next a) (combo_values a)
      (combo_text a) (twd_entry a) (result_label a) (effects a) (after a)
      (fetching a) (finishing a).

Definition set_is_loading (v : bool) (a : app) : app :=
  App (exchange_data a) (last_update a) v (update_btn a) (status_label a)
      (cursor a) (time_label a) (tree a) (tree_next a) (combo_values a)
      (combo_text a) (twd_entry a) (result_label a) (effects a) (after a)
      (fetching a) (finishing a).

Definition set_update_btn (v : bool) (a : app) : app :=
  App (exchange_data a) (last_update a) (is_loading a) v (status_label a)
      (cursor a) (time_label a) (tree a) (tree_next a) (combo_values a)
      (combo_text a) (twd_entry a) (result_label a) (effects a) (after a)
      (fetching a) (finishing a).

Definition set_status_label (v : string) (a : app) : app :=
  App (exchange_data a) (last_update a) (is_loading a) (update_btn a) v
      (cursor a) (time_label a) (tree a) (tree_next a) (combo_values a)
      (combo_text a) (twd_entry a) (result_label a) (effects a) (after a)
      (fetching a) (finishing a).

Definition set_cursor (v : string) (a : app) : app :=
  App (exchange_data a) (last_update a) (is_loading a) (update_btn a)
      (status_label a) v (time_label a) (tree a) (tree_next a)
      (combo_values a) (combo_text a) (twd_entry a) (result_label a)
      (effects a) (after a) (fetching a) (finishing a).

Definition set_time_label (v : string) (a : app) : app :=
  App (exchange_data a) (last_update a) (is_loading a) (update_btn a)
      (status_label a) (cursor a) v (tree a) (tree_next a) (combo_values a)
      (combo_text a) (twd_entry a) (result_label a) (effects a) (after a)
      (fetching a) (finishing a).

Definition set_tree (v : list (nat * row)) (a : app) : app :=
  App (exchange_data a) (last_update a) (is_loading a) (update_btn a)
      (status_label a) (cursor a) (time_label a) v (tree_next a)
      (combo_values a) (combo_text a) (twd_entry a) (result_label a)
      (effects a) (after a) (fetching a) (finishing a).

Definition set_tree_next (v : nat) (a : app) : app :=
  App (exchange_data a) (last_update a) (is_loading a) (update_btn a)
      (status_label a) (cursor a) (time_label a) (tree a) v (combo_values a)
      (combo_text a) (twd_entry a) (result_label a) (effects a) (after a)
      (fetching a) (finishing a).

Definition set_combo_values (v : list string) (a : app) : app :=
  App (exchange_data a) (last_update a) (is_loading a) (update_btn a)
      (status_label a) (cursor a) (time_label a) (tree a) (tree_next a) v
      (combo_text a) (twd_entry a) (result_label a) (effects a) (after a)
      (fetching a) (finishing a).

Definition set_combo_text (v : string) (a : app) : app :=
  App (exchange_data a) (last_update a) (is_loading a) (update_btn a)
      (status_label a) (cursor a) (time_label a) (tree a) (tree_next a)
      (combo_values a) v (twd_entry a) (result_label a) (effects a) (after a)
      (fetching a) (finishing a).

Definition set_twd_entry (v : string) (a : app) : app :=
  App (exchange_data a) (last_update a) (is_loading a) (update_btn a)
      (status_label a) (cursor a) (time_label a) (tree a) (tree_next a)
      (combo_values a) (combo_text a) v (result_label a) (effects a) (after a)
      (fetching a) (finishing a).

Definition set_result_label (v : result_text) (a : app) : app :=
  App (exchange_data a) (last_update a) (is_loading a) (update_btn a)
      (status_label a) (cursor a) (time_label a) (tree a) (tree_next a)
      (combo_values a) (combo_text a) (twd_entry a) v (effects a) (after a)
      (fetching a) (finishing a).

Definition set_effects (v : list effect) (a : app) : app :=
  App (exchange_data a) (last_update a) (is_loading a) (update_btn a)
      (status_label a) (cursor a) (time_label a) (tree a) (tree_next a)
      (combo_values a) (combo_text a) (twd_entry a) (result_label a) v
      (after a) (fetching a) (finishing a).

Definition set_after (v : list (Z * callback)) (a : app) : app :=
  App (exchange_data a) (last_update a) (is_loading a) (update_btn a)
      (status_label a) (cursor a) (time_label a) (tree a) (tree_next a)
      (combo_values a) (combo_text a) (twd_entry a) (result_label a)
      (effects a) v (fetching a) (finishing a).

Definition set_fetching (v : nat) (a : app) : app :=
  App (exchange_data a) (last_update a) (is_loading a) (update_btn a)
      (status_label a) (cursor a) (time_label a) (tree a) (tree_next a)
      (combo_values a) (combo_text a) (twd_entry a) (result_label a)
      (effects a) (after a) v (finishing a).

Definition set_finishing (v : nat) (a : app) : app :=
  App (exchange_data a) (last_update a) (is_loading a) (update_btn a)
      (status_label a) (cursor a) (time_label a) (tree a) (tree_next a)
      (combo_values a) (combo_text a) (twd_entry a) (result_label a)
      (effects a) (after a) (fetching a) v.

Definition show (e : effect) (a : app) : app :=
  set_effects (effects a ++ [e]) a.

Definition schedule (ms : Z) (cb : callback) (a : app) : app :=
  set_after (after a ++ [(ms, cb)]) a.

(** [__init__] before [_load_initial_data]. *)
Definition created : app :=
  App None None false true "" "" "最後更新: -" [] 0 [] "" "1000" Hint [] [] 0 0.

Definition _show_loading (a : app) : app :=
  set_cursor "watch" (set_update_btn false (set_status_label "⏳ 載入中..." a)).

Definition _hide_loading (a : app) : app :=
  set_cursor "" (set_update_btn true (set_status_label "" a)).

(** [Thread(target=run_async, daemon=True).start()] *)
Definition start_thread (a : app) : app := set_fetching (S (fetching a)) a.

Definition _fetch_data_thread (a : app) : app :=
  if is_loading a then show (ShowInfo "提示" "正在載入中，請稍候...") a
  else start_thread (_show_loading (set_is_loading true a)).

Definition _load_initial_data (a : app) : app := _fetch_data_thread a.

Definition _show_error (message : string) (a : app) : app :=
  show (ShowError "錯誤" message) (set_is_loading false (_hide_loading a)).

(** [self.tree.delete(item)] *)
Definition tree_delete (item : nat) (a : app) : app :=
  set_tree (filter (fun x => x.1 ≠ item) (tree a)) a.

(** [self.tree.insert("", tk.END, values=v)] *)
Definition tree_insert (v : row) (a : app) : app :=
  set_tree_next (S (tree_next a)) (set_tree (tree a ++ [(tree_next a, v)]) a).

(** The rows the table shows, top to bottom. *)
Definition rows (a : app) : list row := (tree a).*2.

Definition row_of (rate : dict) : row :=
  (get rate currency_key "", get rate buy_key "暫停交易", get rate sell_key "暫停交易").

Definition _update_treeview (a : app) : app :=
  let a := fold_left (fun a item => tree_delete item a) (tree a).*1 a in
  match exchange_data a with
  | Some ((_ :: _) as data) => fold_left (fun a rate => tree_insert (row_of rate) a) data a
  | _ => a
  end.

(** The test of line 492 on one record. *)
Definition tradable (rate : dict) : bool :=
  Py.truthy (Py.strip (get rate currency_key ""))
  && Py.truthy (Py.strip (get rate buy_key ""))
  && Py.truthy (Py.strip (get rate sell_key "")).

Definition _update_currency_combo (a : app) : app :=
  let available_currencies :=
    match exchange_data a with
    | Some ((_ :: _) as data) =>
        fold_left (fun acc rate =>
                     if tradable rate
                     then acc ++ [Py.strip (get rate currency_key "")]
                     else acc) data []
    | _ => []
    end in
  let a := set_combo_values available_currencies a in
  match available_currencies with
  | first :: _ => set_combo_text first a
  | [] => a
  end.

Definition _update_ui_with_data (now : time) (data : option (list dict)) (a : app) : app :=
  let a := _hide_loading a in
  match data with
  | None | Some [] =>
      show (ShowError "錯誤" "無法取得匯率資料，請稍後重試") (set_is_loading false a)
  | Some data =>
      let a := set_last_update (Some now) (set_exchange_data (Some data) a) in
      let a := _update_treeview a in
      let a := _update_currency_combo a in
      let a := set_time_label ("最後更新: " +:+ now) a in
      let a := set_status_label "✅ 更新成功" a in
      let a := schedule 3000 ClearStatus a in
      set_is_loading false a
  end.

Definition _find_rate_by_currency (currency : string) (a : app) : option dict :=
  match exchange_data a with
  | Some ((_ :: _) as data) =>
      head (filter (fun rate => rate !! currency_key = Some currency) data)
  | _ => None
  end.

(** The exceptions [_calculate_conversion] catches. *)
Inductive exception :=
| ValueError                  (* float() on a text that is no number *)
| KeyError (key : string)     (* rate_data[key] on a missing key *)
| ZeroDivisionError.          (* division by a zero rate *)

(** [str(e)] *)
Definition str (e : exception) : string :=
  match e with
  | ValueError => "could not convert string to float"
  | KeyError key => "'" +:+ key +:+ "'"
  | ZeroDivisionError => "float division by zero"
  end.

(** The [except] clauses (lines 580 to 583). *)
Definition caught (e : exception) (a : app) : app :=
  match e with
  | ValueError => show (ShowError "錯誤" "請輸入有效的金額（數字）") a
  | _ => show (ShowError "錯誤" ("計算失敗: " +:+ str e)) a
  end.

Section Calculator.

(** Python's [float] on a string: [None] when it raises [ValueError]. *)
Variable float_of : string -> option float.

(** [float(rate_data[key])] *)
Definition rate_of (rate_data : dict) (key : string) : exception + float :=
  match rate_data !! key with
  | None => inl (KeyError key)
  | Some text =>
      match float_of text with
      | None => inl ValueError
      | Some x => inr x
      end
  end.

Definition divide (x y : float) : exception + float :=
  match Py.truediv x y with
  | None => inl ZeroDivisionError
  | Some q => inr q
  end.

Definition _calculate_conversion (now : time) (a : app) : app :=
  let twd_amount_str := Py.strip (twd_entry a) in
  if negb (Py.truthy twd_amount_str) then show (ShowWarning "警告" "請輸入台幣金額") a
  else
    match float_of twd_amount_str with
    | None => caught ValueError a
    | Some twd_amount =>
        if PrimFloat.leb twd_amount 0%float
        then show (ShowWarning "警告" "金額必須大於 0") a
        else
          let selected_currency := combo_text a in
          if negb (Py.truthy selected_currency)
          then show (ShowWarning "警告" "請選擇目標貨幣") a
          else
            match _find_rate_by_currency selected_currency a with
            | None =>
                show (ShowError "錯誤" ("無法找到 " +:+ selected_currency +:+ " 的匯率")) a
            | Some rate_data =>
                if bool_decide (rate_data = ∅)
                then show (ShowError "錯誤"
                             ("無法找到 " +:+ selected_currency +:+ " 的匯率")) a
                else
                  match rate_of rate_data buy_key with
                  | inl e => caught e a
                  | inr buy_rate =>
                  match rate_of rate_data sell_key with
                  | inl e => caught e a
                  | inr sell_rate =>
                  match divide twd_amount buy_rate with
                  | inl e => caught e a
                  | inr buy_result =>
                  match divide twd_amount sell_rate with
                  | inl e => caught e a
                  | inr sell_result =>
                      set_result_label
                        (Converted twd_amount selected_currency
                           buy_rate (Py.format_2f buy_result)
                           sell_rate (Py.format_2f sell_result) now) a
                  end end end end
            end
    end.

End Calculator.

(** *** The worker thread and the event loop *)

(** What [loop.run_until_complete(fetch_exchange_rates())] did. *)
Inductive fetched :=
| FetchReturned (data : option (list dict))
| FetchRaised (e : string).

(** [run_async] up to the end of its [try]/[except]: the fetch is over and
    a callback for the main thread is scheduled. *)
Definition run_async_try (r : fetched) (a : app) : app :=
  let a := set_finishing (S (finishing a)) (set_fetching (pred (fetching a)) a) in
  match r with
  | FetchReturned data => schedule 0 (UpdateUI data) a
  | FetchRaised e => schedule 0 ShowErrorOf a
  end.

(** The [finally] block of [run_async]; the thread ends. *)
Definition run_async_finally (a : app) : app :=
  set_is_loading false (set_finishing (pred (finishing a)) a).

(** The main thread runs a scheduled callback.  The callback of the
    [except] clause reads [e] after the clause has ended, where Python has
    already unbound the name: the call raises [NameError] before
    [_show_error] is entered, and Tk prints the trace. *)
Definition run_callback (now : time) (cb : callback) (a : app) : app :=
  match cb with
  | UpdateUI data => _update_ui_with_data now data a
  | ShowErrorOf => show (Traceback "NameError") a
  | ClearStatus => set_status_label "" a
  end.

(** The window after [__init__]. *)
Definition opened : app := _load_initial_data created.

(** What can happen next: the user presses the update button (Tk runs the
    command of a button only while its state is normal), edits the amount,
    picks a currency of the dropdown or presses the calculate button, a
    worker finishes its fetch or its [finally] block, the main loop runs a
    pending callback. *)
Inductive step : app -> app -> Prop :=
| step_update_btn a :
    update_btn a = true -> step a (_fetch_data_thread a)
| step_edit_amount text a :
    step a (set_twd_entry text a)
| step_pick_currency code a :
    code ∈ combo_values a -> step a (set_combo_text code a)
| step_calc_btn float_of now a :
    step a (_calculate_conversion float_of now a)
| step_fetched r a :
    (0 < fetching a)%nat -> step a (run_async_try r a)
| step_finally a :
    (0 < finishing a)%nat -> step a (run_async_finally a)
| step_callback now ms cb before_it after_it a :
    after a = before_it ++ (ms, cb) :: after_it ->
    step a (run_callback now cb (set_after (before_it ++ after_it) a)).

Definition reachable (a : app) : Prop := rtc step opened a.

(** *** Vocabulary of the properties *)

(** The codes the loop of [_update_currency_combo] collects. *)
Definition available (data : list dict) : list string :=
  map (fun rate => Py.strip (get rate currency_key "")) (List.filter tradable data).

Definition is_update (x : Z * callback) : bool :=
  match x.2 with UpdateUI _ => true | _ => false end.

(** Results handed to the main thread and not applied yet. *)
Definition pending_updates (a : app) : nat :=
  length (List.filter is_update (after a)).

(** Fetches that run or whose result waits to be applied. *)
Definition unsettled (a : app) : nat := (fetching a + pending_updates a)%nat.

(** At most one fetch is unsettled, and while one is the update button is
    disabled. *)
Definition settled_or_locked (a : app) : Prop :=
  (unsettled a <= 1)%nat /\ (unsettled a = 1%nat -> update_btn a = false).

(** The records the window holds. *)
Definition data_of (a : app) : list dict := default [] (exchange_data a).

(** The table, the dropdown and the time label agree with the cache. *)
Definition in_sync (a : app) : Prop :=
  rows a = map row_of (data_of a)
  /\ combo_values a = available (data_of a)
  /\ exchange_data a <> Some []
  /\ match last_update a with
     | Some t => exchange_data a <> None /\ time_label a = "最後更新: " +:+ t
     | None => exchange_data a = None /\ time_label a = "最後更新: -"
     end.

(** A warning or an error box. *)
Definition is_alert (e : effect) : bool :=
  match e with
  | ShowWarning _ _ | ShowError _ _ => true
  | _ => false
  end.

(** An information box. *)
Definition is_info (e : effect) : bool :=
  match e with ShowInfo _ _ => true | _ => false end.

(** While the flag is set the button is disabled, and no information box
    has been shown. *)
Definition never_busy_box (a : app) : Prop :=
  (is_loading a = true -> update_btn a = false)
  /\ Forall (fun e => is_info e = false) (effects a).

(** A record as the cleaning of [fetch_exchange_rates] builds it: exactly
    the three fields, none empty, the rates without surrounding white
    space and different from the dash of a suspended currency. *)
Definition well_formed (rate : dict) : Prop :=
  exists code buy sell,
    rate = {[ currency_key := code; buy_key := buy; sell_key := sell ]}
    /\ code <> "" /\ buy <> "" /\ sell <> ""
    /\ buy <> "-" /\ sell <> "-"
    /\ Py.strip buy = buy /\ Py.strip sell = sell.

End Exchange.

(* ===================================================================== *)
(** ** The stock fetcher ([src/lesson8_1/main.py])                       *)
(* ===================================================================== *)

Module Fetcher.

(** [datetime.now().strftime('%Y-%m-%d %H:%M:%S')]: the date and the time
    of day as the format prints them, with the space of the format
    between them. *)
Definition strftime (date clock : string) : time := date +:+ " " +:+ clock.

(** What [json.loads(result.extracted_content)] gives: a list, whose items
    are objects ([Some]) or anything else ([None]); a value that is no
    list; or a [JSONDecodeError]. *)
Inductive json :=
| JsonList (items : list (option dict))
| JsonOther
| JsonInvalid.

(** What [crawler.arun] did for one stock: it raised, or it returned a
    result with its [success] flag and its content, [None] standing for
    an empty one. *)
Inductive crawled :=
| CrawlRaised (e : string)
| CrawlResult (success : bool) (extracted_content : option json).

(** [now]: the clock reading of line 138. *)
Definition fetch_single_stock (stock_code : string) (now : time) (c : crawled)
  : option dict :=
  match c with
  | CrawlResult true (Some (JsonList (Some stock_data :: _))) =>
      Some (<["update_time" := now]> (<["stock_code" := stock_code]> stock_data))
  | _ => None
  end.

(** One job per stock code, in the order of [stock_codes]; the loop of
    lines 186 to 191 keeps what is neither an exception nor [None]. *)
Definition fetch_multiple_stocks (jobs : list (string * time * crawled)) : list dict :=
  fold_left
    (fun successful_results '(stock_code, now, c) =>
       match fetch_single_stock stock_code now c with
       | Some result => successful_results ++ [result]
       | None => successful_results
       end)
    jobs [].

(** What one job contributes. *)
Definition fetched_by (job : string * time * crawled) : option dict :=
  fetch_single_stock job.1.1 job.1.2 job.2.

End Fetcher.

(* ===================================================================== *)
(** ** The stock watch-list window ([src/lesson8_1/main.py])             *)
(* ===================================================================== *)

Module Stock.

(** What the worker puts on the queue: [('success', results)] or
    [('error', str(e))]. *)
Inductive message :=
| Success (results : list dict)
| Error (e : string).

(** The children of [stocks_container]: the empty-state label, or one card
    per watched stock, with data or waiting for it; and the card that
    [create_stock_card] leaves behind when it raises at line 677, packed
    with its header, its prices and its left column, the right column
    still empty. *)
Inductive card :=
| EmptyLabel
| StockCard (stock_code : string) (stock_data : dict)
| WaitingCard (stock_code : string)
| UnfinishedCard (stock_code : string) (stock_data : dict).

(** The callbacks handed to [root.after]. *)
Inductive callback := CheckQueue | ScheduleAutoUpdate.

(** Where a worker thread is in [run_crawler_in_thread]: inside
    [run_until_complete], fetching the codes it was started with, or past
    the [put] of its results and inside [loop.close()]. *)
Inductive worker :=
| Fetching (stock_codes : list string)
| Closing.

(** How a call ends: it returns, or it raises. *)
Inductive completion :=
| Normal
| Raise (exception : string).

(** The window: its attributes, the widgets the methods touch, the effects
    so far, the timers pending in [root.after] (identifier, delay,
    callback) and the worker threads that have not ended. *)
Record app := App {
  watchlist : gset string;
  stock_data_cache : gmap string dict;
  auto_update_enabled : bool;
  update_timer_id : option nat;
  is_updating : bool;
  result_queue : list message;
  update_btn : bool;
  status_label : string;
  last_update_label : string;
  stocks_container : list card;
  effects : list effect;
  after : list (nat * Z * callback);
  next_timer : nat;
  threads : list worker
}.

Definition set_watchlist (v : gset string) (a : app) : app :=
  App v (stock_data_cache a) (auto_update_enabled a) (update_timer_id a)
      (is_updating a) (result_queue a) (update_btn a) (status_label a)
      (last_update_label a) (stocks_container a) (effects a) (after a)
      (next_timer a) (threads a).

Definition set_stock_data_cache (v : gmap string dict) (a : app) : app :=
  App (watchlist a) v (auto_update_enabled a) (update_timer_id a)
      (is_updating a) (result_queue a) (update_btn a) (status_label a)
      (last_update_label a) (stocks_container a) (effects a) (after a)
      (next_timer a) (threads a).

Definition set_auto_update_enabled (v : bool) (a : app) : app :=
  App (watchlist a) (stock_data_cache a) v (update_timer_id a) (is_updating a)
      (result_queue a) (update_btn a) (status_label a) (last_update_label a)
      (stocks_container a) (effects a) (after a) (next_timer a) (threads a).

Definition set_update_timer_id (v : option nat) (a : app) : app :=
  App (watchlist a) (stock_data_cache a) (auto_update_enabled a) v
      (is_updating a) (result_queue a) (update_btn a) (status_label a)
      (last_update_label a) (stocks_container a) (effects a) (after a)
      (next_timer a) (threads a).

Definition set_is_updating (v : bool) (a : app) : app :=
  App (watchlist a) (stock_data_cache a) (auto_update_enabled a)
      (update_timer_id a) v (result_queue a) (update_btn a) (status_label a)
      (last_update_label a) (stocks_container a) (effects a) (after a)
      (next_timer a) (threads a).

Definition set_result_queue (v : list message) (a : app) : app :=
  App (watchlist a) (stock_data_cache a) (auto_update_enabled a)
      (update_timer_id a) (is_updating a) v (update_btn a) (status_label a)
      (last_update_label a) (stocks_container a) (effects a) (after a)
      (next_timer a) (threads a).

Definition set_update_btn (v : bool) (a : app) : app :=
  App (watchlist a) (stock_data_cache a) (auto_update_enabled a)
      (update_timer_id a) (is_updating a) (result_queue a) v (status_label a)
      (last_update_label a) (stocks_container a) (effects a) (after a)
      (next_timer a) (threads a).

Definition set_status_label (v : string) (a : app) : app :=
  App (watchlist a) (stock_data_cache a) (auto_update_enabled a)
      (update_timer_id a) (is_updating a) (result_queue a) (update_btn a) v
      (last_update_label a) (stocks_container a) (effects a) (after a)
      (next_timer a) (threads a).

Definition set_last_update_label (v : string) (a : app) : app :=
  App (watchlist a) (stock_data_cache a) (auto_update_enabled a)
      (update_timer_id a) (is_updating a) (result_queue a) (update_btn a)
      (status_label a) v (stocks_container a) (effects a) (after a)
      (next_timer a) (threads a).

Definition set_stocks_container (v : list card) (a : app) : app :=
  App (watchlist a) (stock_data_cache a) (auto_update_enabled a)
      (update_timer_id a) (is_updating a) (result_queue a) (update_btn a)
      (status_label a) (last_update_label a) v (effects a) (after a)
      (next_timer a) (threads a).

Definition set_effects (v : list effect) (a : app) : app :=
  App (watchlist a) (stock_data_cache a) (auto_update_enabled a)
      (update_timer_id a) (is_updating a) (result_queue a) (update_btn a)
      (status_label a) (last_update_label a) (stocks_container a) v (after a)
      (next_timer a) (threads a).

Definition set_after (v : list (nat * Z * callback)) (a : app) : app :=
  App (watchlist a) (stock_data_cache a) (auto_update_enabled a)
      (update_timer_id a) (is_updating a) (result_queue a) (update_btn a)
      (status_label a) (last_update_label a) (stocks_container a) (effects a)
      v (next_timer a) (threads a).

Definition set_next_timer (v : nat) (a : app) : app :=
  App (watchlist a) (stock_data_cache a) (auto_update_enabled a)
      (update_timer_id a) (is_updating a) (result_queue a) (update_btn a)
      (status_label a) (last_update_label a) (stocks_container a) (effects a)
      (after a) v (threads a).

Definition set_threads (v : list worker) (a : app) : app :=
  App (watchlist a) (stock_data_cache a) (auto_update_enabled a)
      (update_timer_id a) (is_updating a) (result_queue a) (update_btn a)
      (status_label a) (last_update_label a) (stocks_container a) (effects a)
      (after a) (next_timer a) v.

Definition show (e : effect) (a : app) : app :=
  set_effects (effects a ++ [e]) a.

(** [root.after(ms, cb)]: the identifier of the new timer and the window. *)
Definition root_after (ms : Z) (cb : callback) (a : app) : nat * app :=
  (next_timer a,
   set_next_timer (S (next_timer a)) (set_after (after a ++ [(next_timer a, ms, cb)]) a)).

(** [root.after_cancel(id)] *)
Definition after_cancel (id : nat) (a : app) : app :=
  set_after (filter (fun t => t.1.1 ≠ id) (after a)) a.

(** [sorted] on strings: insertion into an ordered list. *)
Fixpoint insert_sorted (x : string) (l : list string) : list string :=
  match l with
  | [] => [x]
  | y :: l' => if String.leb x y then x :: l else y :: insert_sorted x l'
  end.

Definition sorted (l : list string) : list string :=
  fold_right insert_sorted [] l.

(** *** The window *)

(** [__init__] before the first [check_queue]. *)
Definition created : app :=
  App ∅ ∅ false None false [] true "就緒" "" [EmptyLabel] [] [] 0 [].

(** Truth value of [self.stock_data_cache.get(stock_code)]. *)
Definition cached (stock_code : string) (a : app) : option dict :=
  match stock_data_cache a !! stock_code with
  | Some stock_data => if bool_decide (stock_data = ∅) then None else Some stock_data
  | None => None
  end.

(** The text of the 更新 row (line 677):
    [stock_data.get('update_time', 'N/A').split(' ')[1]
     if stock_data.get('update_time') else 'N/A'].
    [None] is the [IndexError] of a time that holds no space. *)
Definition update_field (stock_data : dict) : option string :=
  match stock_data !! "update_time" with
  | Some update_time =>
      if Py.truthy update_time
      then match Exchange.after_first " " update_time with
           | Some rest => Some (Exchange.before " " rest)
           | None => None
           end
      else Some "N/A"
  | None => Some "N/A"
  end.

(** The card frame is packed before its rows are made, so a card whose
    更新 row raises stays in the container, unfinished. *)
Definition create_stock_card (stock_code : string) (a : app) : app * completion :=
  match cached stock_code a with
  | Some stock_data =>
      match update_field stock_data with
      | Some _ =>
          (set_stocks_container
             (stocks_container a ++ [StockCard stock_code stock_data]) a, Normal)
      | None =>
          (set_stocks_container
             (stocks_container a ++ [UnfinishedCard stock_code stock_data]) a,
           Raise "IndexError")
      end
  | None =>
      (set_stocks_container (stocks_container a ++ [WaitingCard stock_code]) a, Normal)
  end.

(** The loop of lines 544 and 545: it stops at the first card that
    raises. *)
Fixpoint create_stock_cards (stock_codes : list string) (a : app) : app * completion :=
  match stock_codes with
  | [] => (a, Normal)
  | stock_code :: stock_codes' =>
      match create_stock_card stock_code a with
      | (a', Normal) => create_stock_cards stock_codes' a'
      | raised => raised
      end
  end.

Definition update_watchlist_display (a : app) : app * completion :=
  let a := set_stocks_container [] a in
  if bool_decide (watchlist a = ∅)
  then (set_stocks_container [EmptyLabel] a, Normal)
  else create_stock_cards (sorted (elements (watchlist a))) a.

(** [selection]: the code of the entry selected in the list box, if any. *)
Definition add_to_watchlist (selection : option string) (a : app) : app * completion :=
  match selection with
  | None => (show (ShowWarning "提示" "請先選擇一支股票") a, Normal)
  | Some stock_code =>
      if bool_decide (stock_code ∈ watchlist a)
      then (show (ShowInfo "提示" ("股票 " +:+ stock_code +:+ " 已在觀察清單中")) a,
            Normal)
      else
        let a := set_watchlist (watchlist a ∪ {[stock_code]}) a in
        let a := show (ShowInfo "成功" ("已加入股票 " +:+ stock_code +:+ " 到觀察清單")) a in
        update_watchlist_display a
  end.

Definition remove_from_watchlist (stock_code : string) (a : app) : app * completion :=
  if bool_decide (stock_code ∈ watchlist a)
  then
    let a := set_watchlist (watchlist a ∖ {[stock_code]}) a in
    let a := set_stock_data_cache (delete stock_code (stock_data_cache a)) a in
    update_watchlist_display a
  else (a, Normal).

(** [len(x)] in an f-string. *)
Definition len (n : nat) : string := Py.digits (Z.of_nat n).

(** [threading.Thread(target=run_crawler_in_thread, ...).start()] on
    [stock_codes = list(self.watchlist)]; the order in which a set is
    listed is not fixed by Python, here it is that of [elements]. *)
Definition start_thread (a : app) : app :=
  set_threads (threads a ++ [Fetching (elements (watchlist a))]) a.

Definition start_update (a : app) : app :=
  let a := set_is_updating true a in
  let a := set_update_btn false a in
  let a := set_status_label ("🔄 更新中... (0/" +:+ len (size (watchlist a)) +:+ ")") a in
  start_thread a.

Definition manual_update (a : app) : app :=
  if bool_decide (watchlist a = ∅)
  then show (ShowInfo "提示" "觀察清單為空，請先加入股票") a
  else if is_updating a
  then show (ShowInfo "提示" "正在更新中，請稍候...") a
  else start_update a.

(** One pass of the loop of lines 755 to 758. *)
Definition cache_result (cache : gmap string dict) (stock_data : dict) : gmap string dict :=
  match stock_data !! "stock_code" with
  | Some stock_code =>
      if Py.truthy stock_code then <[stock_code := stock_data]> cache else cache
  | None => cache
  end.

(** The lines after the display is rebuilt (764 to 770). *)
Definition report_update (now : time) (results : list dict) (a : app) : app :=
  let a := set_is_updating false a in
  let a := set_update_btn true a in
  let a := set_status_label "✓ 更新完成" a in
  let a := set_last_update_label ("最後更新: " +:+ now) a in
  show (Print ("✓ 成功更新 " +:+ len (length results) +:+ "/"
               +:+ len (size (watchlist a)) +:+ " 支股票")) a.

(** When the display raises, the lines after it are not run: the flag
    stays set and the button disabled. *)
Definition on_update_complete (now : time) (results : list dict) (a : app)
  : app * completion :=
  let a := set_stock_data_cache (fold_left cache_result results (stock_data_cache a)) a in
  match update_watchlist_display a with
  | (a, Normal) => (report_update now results a, Normal)
  | raised => raised
  end.

Definition on_update_error (error_msg : string) (a : app) : app :=
  let a := set_is_updating false a in
  let a := set_update_btn true a in
  let a := set_status_label "✗ 更新失敗" a in
  show (ShowError "錯誤" ("更新股票資料時發生錯誤:" +:+ Py.bytes [10%N] +:+ error_msg)) a.

(** The body of the [while True] of [check_queue] for one message. *)
Definition handle (now : time) (m : message) (a : app) : app * completion :=
  match m with
  | Success data => on_update_complete now data a
  | Error data => (on_update_error data a, Normal)
  end.

(** [self.result_queue.put(m)] *)
Definition put (m : message) (a : app) : app :=
  set_result_queue (result_queue a ++ [m]) a.

(** The [while True] loop of [check_queue].  [pending] is the content of
    the queue: [get_nowait] takes its head, and raises [queue.Empty], which
    ends the loop, when there is none.  Only [queue.Empty] is caught: what
    a handler raises leaves the loop with the later messages still
    queued. *)
Fixpoint drain (now : time) (pending : list message) (a : app) : app * completion :=
  match pending with
  | [] => (a, Normal)
  | m :: pending' =>
      match handle now m (set_result_queue pending' a) with
      | (a', Normal) => drain now pending' a'
      | raised => raised
      end
  end.

(** The next poll is scheduled by the last line, which an exception
    skips. *)
Definition check_queue (now : time) (a : app) : app * completion :=
  match drain now (result_queue a) a with
  | (a, Normal) => ((root_after 100 CheckQueue a).2, Normal)
  | raised => raised
  end.

Definition schedule_auto_update (a : app) : app :=
  let a :=
    if auto_update_enabled a && negb (bool_decide (watchlist a = ∅))
       && negb (is_updating a)
    then start_update a else a in
  if auto_update_enabled a
  then let '(id, a) := root_after 60000 ScheduleAutoUpdate a in
       set_update_timer_id (Some id) a
  else a.

(** [auto_update_var]: the state of the check box after the click. *)
Definition toggle_auto_update (auto_update_var : bool) (a : app) : app :=
  let a := set_auto_update_enabled auto_update_var a in
  if auto_update_enabled a then schedule_auto_update a
  else
    match update_timer_id a with
    | Some id => set_update_timer_id None (after_cancel id a)
    | None => a
    end.

(** *** [run_crawler_in_thread] *)

(** What [loop.run_until_complete(fetch_multiple_stocks(stock_codes))] did
    in a worker: it returned the results of its jobs, or a call inside the
    [try] raised before any result was put. *)
Inductive fetched :=
| FetchReturned (jobs : list (string * time * Fetcher.crawled))
| FetchRaised (e : string).

(** The worker leaves the fetch (lines 206 to 210, and 213 and 214 when
    they raise): it puts its results and goes on to close its loop, or it
    puts the error and ends.  [before_it] and [after_it] are the other
    workers. *)
Definition crawler_fetched (r : fetched) (before_it after_it : list worker) (a : app)
  : app :=
  match r with
  | FetchReturned jobs =>
      put (Success (Fetcher.fetch_multiple_stocks jobs))
          (set_threads (before_it ++ Closing :: after_it) a)
  | FetchRaised e => put (Error e) (set_threads (before_it ++ after_it) a)
  end.

(** The worker leaves [loop.close()] (line 212) and ends; when the call
    raised, line 214 has put the error behind the results already put. *)
Definition crawler_closed (raised : option string) (before_it after_it : list worker)
    (a : app) : app :=
  let a := set_threads (before_it ++ after_it) a in
  match raised with
  | Some e => put (Error e) a
  | None => a
  end.

(** *** The main loop *)

Definition run_callback (now : time) (cb : callback) (a : app) : app * completion :=
  match cb with
  | CheckQueue => check_queue now a
  | ScheduleAutoUpdate => (schedule_auto_update a, Normal)
  end.

(** Tk runs a command or a timer callback: what it raises is caught by
    the main loop, which prints the trace and goes on. *)
Definition tk_call (r : app * completion) : app :=
  match r with
  | (a, Normal) => a
  | (a, Raise exception) => show (Traceback exception) a
  end.

(** The window after [__init__]: the first [check_queue] has run, on an
    empty queue. *)
Definition opened (now : time) : app := (check_queue now created).1.

(** The clock readings of the jobs of a fetch are what [strftime] prints,
    and the jobs are those of the codes the worker was started with. *)
Definition jobs_of (stock_codes : list string)
    (jobs : list (string * time * Fetcher.crawled)) : Prop :=
  map (fun job => job.1.1) jobs = stock_codes
  /\ Forall (fun job => exists date clock, job.1.2 = Fetcher.strftime date clock) jobs.

(** What can happen next: a user action (the update button runs its
    command only while it is enabled), a worker leaving its fetch or
    closing its loop, or the main loop firing a pending timer. *)
Inductive step : app -> app -> Prop :=
| step_add selection a : step a (tk_call (add_to_watchlist selection a))
| step_remove stock_code a : step a (tk_call (remove_from_watchlist stock_code a))
| step_manual_update a : update_btn a = true -> step a (manual_update a)
| step_toggle v a : step a (toggle_auto_update v a)
| step_fetched jobs stock_codes before_it after_it a :
    threads a = before_it ++ Fetching stock_codes :: after_it ->
    jobs_of stock_codes jobs ->
    step a (crawler_fetched (FetchReturned jobs) before_it after_it a)
| step_fetch_raised e stock_codes before_it after_it a :
    threads a = before_it ++ Fetching stock_codes :: after_it ->
    step a (crawler_fetched (FetchRaised e) before_it after_it a)
| step_closed raised before_it after_it a :
    threads a = before_it ++ Closing :: after_it ->
    step a (crawler_closed raised before_it after_it a)
| step_timer now id ms cb before_it after_it a :
    after a = before_it ++ (id, ms, cb) :: after_it ->
    step a (tk_call (run_callback now cb (set_after (before_it ++ after_it) a))).

Definition reachable (a : app) : Prop := exists now, rtc step (opened now) a.

(** *** Vocabulary of the properties *)

(** The card of a watched stock, given the cache. *)
Definition card_of (cache : gmap string dict) (stock_code : string) : card :=
  match cache !! stock_code with
  | Some stock_data =>
      if bool_decide (stock_data = ∅) then WaitingCard stock_code
      else match update_field stock_data with
           | Some _ => StockCard stock_code stock_data
           | None => UnfinishedCard stock_code stock_data
           end
  | None => WaitingCard stock_code
  end.

Definition unfinished (c : card) : bool :=
  match c with UnfinishedCard _ _ => true | _ => false end.

(** The cards the loop makes: those of the codes up to and including the
    first whose card is left unfinished. *)
Fixpoint cards_of (cache : gmap string dict) (stock_codes : list string) : list card :=
  match stock_codes with
  | [] => []
  | stock_code :: stock_codes' =>
      if unfinished (card_of cache stock_code) then [card_of cache stock_code]
      else card_of cache stock_code :: cards_of cache stock_codes'
  end.

(** What [update_watchlist_display] puts in the container, and how it
    ends. *)
Definition cards (watching : gset string) (cache : gmap string dict) : list card :=
  if bool_decide (watching = ∅) then [EmptyLabel]
  else cards_of cache (sorted (elements watching)).

Definition built (container : list card) : completion :=
  if existsb unfinished container then Raise "IndexError" else Normal.

(** A record whose 更新 row can be made. *)
Definition well_stamped (stock_data : dict) : Prop :=
  update_field stock_data <> None.

(** A message whose records are all well stamped. *)
Definition displayable (m : message) : Prop :=
  match m with
  | Success results => Forall well_stamped results
  | Error _ => True
  end.

(** Every record the window holds or is about to receive is well
    stamped. *)
Definition stamped (a : app) : Prop :=
  map_Forall (fun _ stock_data => well_stamped stock_data) (stock_data_cache a)
  /\ Forall displayable (result_queue a).

(** What the user sees of one message: the line printed for a success, the
    error box for a failure. *)
Definition notice (watching : gset string) (m : message) : effect :=
  match m with
  | Success results =>
      Print ("✓ 成功更新 " +:+ len (length results) +:+ "/"
             +:+ len (size watching) +:+ " 支股票")
  | Error e =>
      ShowError "錯誤" ("更新股票資料時發生錯誤:" +:+ Py.bytes [10%N] +:+ e)
  end.

(** The window after one message has been handled without an exception:
    [on_update_complete] or [on_update_error], field by field. *)
Definition handled (now : time) (a : app) (m : message) : app :=
  match m with
  | Success results =>
      let cache := fold_left cache_result results (stock_data_cache a) in
      App (watchlist a) cache (auto_update_enabled a) (update_timer_id a) false
          (result_queue a) true "✓ 更新完成" ("最後更新: " +:+ now)
          (cards (watchlist a) cache)
          (effects a ++ [notice (watchlist a) m])
          (after a) (next_timer a) (threads a)
  | Error e => on_update_error e a
  end.

Definition is_fetching (w : worker) : bool :=
  match w with Fetching _ => true | Closing => false end.

(** The fetches in flight: the workers inside [run_until_complete]. *)
Definition in_flight (a : app) : nat := length (List.filter is_fetching (threads a)).

(** Fetches that run or whose message waits to be handled. *)
Definition unsettled (a : app) : nat := (in_flight a + length (result_queue a))%nat.

(** What the guard of an update depends on: the workers, the queue and
    the flag. *)
Definition busy (a : app) : list worker * list message * bool :=
  (threads a, result_queue a, is_updating a).

(** At most one fetch is unsettled, and while one is the flag is set. *)
Definition one_update (a : app) : Prop :=
  (unsettled a <= 1)%nat /\ (unsettled a = 1%nat -> is_updating a = true).

(** A worker's [loop.close()] raises. *)
Definition close_raises (a a' : app) : Prop :=
  exists e before_it after_it,
    threads a = before_it ++ Closing :: after_it
    /\ a' = crawler_closed (Some e) before_it after_it a.

(** A step of a run in which no [loop.close()] raises. *)
Definition calm_step (a a' : app) : Prop := step a a' /\ ~ close_raises a a'.

Definition ascending (x y : string) : Prop := String.leb x y = true.

(** Whether a record reports the stock [stock_code]. *)
Definition reports (stock_code : string) (stock_data : dict) : bool :=
  bool_decide (stock_data !! "stock_code" = Some stock_code).

Definition same_callback (x y : callback) : bool :=
  match x, y with
  | CheckQueue, CheckQueue | ScheduleAutoUpdate, ScheduleAutoUpdate => true
  | _, _ => false
  end.

(** The timers of a list that call [cb]. *)
Definition timers_of (cb : callback) (timers : list (nat * Z * callback))
  : list (nat * Z * callback) :=
  List.filter (fun t => same_callback t.2 cb) timers.

(** What the timers depend on: the pending timers, the next identifier,
    the identifier kept for cancelling and the automatic-update setting. *)
Definition timing (a : app) : list (nat * Z * callback) * nat * option nat * bool :=
  (after a, next_timer a, update_timer_id a, auto_update_enabled a).

(** The pending timers carry identifiers already handed out, exactly one
    poll of the queue is pending, and the identifier kept for cancelling
    belongs to no poll. *)
Definition polling (t : list (nat * Z * callback) * nat * option nat * bool) : Prop :=
  let '(timers, next, kept, _) := t in
  Forall (fun t => (t.1.1 < next)%nat) timers
  /\ length (timers_of CheckQueue timers) = 1%nat
  /\ forall id, kept = Some id ->
       (id < next)%nat
       /\ Forall (fun t => t.1.1 = id -> t.2 = ScheduleAutoUpdate) timers.

(** The window as the user drives it: the check box flips at every click,
    so [toggle_auto_update] always reads the opposite of the current
    setting. *)
Inductive ui_step : app -> app -> Prop :=
| ui_add selection a : ui_step a (tk_call (add_to_watchlist selection a))
| ui_remove stock_code a : ui_step a (tk_call (remove_from_watchlist stock_code a))
| ui_manual_update a : update_btn a = true -> ui_step a (manual_update a)
| ui_toggle a : ui_step a (toggle_auto_update (negb (auto_update_enabled a)) a)
| ui_fetched jobs stock_codes before_it after_it a :
    threads a = before_it ++ Fetching stock_codes :: after_it ->
    jobs_of stock_codes jobs ->
    ui_step a (crawler_fetched (FetchReturned jobs) before_it after_it a)
| ui_fetch_raised e stock_codes before_it after_it a :
    threads a = before_it ++ Fetching stock_codes :: after_it ->
    ui_step a (crawler_fetched (FetchRaised e) before_it after_it a)
| ui_closed raised before_it after_it a :
    threads a = before_it ++ Closing :: after_it ->
    ui_step a (crawler_closed raised before_it after_it a)
| ui_timer now id ms cb before_it after_it a :
    after a = before_it ++ (id, ms, cb) :: after_it ->
    ui_step a (tk_call (run_callback now cb (set_after (before_it ++ after_it) a))).

(** While automatic updating is on exactly one timer is armed for it, the
    one whose identifier is kept; while it is off none is. *)
Definition armed (t : list (nat * Z * callback) * nat * option nat * bool) : Prop :=
  let '(timers, _, kept, enabled) := t in
  if enabled
  then exists id, kept = Some id
                  /\ timers_of ScheduleAutoUpdate timers
                     = [(id, 60000, ScheduleAutoUpdate)]
  else timers_of ScheduleAutoUpdate timers = [].

(** What the card container depends on, and the container. *)
Definition display (a : app) : gset string * gmap string dict * list card :=
  (watchlist a, stock_data_cache a, stocks_container a).

(** The container shows the cards of the watch list and the cache. *)
Definition shown (d : gset string * gmap string dict * list card) : Prop :=
  d.2 = cards d.1.1 d.1.2.

End Stock.

(* ===================================================================== *)
(** ** The stock list panel ([src/lesson8_1/main.py])                    *)
(* ===================================================================== *)

Module Listing.

(** A value of [twstock.codes]: the attributes the window reads. *)
Record stock_info := StockInfo { type : string; name : string }.

(** An element of [self.all_stocks]: [(code, info.name, display_text)]. *)
Definition entry : Type := string * string * string.

(** [f"{code} - {info.name}"] *)
Definition display_text (code name : string) : string :=
  code +:+ " - " +:+ name.

(** The loop of lines 465 to 468 over [twstock.codes.items()]. *)
Definition listed (codes : list (string * stock_info)) : list entry :=
  fold_left
    (fun all_stocks '(code, info) =>
       if String.eqb (type info) "股票"
       then all_stocks ++ [(code, name info, display_text code (name info))]
       else all_stocks)
    codes [].

(** [list.sort(key=lambda x: x[0])]: by code, entries with equal codes
    keeping their order. *)
Fixpoint insert_by_code (x : entry) (l : list entry) : list entry :=
  match l with
  | [] => [x]
  | y :: l' => if String.leb x.1.1 y.1.1 then x :: l else y :: insert_by_code x l'
  end.

Definition sort_by_code (l : list entry) : list entry :=
  fold_right insert_by_code [] l.

(** The order of the sort key: the codes of two entries ascend. *)
Definition by_code (x y : entry) : Prop := String.leb x.1.1 y.1.1 = true.

(** The entry the loop makes of one item of [twstock.codes], if it is a
    stock. *)
Definition entry_of (item : string * stock_info) : option entry :=
  if String.eqb (type item.2) "股票"
  then Some (item.1, name item.2, display_text item.1 (name item.2))
  else None.

(** The list panel: [self.all_stocks] and the lines of the list box. *)
Record panel := Panel {
  all_stocks : list entry;
  stock_listbox : list string
}.

(** The panel when [load_tw_stocks] is called. *)
Definition empty_panel : panel := Panel [] [].

Definition load_tw_stocks (codes : list (string * stock_info)) (p : panel) : panel :=
  let all_stocks := sort_by_code (listed codes) in
  Panel all_stocks (stock_listbox p ++ map (fun e => e.2) all_stocks).

Section Search.

(** Python's [str.lower]. *)
Variable lower : string -> string.

(** The test of line 490 on one entry. *)
Definition matches (search_text : string) (e : entry) : bool :=
  Dashboard.within search_text (lower e.1.1)
  || Dashboard.within search_text (lower e.1.2).

(** [search_var]: the text of the search box. *)
Definition on_search (search_var : string) (p : panel) : panel :=
  let search_text := lower search_var in
  Panel (all_stocks p)
        (map (fun e => e.2) (List.filter (matches search_text) (all_stocks p))).

End Search.

(** [selected_text.split(' - ')[0]] for the selected index, if a line is
    selected; the list box gives the empty text for an index that is out
    of range. *)
Definition selected_code (selection : option nat) (p : panel) : option string :=
  match selection with
  | None => None
  | Some i => Some (Py.split_first " - " (default "" (stock_listbox p !! i)))
  end.

(** [add_to_watchlist] with the selection read from the list box. *)
Definition add_selected (selection : option nat) (p : panel) (a : Stock.app)
  : Stock.app * Stock.completion :=
  Stock.add_to_watchlist (selected_code selection p) a.

End Listing.

(* ===================================================================== *)
(** ** Example data                                                    *)
(* ===================================================================== *)

Module Examples.

Definition usd : dict :=
  {[ Exchange.currency_key := "USD"; Exchange.buy_key := "30.1";
     Exchange.sell_key := "30.5" ]}.

(** A record whose buy field holds one space. *)
Definition usd_blank_buy : dict :=
  {[ Exchange.currency_key := "USD"; Exchange.buy_key := " ";
     Exchange.sell_key := "30.5" ]}.

(** A scraped row with a buy rate and an empty sell cell. *)
Definition usd_no_sell : dict :=
  {[ Exchange.currency_key := "USD"; Exchange.buy_key := "30.1";
     Exchange.sell_key := "" ]}.

(** The same record as scraped: the name with the code in parentheses and
    white space around the rates; and a currency whose trading is
    suspended. *)
Definition usd_scraped : dict :=
  {[ Exchange.currency_key := "美金 (USD)"; Exchange.buy_key := " 30.1 ";
     Exchange.sell_key := "30.5" ]}.

Definition zar_suspended : dict :=
  {[ Exchange.currency_key := "南非幣 (ZAR)"; Exchange.buy_key := "-";
     Exchange.sell_key := "-" ]}.

(** Python's [float] on the three texts the examples convert. *)
Definition float_of (s : string) : option float :=
  if String.eqb s "1000" then Some 1000%float
  else if String.eqb s "30.1" then Some 30.1%float
  else if String.eqb s "30.5" then Some 30.5%float
  else None.

(** Python's [str] on the floats the examples print. *)
Definition float_str (x : float) : string :=
  if PrimFloat.eqb x 30.5 then "30.5"
  else if PrimFloat.eqb x 30.1 then "30.1"
  else "1000.0".

(** A session of the web dashboard holding the USD row, saved at time 0. *)
Definition usd_session : Dashboard.session :=
  Dashboard.save_rates_to_cache
    [Dashboard.RateRow "USD" "30.1" "30.5" (Some 30.1%float) (Some 30.5%float)]
    0 Dashboard.new_session.

(** The exchange window showing the one USD record. *)
Definition showing_usd : Exchange.app :=
  Exchange._update_ui_with_data "2025-12-20 09:00:00" (Some [usd]) Exchange.created.

Definition tsmc : dict := {[ "stock_code" := "2330"; "即時價格" := "1000" ]}.
Definition cement : dict := {[ "stock_code" := "1101"; "即時價格" := "30" ]}.

(** The stock window with 2330 and then 1101 added to the watch list. *)
Definition watching_two : Stock.app :=
  (Stock.add_to_watchlist (Some "1101")
     (Stock.add_to_watchlist (Some "2330") (Stock.opened "2025-12-20 09:00:00")).1).1.

Definition jpy : dict :=
  {[ Exchange.currency_key := "JPY"; Exchange.buy_key := "0.2105";
     Exchange.sell_key := "0.2145" ]}.

(** The exchange window after its first fetch raised: the worker has
    scheduled the callback of its [except] clause; then it has run its
    [finally] block and the main loop has run the callback. *)
Definition fetch_raised : Exchange.app :=
  Exchange.run_async_try (Exchange.FetchRaised "timeout") Exchange.opened.

Definition after_raised_fetch : Exchange.app :=
  Exchange.run_callback "2025-12-20 09:00:05" Exchange.ShowErrorOf
    (Exchange.set_after [] (Exchange.run_async_finally fetch_raised)).

(** The job of a worker started for 2330, as the crawler answered it. *)
Definition tsmc_job : string * time * Fetcher.crawled :=
  ("2330", Fetcher.strftime "2025-12-20" "09:00:30",
   Fetcher.CrawlResult true (Some (Fetcher.JsonList [Some tsmc]))).

(** A run of the stock window: 2330 is added and an update is started;
    the worker puts its results and the next poll shows them; a second
    update is started while the first worker is still closing its loop;
    that [loop.close()] raises, the worker puts the error and the next
    poll handles it; a third update is started. *)
Definition first_update : Stock.app :=
  Stock.manual_update
    (Stock.tk_call (Stock.add_to_watchlist (Some "2330") (Stock.opened "2025-12-20 09:00:00"))).

Definition results_put : Stock.app :=
  Stock.crawler_fetched (Stock.FetchReturned [tsmc_job]) [] [] first_update.

Definition first_poll : Stock.app :=
  Stock.tk_call
    (Stock.run_callback "2025-12-20 09:00:31" Stock.CheckQueue (Stock.set_after [] results_put)).

Definition second_update : Stock.app := Stock.manual_update first_poll.

Definition close_raised : Stock.app :=
  Stock.crawler_closed (Some "close failed") [] [Stock.Fetching ["2330"]] second_update.

Definition stale_error_handled : Stock.app :=
  Stock.tk_call
    (Stock.run_callback "2025-12-20 09:00:32" Stock.CheckQueue (Stock.set_after [] close_raised)).

Definition third_update : Stock.app := Stock.manual_update stale_error_handled.

(** A record whose time holds no space, as no fetch of the program stamps
    it, waiting in the queue of a window that watches its stock. *)
Definition unstamped : dict := {[ "stock_code" := "2330"; "update_time" := "09:00:30" ]}.

Definition unstamped_queued : Stock.app :=
  Stock.put (Stock.Error "late")
    (Stock.put (Stock.Success [unstamped]) first_update).

(** The first worker's [loop.close()] raises before any poll: its two
    messages wait in the queue. *)
Definition two_messages : Stock.app :=
  Stock.crawler_closed (Some "close failed") [] [] results_put.

End Examples.

(* ===================================================================== *)
(** * Properties                                                         *)
(* ===================================================================== *)

(** ** The guessing game *)

Section GuessFacts.
Import Guess.

Lemma guess_keeps_target g keyin : target (guess g keyin).1 = target g.
Proof.
  unfold guess. repeat case_match; reflexivity.
Qed.

Lemma guess_in_bounds g keyin : in_bounds g -> in_bounds (guess g keyin).1.
Proof.
  unfold in_bounds, guess. intros Hb.
  repeat case_match; simpl in *; lia.
Qed.

Lemma iteration_in_bounds g g' :
  iteration g g' -> in_bounds g -> in_bounds g' /\ target g' = target g.
Proof.
  intros [keyin Hk] Hb.
  pose proof (guess_in_bounds (prompt g) keyin Hb) as Hb'.
  pose proof (guess_keeps_target (prompt g) keyin) as Ht.
  rewrite Hk in Hb', Ht. simpl in *. auto.
Qed.

Lemma loop_in_bounds t g :
  1 <= t <= 100 -> rtc iteration (start t) g -> in_bounds g /\ target g = t.
Proof.
  intros Ht Hr. revert g Hr. apply rtc_ind_r.
  - unfold in_bounds. simpl. lia.
  - intros g g' _ Hit [Hb Heq].
    destruct (iteration_in_bounds _ _ Hit Hb) as [Hb' Heq']. split; congruence.
Qed.

(** Every game that returns has read at least one line. *)
Lemma while_true_reads g stdin g' rest :
  while_true g stdin = Returned g' rest -> (length rest < length stdin)%nat.
Proof.
  revert g. induction stdin as [|l stdin IH]; intros g; simpl; [discriminate|].
  destruct (as_int l) as [keyin|]; [|discriminate].
  destruct (guess (prompt g) keyin) as [g1 [|]].
  - intros H. apply IH in H. lia.
  - intros H. injection H as _ <-. lia.
Qed.

(** [main] never stops for want of rounds: one more round than there are
    lines is as good as any larger number. *)
Lemma main_loop_enough_rounds rounds rounds' k draw printed stdin :
  (length stdin < rounds)%nat -> (length stdin < rounds')%nat ->
  main_loop rounds k draw printed stdin = main_loop rounds' k draw printed stdin.
Proof.
  revert rounds' k printed stdin.
  induction rounds as [|rounds IH]; intros rounds' k printed stdin Hn Hm; [lia|].
  destruct rounds' as [|rounds']; [lia|]. simpl.
  destruct (play_game (draw k) stdin) as [g rest | e g] eqn:Hplay; [|reflexivity].
  apply while_true_reads in Hplay.
  destruct rest as [|answer rest']; [reflexivity|].
  destruct (String.eqb (text answer) "n"); [reflexivity|].
  simpl in Hplay. apply IH; lia.
Qed.

(** C10.  At the top of every iteration of the guess loop the target lies
    within the prompted range [min, max]; an in-range wrong guess goes
    round again with max = guess - 1 when it was too high and
    min = guess + 1 when it was too low, the target still within the new
    range, and the new range strictly smaller; guessing the target leaves
    the loop. *)
Theorem guess_loop_narrows (t : Z) (g : game) (keyin : Z) :
  1 <= t <= 100 ->
  rtc iteration (start t) g ->
  min g <= keyin <= max g ->
  keyin <> t ->
  let g' := (guess (prompt g) keyin).1 in
  target g = t /\ min g <= t <= max g
  /\ (guess (prompt g) keyin).2 = Continue
  /\ (t < keyin -> max g' = keyin - 1 /\ min g' = min g)
  /\ (keyin < t -> min g' = keyin + 1 /\ max g' = max g)
  /\ min g' <= t <= max g'
  /\ max g' - min g' < max g - min g
  /\ (guess (prompt g) t).2 = Break.
Proof.
  intros Ht Hr Hk Hne.
  destruct (loop_in_bounds t g Ht Hr) as [Hb Heq].
  unfold in_bounds in Hb. rewrite Heq in Hb.
  unfold guess. simpl. rewrite Heq.
  assert (Hin : (min g <=? keyin) && (keyin <=? max g) = true)
    by (apply andb_true_iff; split; apply Z.leb_le; lia).
  assert (Hint : (min g <=? t) && (t <=? max g) = true)
    by (apply andb_true_iff; split; apply Z.leb_le; lia).
  rewrite Hin, Hint, Z.eqb_refl.
  destruct (Z.eqb_spec t keyin) as [->|_]; [lia|].
  destruct (Z.gtb_spec keyin t), (Z.ltb_spec keyin t); simpl; repeat split; lia.
Qed.

Lemma guess_loop_narrows_witness :
  1 <= 37 <= 100 /\ rtc iteration (start 37) (start 37)
  /\ max (guess (prompt (start 37)) 50).1 = 49
  /\ min (guess (prompt (start 37)) 50).1 = 1.
Proof.
  assert (H1 : 1 <= 37 <= 100) by lia.
  assert (H2 : rtc iteration (start 37) (start 37)) by apply rtc_refl.
  assert (H3 : min (start 37) <= 50 <= max (start 37)) by (simpl; lia).
  assert (H4 : 50 <> 37) by lia.
  pose proof (guess_loop_narrows 37 (start 37) 50 H1 H2 H3 H4) as H.
  cbv zeta in H. destruct H as (_ & _ & _ & Hhi & _).
  destruct (Hhi ltac:(lia)) as [Hmax Hmin].
  split; [exact H1 | split; [exact H2 | split; [exact Hmax | exact Hmin]]].
Defined.

(** Against C7 as stated.  A guess that is no number: [int] raises,
    nothing catches it, and the process ends with the exception. *)
Lemma guess_not_a_number_uncaught :
  main (fun _ => 42) [Line "abc" None]
  = Uncaught (ValueError "abc") [PrintTarget 42; PrintBanner; Prompt 1 100].
Proof. reflexivity. Qed.

(** C7, amended.  A guess outside the prompted range is reported on the
    console and the loop prompts again with the same range (the attempt is
    counted); a line that is no integer raises [ValueError] out of the
    loop, and whatever [play_game] raises ends [main] uncaught. *)
Theorem guess_invalid_input (g : game) (l : line) (rest : list line) :
  (forall keyin, as_int l = Some keyin -> ~ (min g <= keyin <= max g) ->
     let g' := print PrintOutOfRange (incr_count (prompt g)) in
     while_true g (l :: rest) = while_true g' rest
     /\ min g' = min g /\ max g' = max g /\ target g' = target g
     /\ out g' = out g ++ [Prompt (min g) (max g); PrintOutOfRange])
  /\ (as_int l = None ->
      while_true g (l :: rest) = Raised (ValueError (text l)) (prompt g))
  /\ (forall draw k rounds printed e g',
        play_game (draw k) (l :: rest) = Raised e g' ->
        main_loop (S rounds) k draw printed (l :: rest)
        = Uncaught e (printed ++ out g')).
Proof.
  repeat split.
  - simpl. rewrite H. unfold guess.
    assert (Hout : (min (incr_count (prompt g)) <=? keyin)
                   && (keyin <=? max (incr_count (prompt g))) = false).
    { simpl. apply andb_false_iff.
      destruct (Z.leb_spec (min g) keyin); [right | left; reflexivity].
      apply Z.leb_gt. lia. }
    rewrite Hout. reflexivity.
  - simpl. rewrite <- app_assoc. reflexivity.
  - intros H. simpl. rewrite H. reflexivity.
  - intros draw k rounds printed e g' H. simpl main_loop. rewrite H. reflexivity.
Qed.

Lemma guess_invalid_input_witness :
  while_true (start 42) [Line "500" (Some 500); Line "x" None]
  = Raised (ValueError "x")
      (prompt (print PrintOutOfRange (incr_count (prompt (start 42))))).
Proof.
  destruct (guess_invalid_input (start 42) (Line "500" (Some 500)) [Line "x" None])
    as (Hrange & _ & _).
  destruct (Hrange 500 eq_refl) as (Hloop & _).
  { simpl. lia. }
  rewrite Hloop.
  destruct (guess_invalid_input
              (print PrintOutOfRange (incr_count (prompt (start 42))))
              (Line "x" None) []) as (_ & Hraise & _).
  apply Hraise. reflexivity.
Defined.

End GuessFacts.

(** ** The exchange-rate window *)

Section ExchangeFacts.
Import Exchange.

(** Deleting every child leaves the table empty. *)
Lemma fold_tree_delete ids a :
  (forall x, x ∈ tree a -> x.1 ∈ ids) ->
  fold_left (fun a item => tree_delete item a) ids a = set_tree [] a.
Proof.
  revert a. induction ids as [|i ids IH]; intros a Hall; simpl.
  - destruct a as [? ? ? ? ? ? ? t ? ? ? ? ? ? ? ? ?]; simpl in *.
    destruct t as [|x t]; [reflexivity|].
    specialize (Hall x ltac:(left)). inversion Hall.
  - rewrite IH.
    + destruct a; reflexivity.
    + intros x Hx. simpl in Hx. apply list_elem_of_filter in Hx as [Hne Hx].
      specialize (Hall x Hx). inversion Hall; subst; [contradiction | assumption].
Qed.

Lemma clear_tree a :
  fold_left (fun a item => tree_delete item a) (tree a).*1 a = set_tree [] a.
Proof.
  apply fold_tree_delete. intros x Hx. apply list_elem_of_fmap. eauto.
Qed.

(** Inserting at the end, record after record. *)
Lemma fold_tree_insert data a :
  exists t n,
    fold_left (fun a rate => tree_insert (row_of rate) a) data a
    = set_tree_next n (set_tree t a)
    /\ t.*2 = (tree a).*2 ++ map row_of data.
Proof.
  revert a. induction data as [|rate data IH]; intros a; simpl.
  - exists (tree a), (tree_next a). split; [destruct a; reflexivity|].
    by rewrite app_nil_r.
  - destruct (IH (tree_insert (row_of rate) a)) as (t & n & Heq & Hrows).
    exists t, n. split.
    + rewrite Heq. destruct a; reflexivity.
    + rewrite Hrows. simpl. rewrite fmap_app. simpl. by rewrite <- app_assoc.
Qed.

(** The table after [_update_treeview]: one row per cached record, in the
    order of the list. *)
Lemma update_treeview_shape a :
  exists t n,
    _update_treeview a = set_tree_next n (set_tree t a)
    /\ t.*2 = match exchange_data a with
              | Some data => map row_of data
              | None => []
              end.
Proof.
  unfold _update_treeview. rewrite clear_tree.
  assert (Hsame : exchange_data (set_tree [] a) = exchange_data a)
    by (destruct a; reflexivity).
  rewrite Hsame.
  destruct (exchange_data a) as [[|rate data]|]; cbv beta iota zeta.
  - exists [], (tree_next a). split; [destruct a; reflexivity | reflexivity].
  - destruct (fold_tree_insert (rate :: data) (set_tree [] a)) as (t & n & Heq & Hrows).
    exists t, n. split; [rewrite Heq; destruct a; reflexivity|].
    rewrite Hrows. destruct a; reflexivity.
  - exists [], (tree_next a). split; [destruct a; reflexivity | reflexivity].
Qed.

Lemma fold_available data acc :
  fold_left (fun acc rate =>
               if tradable rate then acc ++ [Py.strip (get rate currency_key "")]
               else acc) data acc
  = acc ++ available data.
Proof.
  revert acc. induction data as [|rate data IH]; intros acc; simpl.
  - unfold available. simpl. by rewrite app_nil_r.
  - rewrite IH. unfold available. simpl.
    destruct (tradable rate); simpl; [by rewrite <- app_assoc | reflexivity].
Qed.

Lemma update_currency_combo_shape a :
  let codes := match exchange_data a with
               | Some data => available data
               | None => []
               end in
  _update_currency_combo a
  = set_combo_text (List.hd (combo_text a) codes) (set_combo_values codes a).
Proof.
  unfold _update_currency_combo.
  destruct (exchange_data a) as [[|rate data]|]; cbv beta iota zeta.
  - destruct a; reflexivity.
  - rewrite fold_available, app_nil_l.
    destruct (available (rate :: data)); [destruct a|]; reflexivity.
  - destruct a; reflexivity.
Qed.

(** The window after a non-empty result has been applied, field by
    field. *)
Lemma update_ui_success now data a :
  data <> [] ->
  exists t n,
    _update_ui_with_data now (Some data) a
    = App (Some data) (Some now) false true "✅ 更新成功" "" ("最後更新: " +:+ now)
          t n (available data) (List.hd (combo_text a) (available data))
          (twd_entry a) (result_label a) (effects a)
          (after a ++ [(3000, ClearStatus)]) (fetching a) (finishing a)
    /\ t.*2 = map row_of data.
Proof.
  intros Hne. destruct data as [|rate data]; [contradiction|].
  unfold _update_ui_with_data. cbv beta iota zeta.
  set (a1 := set_last_update _ _).
  destruct (update_treeview_shape a1) as (t & n & Heq & Hrows).
  rewrite Heq. rewrite update_currency_combo_shape.
  exists t, n. split.
  - destruct a; reflexivity.
  - rewrite Hrows. destruct a; reflexivity.
Qed.

(** The window after an empty result has been applied. *)
Lemma update_ui_failure now data a :
  data = None \/ data = Some [] ->
  _update_ui_with_data now data a
  = show (ShowError "錯誤" "無法取得匯率資料，請稍後重試")
         (set_is_loading false (_hide_loading a)).
Proof. intros [-> | ->]; reflexivity. Qed.

(** C2.  An empty result, [None] or a list of length zero, is a failure to
    the reconciler: an error box is shown, and the cached records, the
    rows of the table, the dropdown and the time of the last update stay
    as they were; the flag is cleared.  [fetch_exchange_rates] itself
    returns [None] rather than an empty list when no row survives the
    cleaning. *)
Theorem empty_result_is_failure now (data : option (list dict)) a :
  data = None \/ data = Some [] ->
  let a' := _update_ui_with_data now data a in
  effects a' = effects a ++ [ShowError "錯誤" "無法取得匯率資料，請稍後重試"]
  /\ exchange_data a' = exchange_data a
  /\ tree a' = tree a
  /\ combo_values a' = combo_values a /\ combo_text a' = combo_text a
  /\ last_update a' = last_update a /\ time_label a' = time_label a
  /\ is_loading a' = false
  /\ (forall rates, cleaned rates <> Some []).
Proof.
  intros Hd. cbv zeta. rewrite (update_ui_failure now data a Hd).
  destruct a; simpl. repeat split.
  intros rates. unfold cleaned. destruct (fold_left clean_row rates []); discriminate.
Qed.

Lemma empty_result_is_failure_witness :
  (Some (@nil dict) = None \/ Some (@nil dict) = Some [])
  /\ effects (_update_ui_with_data "t" (Some []) created)
     = [ShowError "錯誤" "無法取得匯率資料，請稍後重試"].
Proof.
  split; [right; reflexivity|].
  exact (proj1 (empty_result_is_failure "t" (Some []) created (or_intror eq_refl))).
Defined.

(** The callback of the [except] clause shows no error box and does not
    hide the loading state: the button stays as it was. *)
Lemma raised_fetch_callback now a :
  let a' := run_callback now ShowErrorOf a in
  update_btn a' = update_btn a /\ status_label a' = status_label a
  /\ effects a' = effects a ++ [Traceback "NameError"].
Proof. destruct a; repeat split. Qed.

(** *** One fetch at a time *)

Lemma calculate_frame float_of now a :
  (exists e, _calculate_conversion float_of now a = show e a)
  \/ (exists r, _calculate_conversion float_of now a = set_result_label r a).
Proof.
  unfold _calculate_conversion, caught.
  repeat case_match; eauto.
Qed.

Lemma calculate_keeps float_of now a :
  let a' := _calculate_conversion float_of now a in
  fetching a' = fetching a /\ after a' = after a /\ update_btn a' = update_btn a.
Proof.
  cbv zeta.
  destruct (calculate_frame float_of now a) as [[e ->] | [r ->]];
    destruct a; repeat split.
Qed.

Lemma pending_updates_remove (a : app) ms cb before_it after_it :
  after a = before_it ++ (ms, cb) :: after_it ->
  pending_updates a
  = (length (List.filter is_update (before_it ++ after_it))
     + (if is_update (ms, cb) then 1 else 0))%nat.
Proof.
  intros H. unfold pending_updates. rewrite H.
  rewrite !List.filter_app, !length_app. simpl.
  destruct (is_update (ms, cb)); simpl; lia.
Qed.

Lemma step_settled_or_locked a a' :
  step a a' -> settled_or_locked a -> settled_or_locked a'.
Proof.
  unfold settled_or_locked, unsettled.
  intros Hstep [Hle Hbtn]. destruct Hstep as
    [a Hon | text a | code a Hcode | float_of now a | r a Hpos | a Hpos
     | now ms cb l1 l2 a Hafter].
  - assert (Hzero : (fetching a + pending_updates a = 0)%nat).
    { destruct (decide ((fetching a + pending_updates a)%nat = 1%nat)) as [H1|H1].
      - specialize (Hbtn H1). congruence.
      - lia. }
    unfold _fetch_data_thread. destruct (is_loading a).
    + destruct a; unfold pending_updates in *; simpl in *. split; [lia|]. intros; lia.
    + destruct a; unfold pending_updates in *; simpl in *. split; [lia|]. reflexivity.
  - destruct a; unfold pending_updates in *; simpl in *. auto.
  - destruct a; unfold pending_updates in *; simpl in *. auto.
  - destruct (calculate_keeps float_of now a) as (Hf & Ha & Hb).
    unfold pending_updates in *. rewrite Hf, Ha, Hb. auto.
  - assert (Hone : (fetching a + pending_updates a = 1)%nat) by lia.
    specialize (Hbtn Hone).
    destruct r; destruct a; unfold pending_updates in *; simpl in *;
      rewrite List.filter_app, length_app; simpl; split; try lia; auto.
  - destruct a; unfold pending_updates in *; simpl in *. auto.
  - rewrite (pending_updates_remove a ms cb l1 l2 Hafter) in Hle, Hbtn.
    destruct cb as [data| |]; simpl in *.
    + assert (Hd : data = None \/ data = Some [] \/ exists d, data = Some d /\ d <> []).
      { destruct data as [[|x d]|]; eauto. }
      destruct Hd as [Hd | [Hd | (d & -> & Hd)]].
      * rewrite update_ui_failure by auto.
        destruct a; unfold pending_updates in *; simpl in *. split; [lia|]. intros; lia.
      * rewrite update_ui_failure by auto.
        destruct a; unfold pending_updates in *; simpl in *. split; [lia|]. intros; lia.
      * destruct (update_ui_success now d (set_after (l1 ++ l2) a) Hd)
          as (t & n & -> & _).
        destruct a; unfold pending_updates in *; simpl in *.
        rewrite List.filter_app, length_app; simpl. split; [lia|]. intros; lia.
    + destruct a; unfold pending_updates in *; simpl in *.
      split; [lia|]. intros H. apply Hbtn. lia.
    + destruct a; unfold pending_updates in *; simpl in *.
      split; [lia|]. intros H. apply Hbtn. lia.
Qed.

Lemma reachable_settled_or_locked a : reachable a -> settled_or_locked a.
Proof.
  unfold reachable. revert a. apply rtc_ind_r.
  - unfold settled_or_locked, unsettled, pending_updates. simpl. split; [lia | reflexivity].
  - intros a a' _ Hstep IH. eapply step_settled_or_locked; eauto.
Qed.

End ExchangeFacts.

(** ** The stock fetcher *)

Section FetcherFacts.
Import Fetcher.

Lemma fetch_multiple_stocks_omap jobs :
  fetch_multiple_stocks jobs = omap fetched_by jobs.
Proof.
  unfold fetch_multiple_stocks.
  assert (Hacc : forall acc,
             fold_left
               (fun successful_results '(stock_code, now, c) =>
                  match fetch_single_stock stock_code now c with
                  | Some result => successful_results ++ [result]
                  | None => successful_results
                  end)
               jobs acc
             = acc ++ omap fetched_by jobs).
  { induction jobs as [|[[stock_code now] c] jobs IH]; intros acc; simpl.
    - by rewrite app_nil_r.
    - rewrite IH. unfold fetched_by. simpl.
      destruct (fetch_single_stock stock_code now c); [|reflexivity].
      by rewrite <- app_assoc. }
  apply Hacc.
Qed.

Lemma fetch_single_stock_tagged stock_code now c stock_data :
  fetch_single_stock stock_code now c = Some stock_data ->
  stock_data !! "stock_code" = Some stock_code
  /\ stock_data !! "update_time" = Some now.
Proof.
  unfold fetch_single_stock. intros Hf.
  repeat case_match; try discriminate. injection Hf as <-.
  split.
  - rewrite lookup_insert_ne by discriminate. apply lookup_insert_eq.
  - apply lookup_insert_eq.
Qed.

(** A time printed by [strftime] has a second field. *)
Lemma strftime_second_field date clock :
  Exchange.after_first " " (strftime date clock) <> None.
Proof.
  unfold strftime. induction date as [|x date IH]; simpl; [discriminate|].
  by destruct (Ascii.eqb x " ").
Qed.

Lemma strftime_truthy date clock : Py.truthy (strftime date clock) = true.
Proof. unfold strftime. by destruct date. Qed.

(** What the fetcher returns for jobs stamped by [strftime] can be shown
    on a card. *)
Lemma fetched_well_stamped stock_codes jobs :
  Stock.jobs_of stock_codes jobs ->
  Forall Stock.well_stamped (fetch_multiple_stocks jobs).
Proof.
  intros [_ Hstamps]. rewrite fetch_multiple_stocks_omap.
  apply Forall_forall. intros stock_data Hin.
  apply list_elem_of_omap in Hin as ([[stock_code now] c] & Hin & Hf).
  rewrite Forall_forall in Hstamps. destruct (Hstamps _ Hin) as (date & clock & Hnow).
  change (now = strftime date clock) in Hnow. subst now.
  destruct (fetch_single_stock_tagged stock_code _ c stock_data Hf) as [_ Htime].
  unfold Stock.well_stamped, Stock.update_field. rewrite Htime. cbn [fst snd].
  rewrite strftime_truthy.
  pose proof (strftime_second_field date clock) as Hsecond.
  by destruct (Exchange.after_first " " (strftime date clock)).
Qed.

End FetcherFacts.

(** ** The stock watch-list window *)

Section StockFacts.
Import Stock.

(** *** The cards and the exception of line 677 *)

Lemma create_stock_card_shape stock_code a :
  create_stock_card stock_code a
  = (set_stocks_container
       (stocks_container a ++ [card_of (stock_data_cache a) stock_code]) a,
     built [card_of (stock_data_cache a) stock_code]).
Proof.
  unfold create_stock_card, cached, card_of, built.
  destruct (stock_data_cache a !! stock_code) as [d|]; [|reflexivity].
  destruct (bool_decide (d = ∅)); [reflexivity|].
  by destruct (update_field d).
Qed.

Lemma built_cons c container :
  built (c :: container)
  = if unfinished c then Raise "IndexError" else built container.
Proof. unfold built. simpl. by destruct (unfinished c). Qed.

Lemma create_stock_cards_shape stock_codes a :
  create_stock_cards stock_codes a
  = (set_stocks_container
       (stocks_container a ++ cards_of (stock_data_cache a) stock_codes) a,
     built (cards_of (stock_data_cache a) stock_codes)).
Proof.
  revert a. induction stock_codes as [|c stock_codes IH]; intros a; simpl.
  - rewrite app_nil_r. by destruct a.
  - rewrite create_stock_card_shape, !built_cons.
    destruct (unfinished (card_of (stock_data_cache a) c)) eqn:Hc.
    + by rewrite built_cons, Hc.
    + change (built []) with Normal. cbv iota. rewrite IH, built_cons, Hc.
      destruct a as [? cache ? ? ? ? ? ? ? cs ? ? ? ?]; simpl.
      by rewrite <- app_assoc.
Qed.

Lemma update_watchlist_display_shape a :
  update_watchlist_display a
  = (set_stocks_container (cards (watchlist a) (stock_data_cache a)) a,
     built (cards (watchlist a) (stock_data_cache a))).
Proof.
  unfold update_watchlist_display, cards.
  assert (Hw : watchlist (set_stocks_container [] a) = watchlist a)
    by (destruct a; reflexivity).
  rewrite Hw. destruct (bool_decide (watchlist a = ∅)).
  - destruct a; reflexivity.
  - rewrite create_stock_cards_shape. destruct a; reflexivity.
Qed.

Lemma card_of_finished cache stock_code :
  map_Forall (fun _ stock_data => well_stamped stock_data) cache ->
  unfinished (card_of cache stock_code) = false.
Proof.
  intros Hcache. unfold card_of.
  destruct (cache !! stock_code) as [d|] eqn:Hd; [|reflexivity].
  destruct (bool_decide (d = ∅)); [reflexivity|].
  specialize (Hcache stock_code d Hd). unfold well_stamped in Hcache.
  by destruct (update_field d).
Qed.

Lemma cards_of_stamped cache stock_codes :
  map_Forall (fun _ stock_data => well_stamped stock_data) cache ->
  cards_of cache stock_codes = map (card_of cache) stock_codes
  /\ built (cards_of cache stock_codes) = Normal.
Proof.
  intros Hcache. induction stock_codes as [|c stock_codes [IH1 IH2]]; simpl.
  - by split.
  - rewrite (card_of_finished cache c Hcache), IH1. split; [reflexivity|].
    rewrite built_cons, (card_of_finished cache c Hcache). by rewrite <- IH1.
Qed.

Lemma cards_built watching cache :
  map_Forall (fun _ stock_data => well_stamped stock_data) cache ->
  built (cards watching cache) = Normal.
Proof.
  intros Hcache. unfold cards. case_bool_decide; [reflexivity|].
  by apply cards_of_stamped.
Qed.

(** *** The handlers *)

(** [on_update_complete], field by field, on both of its ways out. *)
Lemma on_update_complete_shape now results a :
  on_update_complete now results a
  = let cache := fold_left cache_result results (stock_data_cache a) in
    match built (cards (watchlist a) cache) with
    | Normal => (handled now a (Success results), Normal)
    | Raise e =>
        (set_stocks_container (cards (watchlist a) cache) (set_stock_data_cache cache a),
         Raise e)
    end.
Proof.
  unfold on_update_complete. rewrite update_watchlist_display_shape.
  destruct a as [wl cache ? ? ? ? ? ? ? cs ? ? ? ?]; simpl.
  by destruct (built (cards wl (fold_left cache_result results cache))).
Qed.

Lemma on_update_error_shape error_msg a :
  on_update_error error_msg a
  = App (watchlist a) (stock_data_cache a) (auto_update_enabled a)
        (update_timer_id a) false (result_queue a) true "✗ 更新失敗"
        (last_update_label a) (stocks_container a)
        (effects a ++ [ShowError "錯誤" ("更新股票資料時發生錯誤:"
                                          +:+ Py.bytes [10%N] +:+ error_msg)])
        (after a) (next_timer a) (threads a).
Proof. destruct a; reflexivity. Qed.

Lemma cache_result_stamped cache stock_data :
  map_Forall (fun _ stock_data => well_stamped stock_data) cache ->
  well_stamped stock_data ->
  map_Forall (fun _ stock_data => well_stamped stock_data) (cache_result cache stock_data).
Proof.
  intros Hcache Hd. unfold cache_result.
  destruct (stock_data !! "stock_code") as [c|]; [|exact Hcache].
  destruct (Py.truthy c); [|exact Hcache].
  by apply map_Forall_insert_2.
Qed.

Lemma cache_results_stamped results cache :
  map_Forall (fun _ stock_data => well_stamped stock_data) cache ->
  Forall well_stamped results ->
  map_Forall (fun _ stock_data => well_stamped stock_data)
             (fold_left cache_result results cache).
Proof.
  intros Hcache Hresults. revert cache Hcache.
  induction Hresults as [|d results Hd _ IH]; intros cache Hcache; simpl; [exact Hcache|].
  apply IH. by apply cache_result_stamped.
Qed.

(** A message whose records are well stamped, handled on a cache whose
    records are: no exception, and the cache stays so. *)
Lemma handle_stamped now m a :
  map_Forall (fun _ stock_data => well_stamped stock_data) (stock_data_cache a) ->
  displayable m ->
  handle now m a = (handled now a m, Normal)
  /\ map_Forall (fun _ stock_data => well_stamped stock_data)
                (stock_data_cache (handled now a m)).
Proof.
  intros Hcache Hm. destruct m as [results | e]; simpl.
  - pose proof (cache_results_stamped results _ Hcache Hm) as Hnew.
    rewrite on_update_complete_shape. cbv zeta.
    rewrite (cards_built _ _ Hnew). by split.
  - split; [reflexivity|]. by destruct a.
Qed.

Lemma handled_frame now a m :
  let a' := handled now a m in
  watchlist a' = watchlist a /\ result_queue a' = result_queue a
  /\ after a' = after a /\ next_timer a' = next_timer a
  /\ threads a' = threads a /\ is_updating a' = false
  /\ update_btn a' = true
  /\ auto_update_enabled a' = auto_update_enabled a
  /\ update_timer_id a' = update_timer_id a
  /\ effects a' = effects a ++ [notice (watchlist a) m].
Proof. destruct m as [results | e]; destruct a; simpl; repeat split. Qed.

Lemma handled_set_result_queue now m q a :
  handled now (set_result_queue q a) m = set_result_queue q (handled now a m).
Proof. destruct m as [results | e]; destruct a; reflexivity. Qed.

Lemma fold_handled_set_result_queue now pending q a :
  fold_left (handled now) pending (set_result_queue q a)
  = set_result_queue q (fold_left (handled now) pending a).
Proof.
  revert a. induction pending as [|m pending IH]; intros a; simpl; [reflexivity|].
  rewrite handled_set_result_queue. apply IH.
Qed.

Lemma set_result_queue_twice q q' a :
  set_result_queue q (set_result_queue q' a) = set_result_queue q a.
Proof. by destruct a. Qed.

(** On well-stamped records the loop handles the messages one after the
    other, oldest first, without an exception, and leaves the queue
    empty. *)
Lemma drain_stamped now pending a :
  map_Forall (fun _ stock_data => well_stamped stock_data) (stock_data_cache a) ->
  Forall displayable pending ->
  result_queue a = pending ->
  drain now pending a
  = (set_result_queue [] (fold_left (handled now) pending a), Normal).
Proof.
  intros Hcache Hpending. revert a Hcache.
  induction Hpending as [|m pending Hm _ IH]; intros a Hcache Hq.
  - simpl. f_equal. destruct a; simpl in *; by subst.
  - simpl.
    assert (Hcache' : map_Forall (fun _ stock_data => well_stamped stock_data)
                                 (stock_data_cache (set_result_queue pending a)))
      by (destruct a; exact Hcache).
    destruct (handle_stamped now m _ Hcache' Hm) as [-> Hnext].
    rewrite IH; [| exact Hnext |].
    + rewrite handled_set_result_queue, fold_handled_set_result_queue.
      by rewrite set_result_queue_twice.
    + rewrite handled_set_result_queue. by destruct (handled now a m).
Qed.

Lemma fold_handled_frame now pending a :
  let a' := fold_left (handled now) pending a in
  watchlist a' = watchlist a /\ after a' = after a
  /\ next_timer a' = next_timer a /\ threads a' = threads a
  /\ auto_update_enabled a' = auto_update_enabled a
  /\ update_timer_id a' = update_timer_id a
  /\ (pending <> [] -> is_updating a' = false /\ update_btn a' = true)
  /\ (pending = [] -> a' = a)
  /\ effects a' = effects a ++ map (notice (watchlist a)) pending.
Proof.
  cbv zeta. revert a. induction pending as [|m pending IH]; intros a; simpl.
  - rewrite app_nil_r. repeat split; congruence.
  - destruct (IH (handled now a m)) as (Hw & Ha & Hn & Hr & Hv & Ht & Hu & Hu' & He).
    destruct (handled_frame now a m)
      as (Hw1 & _ & Ha1 & Hn1 & Hr1 & Hu1 & Hb1 & Hv1 & Ht1 & He1).
    rewrite Hw, Ha, Hn, Hr, Hv, Ht, He, Hw1, Ha1, Hn1, Hr1, Hv1, Ht1, He1.
    repeat split; try discriminate.
    + destruct pending; [by rewrite Hu' | by apply Hu].
    + destruct pending; [by rewrite Hu' | by apply Hu].
    + by rewrite <- app_assoc.
Qed.

Lemma fold_handled_stamped now pending a :
  map_Forall (fun _ stock_data => well_stamped stock_data) (stock_data_cache a) ->
  Forall displayable pending ->
  map_Forall (fun _ stock_data => well_stamped stock_data)
             (stock_data_cache (fold_left (handled now) pending a)).
Proof.
  intros Hcache Hpending. revert a Hcache.
  induction Hpending as [|m pending Hm _ IH]; intros a Hcache; simpl; [exact Hcache|].
  apply IH. by apply (handle_stamped now m a).
Qed.

(** One poll of a queue of well-stamped messages. *)
Lemma check_queue_stamped now a :
  stamped a ->
  check_queue now a
  = ((root_after 100 CheckQueue
        (set_result_queue [] (fold_left (handled now) (result_queue a) a))).2,
     Normal).
Proof.
  intros [Hcache Hqueue]. unfold check_queue.
  by rewrite (drain_stamped now (result_queue a) a Hcache Hqueue eq_refl).
Qed.

(** An empty list of results is a success to the stock window: the cards
    are rebuilt from the cache, the status line reports completion and no
    error box is shown. *)
Lemma on_update_complete_empty now a :
  map_Forall (fun _ stock_data => well_stamped stock_data) (stock_data_cache a) ->
  exists a', on_update_complete now [] a = (a', Normal)
    /\ stock_data_cache a' = stock_data_cache a
    /\ status_label a' = "✓ 更新完成"
    /\ effects a' = effects a ++ [notice (watchlist a) (Success [])].
Proof.
  intros Hcache. rewrite on_update_complete_shape. cbv zeta. simpl fold_left.
  rewrite (cards_built _ _ Hcache). eexists. split; [reflexivity|].
  simpl. repeat split.
Qed.

(** *** What the operations leave alone *)

(** What Tk's report of an exception changes: the effects only. *)
Lemma tk_call_effects r : tk_call r = set_effects (effects (tk_call r)) r.1.
Proof. destruct r as [a [|e]]; by destruct a. Qed.

Lemma add_to_watchlist_shape selection a :
  add_to_watchlist selection a
  = match selection with
    | None => (show (ShowWarning "提示" "請先選擇一支股票") a, Normal)
    | Some stock_code =>
        if bool_decide (stock_code ∈ watchlist a)
        then (show (ShowInfo "提示" ("股票 " +:+ stock_code +:+ " 已在觀察清單中")) a,
              Normal)
        else
          let container := cards (watchlist a ∪ {[stock_code]}) (stock_data_cache a) in
          (set_stocks_container container
             (show (ShowInfo "成功" ("已加入股票 " +:+ stock_code +:+ " 到觀察清單"))
                (set_watchlist (watchlist a ∪ {[stock_code]}) a)),
           built container)
    end.
Proof.
  unfold add_to_watchlist. destruct selection as [stock_code|]; [|reflexivity].
  case_bool_decide; [reflexivity|].
  rewrite update_watchlist_display_shape. by destruct a.
Qed.

Lemma remove_from_watchlist_shape stock_code a :
  remove_from_watchlist stock_code a
  = if bool_decide (stock_code ∈ watchlist a)
    then
      let container :=
        cards (watchlist a ∖ {[stock_code]}) (delete stock_code (stock_data_cache a)) in
      (set_stocks_container container
         (set_stock_data_cache (delete stock_code (stock_data_cache a))
            (set_watchlist (watchlist a ∖ {[stock_code]}) a)),
       built container)
    else (a, Normal).
Proof.
  unfold remove_from_watchlist. case_bool_decide; [|reflexivity].
  rewrite update_watchlist_display_shape. by destruct a.
Qed.

Lemma manual_update_cases a :
  (exists message, manual_update a = show (ShowInfo "提示" message) a)
  \/ (is_updating a = false /\ watchlist a <> ∅ /\ manual_update a = start_update a).
Proof.
  unfold manual_update. case_bool_decide as Hw; [eauto|].
  destruct (is_updating a); eauto.
Qed.

Lemma schedule_auto_update_cases a :
  exists started armed,
    schedule_auto_update a = armed (started a)
    /\ (started = (fun a => a)
        \/ (started = start_update /\ is_updating a = false /\ watchlist a <> ∅))
    /\ (armed = (fun a => a)
        \/ armed = (fun a => set_update_timer_id (Some (next_timer a))
                               (root_after 60000 ScheduleAutoUpdate a).2)).
Proof.
  unfold schedule_auto_update.
  exists (if auto_update_enabled a && negb (bool_decide (watchlist a = ∅))
             && negb (is_updating a) then start_update else fun a => a).
  exists (if auto_update_enabled a
          then fun a => set_update_timer_id (Some (next_timer a))
                          (root_after 60000 ScheduleAutoUpdate a).2
          else fun a => a).
  split; [|split].
  - assert (Hauto : forall b, auto_update_enabled (start_update b) = auto_update_enabled b)
      by (intros b; by destruct b).
    destruct (auto_update_enabled a && negb (bool_decide (watchlist a = ∅))
              && negb (is_updating a)) eqn:Hgo.
    + rewrite Hauto. by destruct (auto_update_enabled a).
    + by destruct (auto_update_enabled a).
  - destruct (auto_update_enabled a); simpl; [|by left].
    case_bool_decide as Hw; simpl; [by left|].
    destruct (is_updating a); simpl; [by left | by right].
  - destruct (auto_update_enabled a); [by right | by left].
Qed.

(** The window apart from its timers, its flag and button, its status
    line, its effects and its workers: what only the display and the
    handlers change. *)
Lemma schedule_auto_update_data a :
  watchlist (schedule_auto_update a) = watchlist a
  /\ stock_data_cache (schedule_auto_update a) = stock_data_cache a
  /\ result_queue (schedule_auto_update a) = result_queue a
  /\ stocks_container (schedule_auto_update a) = stocks_container a.
Proof.
  destruct (schedule_auto_update_cases a) as (started & armed & -> & Hs & Ha).
  destruct Hs as [-> | (-> & _ & _)]; destruct Ha as [-> | ->]; by destruct a.
Qed.

Lemma toggle_auto_update_data v a :
  watchlist (toggle_auto_update v a) = watchlist a
  /\ stock_data_cache (toggle_auto_update v a) = stock_data_cache a
  /\ result_queue (toggle_auto_update v a) = result_queue a
  /\ stocks_container (toggle_auto_update v a) = stocks_container a.
Proof.
  unfold toggle_auto_update.
  assert (Hv : auto_update_enabled (set_auto_update_enabled v a) = v)
    by (destruct a; reflexivity).
  rewrite Hv. destruct v.
  - destruct (schedule_auto_update_data (set_auto_update_enabled true a))
      as (-> & -> & -> & ->). by destruct a.
  - by destruct a as [? ? ? [tid|] ? ? ? ? ? ? ? ? ? ?].
Qed.

Lemma manual_update_data a :
  watchlist (manual_update a) = watchlist a
  /\ stock_data_cache (manual_update a) = stock_data_cache a
  /\ result_queue (manual_update a) = result_queue a
  /\ stocks_container (manual_update a) = stocks_container a.
Proof.
  destruct (manual_update_cases a) as [[message ->] | (_ & _ & ->)]; by destruct a.
Qed.

(** *** Every record the window meets is well stamped *)

Lemma step_stamped a a' : step a a' -> stamped a -> stamped a'.
Proof.
  intros Hstep [Hcache Hqueue]. destruct Hstep as
    [selection a | stock_code a | a Hbtn | v a
    | jobs codes l1 l2 a Hthreads Hjobs | e codes l1 l2 a Hthreads
    | raised l1 l2 a Hthreads | now id ms cb l1 l2 a Hafter].
  - rewrite tk_call_effects, add_to_watchlist_shape.
    destruct selection as [stock_code|]; [case_bool_decide|];
      destruct a; split; assumption.
  - rewrite tk_call_effects, remove_from_watchlist_shape.
    case_bool_decide; [|destruct a; split; assumption].
    destruct a as [wl cache ? ? ? q ? ? ? ? ? ? ? ?]; simpl in *.
    split; [by apply map_Forall_delete | exact Hqueue].
  - destruct (manual_update_data a) as (_ & Hc & Hq & _).
    unfold stamped. by rewrite Hc, Hq.
  - destruct (toggle_auto_update_data v a) as (_ & Hc & Hq & _).
    unfold stamped. by rewrite Hc, Hq.
  - destruct a as [wl cache ? ? ? q ? ? ? ? ? ? ? ?]; simpl in *.
    split; [exact Hcache|]. apply Forall_app. split; [exact Hqueue|].
    constructor; [|constructor]. simpl. by apply (fetched_well_stamped codes).
  - destruct a as [wl cache ? ? ? q ? ? ? ? ? ? ? ?]; simpl in *.
    split; [exact Hcache|]. apply Forall_app. split; [exact Hqueue|].
    by repeat constructor.
  - destruct raised as [e|]; destruct a as [wl cache ? ? ? q ? ? ? ? ? ? ? ?];
      simpl in *; (split; [exact Hcache|]); [|exact Hqueue].
    apply Forall_app. split; [exact Hqueue|]. by repeat constructor.
  - rewrite tk_call_effects. destruct cb; unfold run_callback.
    + assert (Hs : stamped (set_after (l1 ++ l2) a)) by (destruct a; by split).
      rewrite (check_queue_stamped now _ Hs).
      pose proof (fold_handled_stamped now (result_queue (set_after (l1 ++ l2) a))
                    (set_after (l1 ++ l2) a) (proj1 Hs) (proj2 Hs)) as Hnew.
      destruct (fold_left _ _ _); simpl in *. split; [exact Hnew | constructor].
    + destruct (schedule_auto_update_data (set_after (l1 ++ l2) a)) as (_ & Hc & Hq & _).
      unfold stamped. simpl. rewrite Hc, Hq. destruct a; by split.
Qed.

Lemma opened_shape now :
  opened now = App ∅ ∅ false None false [] true "就緒" "" [EmptyLabel] []
                   [(0%nat, 100, CheckQueue)] 1 [].
Proof. reflexivity. Qed.

Lemma reachable_stamped a : reachable a -> stamped a.
Proof.
  intros [now Hr]. revert a Hr. apply rtc_ind_r.
  - split; [apply map_Forall_empty | constructor].
  - intros a a' _ Hstep IH. by apply (step_stamped a a').
Qed.

(** On well-stamped records handling the messages one by one is no
    different from what [handled] gives. *)
Lemma fold_handle_stamped now pending a :
  map_Forall (fun _ stock_data => well_stamped stock_data) (stock_data_cache a) ->
  Forall displayable pending ->
  fold_left (fun a m => (handle now m a).1) pending a
  = fold_left (handled now) pending a.
Proof.
  intros Hcache Hpending. revert a Hcache.
  induction Hpending as [|m pending Hm _ IH]; intros a Hcache; simpl; [reflexivity|].
  destruct (handle_stamped now m a Hcache Hm) as [-> Hnext]. by apply IH.
Qed.

Lemma put_all_frame messages a :
  let a1 := fold_left (fun a m => put m a) messages a in
  a1 = set_result_queue (result_queue a ++ messages) a.
Proof.
  cbv zeta. revert a. induction messages as [|m messages IH]; intros a; simpl.
  - rewrite app_nil_r. by destruct a.
  - rewrite IH. destruct a; simpl. by rewrite <- app_assoc.
Qed.

(** *** The cards: one per watched stock, in ascending code order *)

Lemma insert_sorted_perm x l : Permutation (insert_sorted x l) (x :: l).
Proof.
  induction l as [|y l IH]; simpl; [reflexivity|].
  destruct (String.leb x y); [reflexivity|].
  rewrite IH. apply perm_swap.
Qed.

Lemma sorted_perm l : Permutation (sorted l) l.
Proof.
  induction l as [|x l IH]; simpl; [reflexivity|].
  rewrite insert_sorted_perm. by constructor.
Qed.

Lemma insert_sorted_HdRel z x l :
  ascending z x -> HdRel ascending z l -> HdRel ascending z (insert_sorted x l).
Proof.
  intros Hzx Hl. destruct l as [|y l]; simpl; [by constructor|].
  destruct (String.leb x y); constructor; [assumption|].
  by inversion Hl.
Qed.

Lemma insert_sorted_Sorted x l :
  Sorted ascending l -> Sorted ascending (insert_sorted x l).
Proof.
  induction 1 as [|y l Hl IH Hy]; simpl; [repeat constructor|].
  destruct (String.leb x y) eqn:Hxy.
  - repeat constructor; assumption.
  - constructor; [assumption|].
    apply insert_sorted_HdRel; [|assumption].
    destruct (String.leb_total x y) as [H|H]; [congruence | exact H].
Qed.

Lemma sorted_Sorted l : Sorted ascending (sorted l).
Proof.
  induction l as [|x l IH]; simpl; [constructor | by apply insert_sorted_Sorted].
Qed.

(** The cache after the loop of [on_update_complete]: for each code the
    last record of the results that reports it, else what was cached. *)
Lemma cache_results_lookup results cache stock_code :
  Py.truthy stock_code = true ->
  fold_left cache_result results cache !! stock_code
  = match last (List.filter (reports stock_code) results) with
    | Some stock_data => Some stock_data
    | None => cache !! stock_code
    end.
Proof.
  intros Hc. revert cache.
  induction results as [|r results IH]; intros cache; simpl; [reflexivity|].
  rewrite IH. unfold reports at 2, cache_result.
  destruct (r !! "stock_code") as [c|] eqn:Hr.
  - case_bool_decide as Heq.
    + injection Heq as ->. rewrite Hc, last_cons, lookup_insert_eq.
      by destruct (last _).
    + destruct (Py.truthy c); [|reflexivity].
      rewrite lookup_insert_ne; [reflexivity | congruence].
  - case_bool_decide; [discriminate | reflexivity].
Qed.

End StockFacts.

(** ** Formatting *)

Section PyFacts.

Lemma round_half_even_nearest n d :
  0 <= n -> 0 < d -> 2 * Z.abs (n - Py.round_half_even n d * d) <= d.
Proof.
  intros Hn Hd. unfold Py.round_half_even.
  pose proof (Z.div_mod n d ltac:(lia)) as Hdiv.
  pose proof (Z.mod_pos_bound n d Hd) as Hmod.
  destruct (Z.ltb_spec (2 * (n mod d)) d); [nia|].
  destruct (Z.ltb_spec d (2 * (n mod d))); [nia|].
  destruct (Z.even (n / d)); nia.
Qed.

Lemma hundredths_nearest m e :
  let '(n, d) := Py.hundredths_fraction m e in
  0 <= n /\ 0 < d /\ 2 * Z.abs (n - Py.hundredths m e * d) <= d.
Proof.
  unfold Py.hundredths, Py.hundredths_fraction.
  destruct (Z.leb_spec 0 e).
  - assert (0 < 2 ^ e) by (apply Z.pow_pos_nonneg; lia).
    split; [nia|]. split; [lia|]. apply round_half_even_nearest; nia.
  - assert (0 < 2 ^ (- e)) by (apply Z.pow_pos_nonneg; lia).
    split; [lia|]. split; [lia|]. apply round_half_even_nearest; lia.
Qed.

End PyFacts.

(** ** Runs on the example data *)

Section Runs.
Import Examples.

(** The cleaning of [fetch_exchange_rates] keeps the code between the
    parentheses and drops the suspended currency. *)
Example cleaned_example :
  Exchange.cleaned [usd_scraped; zar_suspended] = Some [usd]
  /\ Exchange.cleaned [zar_suspended] = None.
Proof. vm_compute. split; reflexivity. Qed.

(** One record fetched: one row, USD selectable, 1000 TWD converted. *)
Example exchange_scenario :
  Exchange.rows showing_usd = [("USD", "30.1", "30.5")]
  /\ Exchange.combo_values showing_usd = ["USD"]
  /\ Exchange.result_label
       (Exchange._calculate_conversion float_of "2025-12-20 09:05:00" showing_usd)
     = Exchange.Converted 1000%float "USD" 30.1%float "33.22" 30.5%float "32.79"
                          "2025-12-20 09:05:00".
Proof. vm_compute. repeat split. Qed.

(** The same record in the web dashboard. *)
Example dashboard_scenario :
  let rates_df := Dashboard.clean_rate_data float_of [usd] in
  Dashboard.currencies rates_df = ["USD"]
  /\ Dashboard.sell_rate_of "USD" rates_df = Some (Some 30.5%float)
  /\ Dashboard.converted_amount 1000%float (Some 30.5%float) = Some "32.79".
Proof. vm_compute. repeat split. Qed.

(** A request that is no amount, and a rate of zero. *)
Example calculator_errors :
  Exchange.effects
    (Exchange._calculate_conversion float_of "2025-12-20 09:05:00"
       (Exchange.set_twd_entry "abc" showing_usd))
  = [ShowError "錯誤" "請輸入有效的金額（數字）"]
  /\ Exchange.effects
       (Exchange._calculate_conversion (fun _ => Some 0%float)
          "2025-12-20 09:05:00" (Exchange.set_twd_entry "0" showing_usd))
     = [ShowWarning "警告" "金額必須大於 0"].
Proof. vm_compute. split; reflexivity. Qed.

(** A game: too high, out of range, too low, hit; then the player stops. *)
Example game_scenario :
  Guess.main (fun _ => 37)
    [Guess.Line "50" (Some 50); Guess.Line "80" (Some 80);
     Guess.Line "20" (Some 20); Guess.Line "37" (Some 37);
     Guess.Line "n" None]
  = Guess.ExitNormally
      [Guess.PrintTarget 37; Guess.PrintBanner;
       Guess.Prompt 1 100; Guess.PrintSmaller; Guess.PrintCount 1;
       Guess.Prompt 1 49; Guess.PrintOutOfRange;
       Guess.Prompt 1 49; Guess.PrintBigger; Guess.PrintCount 3;
       Guess.Prompt 21 49; Guess.PrintHit; Guess.PrintCount 4;
       Guess.PromptAgain; Guess.PrintGameOver].
Proof. reflexivity. Qed.

End Runs.

(** ** The claims *)

Section Claims.
Import Examples.

Lemma first_update_reachable : Stock.reachable first_update.
Proof.
  exists "2025-12-20 09:00:00". eapply rtc_l; [apply (Stock.step_add (Some "2330"))|].
  apply rtc_once. by apply Stock.step_manual_update.
Qed.

Lemma results_put_reachable : Stock.reachable results_put.
Proof.
  destruct first_update_reachable as [now Hr]. exists now.
  eapply rtc_r; [exact Hr|].
  apply (Stock.step_fetched [tsmc_job] ["2330"] [] [] first_update); [reflexivity|].
  split; [reflexivity|]. repeat constructor. by exists "2025-12-20", "09:00:30".
Qed.

Lemma second_update_reachable : Stock.reachable second_update.
Proof.
  destruct results_put_reachable as [now Hr]. exists now.
  eapply rtc_r; [eapply rtc_r; [exact Hr|]|].
  - by apply (Stock.step_timer "2025-12-20 09:00:31" 0%nat 100 Stock.CheckQueue [] [] results_put).
  - by apply Stock.step_manual_update.
Qed.

Lemma third_update_reachable : Stock.reachable third_update.
Proof.
  destruct second_update_reachable as [now Hr]. exists now.
  eapply rtc_r; [eapply rtc_r; [eapply rtc_r; [exact Hr|]|]|].
  - by apply (Stock.step_closed (Some "close failed") [] [Stock.Fetching ["2330"]]
                second_update).
  - by apply (Stock.step_timer "2025-12-20 09:00:32" 1%nat 100 Stock.CheckQueue [] [] close_raised).
  - by apply Stock.step_manual_update.
Qed.

Lemma two_messages_reachable : Stock.reachable two_messages.
Proof.
  destruct results_put_reachable as [now Hr]. exists now.
  eapply rtc_r; [exact Hr|].
  by apply (Stock.step_closed (Some "close failed") [] [] results_put).
Qed.

(** C1, at the input where it fails.  In the stock window the worker puts
    its results before it closes its loop, inside the same [try]: when
    [loop.close()] raises, the error it puts arrives after the results
    have been shown and a second update has been started.  Handling that
    stale error clears the busy flag and enables the button while the
    second fetch is in flight, and the next refresh request is accepted:
    two fetches are in flight. *)
Theorem stale_error_admits_second_fetch :
  Stock.in_flight second_update = 1%nat
  /\ Stock.result_queue close_raised = [Stock.Error "close failed"]
  /\ Stock.in_flight stale_error_handled = 1%nat
  /\ Stock.is_updating stale_error_handled = false
  /\ Stock.update_btn stale_error_handled = true
  /\ Stock.reachable third_update
  /\ Stock.threads third_update
     = [Stock.Fetching ["2330"]; Stock.Fetching ["2330"]]
  /\ Stock.in_flight third_update = 2%nat.
Proof.
  split; [vm_compute; reflexivity|]. split; [vm_compute; reflexivity|].
  split; [vm_compute; reflexivity|]. split; [vm_compute; reflexivity|].
  split; [vm_compute; reflexivity|]. split; [exact third_update_reachable|].
  split; vm_compute; reflexivity.
Qed.

Lemma after_raised_fetch_reachable : Exchange.reachable after_raised_fetch.
Proof.
  unfold Exchange.reachable.
  eapply rtc_l; [apply (Exchange.step_fetched (Exchange.FetchRaised "timeout"));
                 simpl; lia|].
  eapply rtc_l; [apply Exchange.step_finally; simpl; lia|].
  apply rtc_once.
  by apply (Exchange.step_callback "2025-12-20 09:00:05" 0 Exchange.ShowErrorOf [] []).
Qed.

(** C3, at the input where it fails.  In the exchange-rate window a fetch
    that raises is answered by the callback of the [except] clause, which
    reads [e] after the clause has ended: it raises [NameError] before
    [_show_error] is entered.  With nothing cached the table stays
    empty, no error box is shown and the status line keeps saying that
    the data is loading. *)
Theorem raised_fetch_shows_no_error :
  Exchange.reachable after_raised_fetch
  /\ Exchange.exchange_data after_raised_fetch = None
  /\ Exchange.rows after_raised_fetch = []
  /\ Exchange.effects after_raised_fetch = [Traceback "NameError"]
  /\ Exchange.status_label after_raised_fetch = "⏳ 載入中..."
  /\ Exchange.time_label after_raised_fetch = "最後更新: -".
Proof.
  split; [exact after_raised_fetch_reachable|]. vm_compute. repeat split.
Qed.

(** C4.  One call of [check_queue] takes every message waiting in the
    queue, oldest first, and handles each exactly once before it
    schedules the next poll and returns: the window is the one obtained by
    handling the messages in queue order, the queue is left empty, and
    the user sees one notice per message in that order.  Messages put
    since the last poll wait behind the ones already there.  The records
    are those the fetcher delivers, stamped by [strftime]: every state the
    window reaches holds no others ([reachable_stamped]). *)
Theorem check_queue_drains_fifo now (a : Stock.app) (arrived : list Stock.message) :
  Stock.stamped a ->
  Forall Stock.displayable arrived ->
  let a1 := fold_left (fun a m => Stock.put m a) arrived a in
  let pending := Stock.result_queue a ++ arrived in
  exists a',
    Stock.check_queue now a1 = (a', Stock.Normal)
    /\ Stock.result_queue a1 = pending
    /\ a' = (Stock.root_after 100 Stock.CheckQueue
               (Stock.set_result_queue []
                  (fold_left (fun a m => (Stock.handle now m a).1) pending a1))).2
    /\ Stock.result_queue a' = []
    /\ Stock.effects a'
       = Stock.effects a ++ map (Stock.notice (Stock.watchlist a)) pending
    /\ Stock.after a' = Stock.after a ++ [(Stock.next_timer a, 100, Stock.CheckQueue)].
Proof.
  intros [Hcache Hqueue] Harrived. cbv zeta.
  rewrite (put_all_frame arrived a).
  set (a1 := Stock.set_result_queue (Stock.result_queue a ++ arrived) a).
  assert (Hq : Stock.result_queue a1 = Stock.result_queue a ++ arrived)
    by (by destruct a).
  assert (Hs : Stock.stamped a1).
  { split; [by destruct a|]. rewrite Hq. by apply Forall_app. }
  eexists. split; [apply (check_queue_stamped now a1 Hs)|].
  split; [exact Hq|]. rewrite Hq.
  rewrite (fold_handle_stamped now _ a1 (proj1 Hs)) by (by apply Forall_app).
  split; [reflexivity|].
  destruct (fold_handled_frame now (Stock.result_queue a ++ arrived) a1)
    as (Hw & Ha & Hn & _ & _ & _ & _ & _ & He).
  destruct (fold_left _ _ a1); simpl in *.
  rewrite He, Ha, Hn. subst a1. destruct a; simpl. repeat split.
Qed.

Lemma check_queue_drains_fifo_witness :
  Stock.stamped results_put
  /\ exists a',
       Stock.check_queue "2025-12-20 09:00:31" (Stock.put (Stock.Error "close failed") results_put)
       = (a', Stock.Normal)
       /\ Stock.result_queue a' = []
       /\ Stock.effects a'
          = Stock.effects results_put
            ++ [Print "✓ 成功更新 1/1 支股票";
                ShowError "錯誤" ("更新股票資料時發生錯誤:" +:+ Py.bytes [10%N]
                                  +:+ "close failed")].
Proof.
  assert (Hs : Stock.stamped results_put)
    by exact (reachable_stamped _ results_put_reachable).
  split; [exact Hs|].
  destruct (check_queue_drains_fifo "2025-12-20 09:00:31" results_put
              [Stock.Error "close failed"] Hs)
    as (a' & Hcheck & _ & _ & Hempty & Heffects & _).
  { by repeat constructor. }
  exists a'. split; [exact Hcheck|]. split; [exact Hempty|].
  rewrite Heffects. reflexivity.
Defined.

(** Against C5 as stated.  In the stock window the cards follow the sorted
    watch list, not the order of the results: 2330 is delivered first and
    shown second. *)
Lemma stock_cards_not_in_supplied_order :
  Stock.on_update_complete "2025-12-20 09:01:00" [tsmc; cement] watching_two
  = (Stock.handled "2025-12-20 09:01:00" watching_two (Stock.Success [tsmc; cement]),
     Stock.Normal)
  /\ Stock.stocks_container
       (Stock.on_update_complete "2025-12-20 09:01:00" [tsmc; cement] watching_two).1
     = [Stock.StockCard "1101" cement; Stock.StockCard "2330" tsmc].
Proof. split; vm_compute; reflexivity. Qed.

(** C5, amended.  In the exchange-rate window a non-empty success outcome
    replaces the table by exactly one row per record, in the order
    supplied, caches the list and stamps the time.  In the stock window a
    success outcome whose records are those the fetcher delivers stores
    each record in the cache under its stock code (the last record for a
    code wins, codes not delivered keep what was cached), rebuilds the
    container with one card per watched stock in ascending code order,
    each showing what the cache holds for it, and stamps the time. *)
Theorem success_replaces_display :
  (forall now data a,
     data <> [] ->
     let a' := Exchange._update_ui_with_data now (Some data) a in
     Exchange.rows a' = map Exchange.row_of data
     /\ Exchange.exchange_data a' = Some data
     /\ Exchange.last_update a' = Some now
     /\ Exchange.time_label a' = "最後更新: " +:+ now)
  /\ (forall now results a,
        map_Forall (fun _ stock_data => Stock.well_stamped stock_data)
                   (Stock.stock_data_cache a) ->
        Forall Stock.well_stamped results ->
        exists a',
          Stock.on_update_complete now results a = (a', Stock.Normal)
          /\ Stock.stocks_container a'
             = Stock.cards (Stock.watchlist a) (Stock.stock_data_cache a')
          /\ (forall stock_code,
                Py.truthy stock_code = true ->
                Stock.stock_data_cache a' !! stock_code
                = match last (List.filter (Stock.reports stock_code) results) with
                  | Some stock_data => Some stock_data
                  | None => Stock.stock_data_cache a !! stock_code
                  end)
          /\ Stock.last_update_label a' = "最後更新: " +:+ now
          /\ Stock.is_updating a' = false)
  /\ (forall watching cache,
        watching <> ∅ ->
        map_Forall (fun _ stock_data => Stock.well_stamped stock_data) cache ->
        exists codes,
          Stock.cards watching cache = map (Stock.card_of cache) codes
          /\ Forall (fun c => Stock.unfinished c = false) (Stock.cards watching cache)
          /\ Sorted Stock.ascending codes
          /\ Permutation codes (elements watching)).
Proof.
  split; [|split].
  - intros now data a Hne. cbv zeta.
    destruct (update_ui_success now data a Hne) as (t & n & -> & Hrows).
    unfold Exchange.rows. simpl. auto.
  - intros now results a Hcache Hresults.
    destruct (handle_stamped now (Stock.Success results) a Hcache Hresults) as [Hh _].
    eexists. split; [exact Hh|]. simpl.
    split; [reflexivity|]. split; [|by split].
    intros stock_code Hc. by apply cache_results_lookup.
  - intros watching cache Hw Hcache. exists (Stock.sorted (elements watching)).
    unfold Stock.cards. rewrite bool_decide_false by assumption.
    destruct (cards_of_stamped cache (Stock.sorted (elements watching)) Hcache)
      as [Heq _].
    split; [exact Heq|]. split; [|split; [apply sorted_Sorted | apply sorted_perm]].
    rewrite Heq. apply Forall_forall. intros c Hc.
    apply list_elem_of_fmap in Hc as (code & -> & _). by apply card_of_finished.
Qed.

Lemma success_replaces_display_witness :
  Exchange.rows showing_usd = [("USD", "30.1", "30.5")]
  /\ Exchange.rows
       (Exchange._update_ui_with_data "2025-12-20 09:10:00" (Some [jpy; usd]) showing_usd)
     = [("JPY", "0.2105", "0.2145"); ("USD", "30.1", "30.5")]
  /\ Exchange.last_update
       (Exchange._update_ui_with_data "2025-12-20 09:10:00" (Some [jpy; usd]) showing_usd)
     = Some "2025-12-20 09:10:00"
  /\ exists a',
       Stock.on_update_complete "2025-12-20 09:01:00" [tsmc; cement] watching_two
       = (a', Stock.Normal)
       /\ Stock.stocks_container a'
          = Stock.cards (Stock.watchlist watching_two) (Stock.stock_data_cache a')
       /\ Stock.last_update_label a' = "最後更新: 2025-12-20 09:01:00".
Proof.
  assert (Hne : [jpy; usd] <> []) by discriminate.
  destruct success_replaces_display as (Hexchange & Hstock & _).
  destruct (Hexchange "2025-12-20 09:10:00" [jpy; usd] showing_usd Hne)
    as (Hrows & _ & Hstamp & _).
  split; [vm_compute; reflexivity|].
  split; [rewrite Hrows; vm_compute; reflexivity|].
  split; [exact Hstamp|].
  destruct (Hstock "2025-12-20 09:01:00" [tsmc; cement] watching_two)
    as (a' & Hdone & Hcards & _ & Hlabel & _).
  - apply map_Forall_empty.
  - repeat constructor; discriminate.
  - exists a'. auto.
Defined.

Lemma step_locked a a' :
  Exchange.step a a' ->
  Exchange.update_btn a = false /\ Exchange.fetching a = 0%nat
  /\ Exchange.status_label a = "⏳ 載入中..."
  /\ Forall (fun x => x.2 = Exchange.ShowErrorOf) (Exchange.after a) ->
  Exchange.update_btn a' = false /\ Exchange.fetching a' = 0%nat
  /\ Exchange.status_label a' = "⏳ 載入中..."
  /\ Forall (fun x => x.2 = Exchange.ShowErrorOf) (Exchange.after a').
Proof.
  intros Hstep (Hbtn & Hfetching & Hstatus & Hafter). destruct Hstep as
    [a Hon | text a | code a Hcode | float_of now a | r a Hpos | a Hpos
     | now ms cb l1 l2 a Hpending].
  - congruence.
  - by destruct a.
  - by destruct a.
  - destruct (calculate_frame float_of now a) as [[e ->] | [r ->]]; by destruct a.
  - lia.
  - by destruct a.
  - rewrite Hpending in Hafter. apply Forall_app in Hafter as [Hl1 Hl2].
    apply Forall_cons in Hl2 as [Hcb Hl2]. simpl in Hcb. subst cb.
    destruct a; simpl in *. repeat split; try assumption. by apply Forall_app.
Qed.

(** C6, at the input where it fails.  In the exchange-rate window the
    busy flag is cleared by the [finally] block on every path, but the
    update button, disabled when the fetch starts, is enabled again only
    by [_hide_loading], which the callbacks call: after a fetch that
    raised, the callback raises [NameError] before it gets there.  From
    then on, whatever happens, the button stays disabled and the status
    line keeps saying that the data is loading: no refresh request can be
    made, and no fetch is started again. *)
Theorem raised_fetch_locks_refresh e a :
  rtc Exchange.step (Exchange.run_async_try (Exchange.FetchRaised e) Exchange.opened) a ->
  Exchange.update_btn a = false
  /\ Exchange.fetching a = 0%nat
  /\ Exchange.status_label a = "⏳ 載入中...".
Proof.
  intros Hr.
  assert (Hlocked : Exchange.update_btn a = false /\ Exchange.fetching a = 0%nat
                    /\ Exchange.status_label a = "⏳ 載入中..."
                    /\ Forall (fun x => x.2 = Exchange.ShowErrorOf) (Exchange.after a)).
  { revert a Hr. apply rtc_ind_r.
    - simpl. repeat split. by repeat constructor.
    - intros a a' _ Hstep IH. by apply (step_locked a a'). }
  tauto.
Qed.

Lemma raised_fetch_locks_refresh_witness :
  Exchange.is_loading after_raised_fetch = false
  /\ Exchange.update_btn after_raised_fetch = false
  /\ Exchange.fetching after_raised_fetch = 0%nat
  /\ Exchange.status_label after_raised_fetch = "⏳ 載入中...".
Proof.
  split; [reflexivity|].
  apply (raised_fetch_locks_refresh "timeout" after_raised_fetch).
  eapply rtc_l; [apply Exchange.step_finally; simpl; lia|].
  apply rtc_once.
  by apply (Exchange.step_callback "2025-12-20 09:00:05" 0 Exchange.ShowErrorOf [] []).
Defined.

Lemma truthy_nonempty s : Py.truthy s = true <-> s <> "".
Proof.
  unfold Py.truthy. rewrite negb_true_iff. apply String.eqb_neq.
Qed.

(** Against C8 as stated.  The rule is not "both rates present and
    non-empty": the desktop window leaves out a currency whose buy field
    holds white space only, and the selector of the web dashboard lists a
    currency that has a buy rate and no sell rate. *)
Lemma dropdown_rule_is_not_both_rates :
  usd_blank_buy !! Exchange.buy_key = Some " "
  /\ usd_blank_buy !! Exchange.sell_key = Some "30.5"
  /\ Exchange.combo_values
       (Exchange._update_ui_with_data "2025-12-20 09:00:00" (Some [usd_blank_buy])
                                      Exchange.created) = []
  /\ Dashboard.clean_rate_data float_of [usd_no_sell]
     = [Dashboard.RateRow "USD" "30.1" "暫停交易" (Some 30.1%float) None]
  /\ Dashboard.currencies (Dashboard.clean_rate_data float_of [usd_no_sell]) = ["USD"].
Proof. vm_compute. repeat split. Qed.

(** C8, amended.  After a success outcome the dropdown of the desktop
    window lists, in record order, the stripped currency code of exactly
    the records whose currency code, buy rate and sell rate are all
    non-empty once surrounding white space is stripped (a missing field
    counts as empty), and selects the first of them; the selector of the
    web dashboard lists the currencies of exactly the rows that have a
    buy value. *)
Theorem dropdown_lists_tradable :
  (forall now data a,
     data <> [] ->
     let a' := Exchange._update_ui_with_data now (Some data) a in
     Exchange.combo_values a'
     = map (fun rate => Py.strip (get rate Exchange.currency_key ""))
           (List.filter Exchange.tradable data)
     /\ Exchange.combo_text a'
        = List.hd (Exchange.combo_text a) (Exchange.combo_values a')
     /\ (forall code,
           code ∈ Exchange.combo_values a' <->
           exists rate, rate ∈ data /\ Exchange.tradable rate = true
                        /\ code = Py.strip (get rate Exchange.currency_key "")))
  /\ (forall rate,
        Exchange.tradable rate = true <->
        Py.strip (get rate Exchange.currency_key "") <> ""
        /\ Py.strip (get rate Exchange.buy_key "") <> ""
        /\ Py.strip (get rate Exchange.sell_key "") <> "")
  /\ (forall rates_df code,
        code ∈ Dashboard.currencies rates_df <->
        exists r, r ∈ rates_df /\ Dashboard.currency r = code
                  /\ Dashboard.notna (Dashboard.buy_value r) = true).
Proof.
  split; [|split].
  - intros now data a Hne. cbv zeta.
    destruct (update_ui_success now data a Hne) as (t & n & -> & _). simpl.
    split; [reflexivity|]. split; [reflexivity|].
    intros code. unfold Exchange.available. rewrite list_elem_of_fmap. split.
    + intros (rate & -> & Hin). apply list_elem_of_In, filter_In in Hin as [Hin Ht].
      exists rate. split; [by apply list_elem_of_In | auto].
    + intros (rate & Hin & Ht & ->). exists rate. split; [reflexivity|].
      apply list_elem_of_In, filter_In. split; [by apply list_elem_of_In | exact Ht].
  - intros rate. unfold Exchange.tradable.
    rewrite !andb_true_iff, !truthy_nonempty. tauto.
  - intros rates_df code. unfold Dashboard.currencies.
    rewrite list_elem_of_fmap. split.
    + intros (r & -> & Hin). apply list_elem_of_filter in Hin as [Hn Hin].
      exists r. split; [exact Hin|]. split; [reflexivity | by apply Is_true_true].
    + intros (r & Hin & <- & Hn). exists r. split; [reflexivity|].
      apply list_elem_of_filter. split; [by apply Is_true_true | exact Hin].
Qed.

Lemma dropdown_lists_tradable_witness :
  [usd] <> []
  /\ Exchange.combo_values showing_usd = ["USD"]
  /\ Exchange.combo_text showing_usd = "USD".
Proof.
  assert (Hne : [usd] <> []) by discriminate.
  destruct dropdown_lists_tradable as (Hcombo & _).
  destruct (Hcombo "2025-12-20 09:00:00" [usd] Exchange.created Hne)
    as (Hvalues & Htext & _).
  split; [exact Hne|]. unfold showing_usd. rewrite Htext, Hvalues.
  vm_compute. split; reflexivity.
Defined.

(** C9.  Both calculators divide the TWD amount by the rate and show the
    quotient with two decimals: the digits are those of the number of
    hundredths nearest to the exact value of the quotient (a binary64
    float [m * 2^e]), ties going to the even one.  1000 at the sell rate
    30.5 is shown as 32.79. *)
Theorem conversion_two_decimals :
  (forall twd_amount sell_rate,
     Py.nonzero sell_rate = true ->
     Dashboard.converted_amount twd_amount (Some sell_rate)
     = Some (Py.format_2f (twd_amount / sell_rate)%float))
  /\ (forall float_of now a twd_amount rate_data buy_text sell_text buy_rate sell_rate,
        Py.truthy (Py.strip (Exchange.twd_entry a)) = true ->
        float_of (Py.strip (Exchange.twd_entry a)) = Some twd_amount ->
        PrimFloat.leb twd_amount 0%float = false ->
        Py.truthy (Exchange.combo_text a) = true ->
        Exchange._find_rate_by_currency (Exchange.combo_text a) a = Some rate_data ->
        rate_data !! Exchange.buy_key = Some buy_text ->
        float_of buy_text = Some buy_rate ->
        rate_data !! Exchange.sell_key = Some sell_text ->
        float_of sell_text = Some sell_rate ->
        Py.nonzero buy_rate = true ->
        Py.nonzero sell_rate = true ->
        Exchange._calculate_conversion float_of now a
        = Exchange.set_result_label
            (Exchange.Converted twd_amount (Exchange.combo_text a)
               buy_rate (Py.format_2f (twd_amount / buy_rate)%float)
               sell_rate (Py.format_2f (twd_amount / sell_rate)%float) now) a)
  /\ (forall x negative m e,
        Prim2SF x = S754_finite negative m e ->
        Py.format_2f x = Py.minus negative +:+ Py.two_decimals (Py.hundredths m e)
        /\ let '(n, d) := Py.hundredths_fraction m e in
           0 <= n /\ 0 < d /\ 2 * Z.abs (n - Py.hundredths m e * d) <= d)
  /\ Dashboard.converted_amount 1000%float (Some 30.5%float) = Some "32.79".
Proof.
  split; [|split; [|split]].
  - intros twd_amount sell_rate Hnz. unfold Dashboard.converted_amount. by rewrite Hnz.
  - intros float_of now a twd_amount rate_data buy_text sell_text buy_rate sell_rate
           Hentry Htwd Hpos Hsel Hfind Hbuy Hbuyf Hsell Hsellf Hbnz Hsnz.
    unfold Exchange._calculate_conversion.
    rewrite Hentry, Htwd, Hpos, Hsel, Hfind. simpl negb. cbv iota.
    rewrite bool_decide_false.
    2:{ intros ->. by rewrite lookup_empty in Hbuy. }
    unfold Exchange.rate_of. rewrite Hbuy, Hbuyf, Hsell, Hsellf.
    unfold Exchange.divide, Py.truediv.
    unfold Py.nonzero in Hbnz, Hsnz. apply negb_true_iff in Hbnz, Hsnz.
    by rewrite Hbnz, Hsnz.
  - intros x negative m e Hx. split.
    + unfold Py.format_2f. by rewrite Hx.
    + apply hundredths_nearest.
  - vm_compute. reflexivity.
Qed.

Lemma conversion_two_decimals_witness :
  Py.nonzero 30.5%float = true
  /\ Dashboard.converted_amount 1000%float (Some 30.5%float) = Some "32.79"
  /\ Exchange.result_label
       (Exchange._calculate_conversion float_of "2025-12-20 09:05:00" showing_usd)
     = Exchange.Converted 1000%float "USD" 30.1%float "33.22" 30.5%float "32.79"
                          "2025-12-20 09:05:00".
Proof.
  destruct conversion_two_decimals as (Hweb & Hdesk & _).
  assert (Hnz : Py.nonzero 30.5%float = true) by (vm_compute; reflexivity).
  split; [exact Hnz|]. split.
  - rewrite (Hweb 1000%float 30.5%float Hnz). vm_compute. reflexivity.
  - rewrite (Hdesk float_of "2025-12-20 09:05:00" showing_usd
                   1000%float usd "30.1" "30.5" 30.1%float 30.5%float);
      vm_compute; reflexivity.
Defined.

End Claims.

(* ===================================================================== *)
(** * Further properties                                                 *)
(* ===================================================================== *)

(** ** The guessing game *)

Section GuessMore.
Import Guess.

Lemma hints_snoc printed o :
  hints (printed ++ [o]) = hints printed + (if is_hint o then 1 else 0).
Proof.
  unfold hints. rewrite List.filter_app, length_app. simpl.
  destruct (is_hint o); simpl; lia.
Qed.

(** What one pass of the loop does to the width of the range and to the
    number of hints. *)
Lemma guess_measure g keyin :
  in_bounds g ->
  let g' := (guess (prompt g) keyin).1 in
  hints (out g') + (max g' - min g') <= hints (out g) + (max g - min g).
Proof.
  unfold in_bounds, guess, prompt. intros Hb. simpl.
  destruct (Z.leb_spec (min g) keyin), (Z.leb_spec keyin (max g)),
    (Z.eqb_spec (target g) keyin), (Z.gtb_spec keyin (target g)),
    (Z.ltb_spec keyin (target g));
    simpl; rewrite !hints_snoc; simpl; lia.
Qed.

Lemma loop_measure t g :
  1 <= t <= 100 -> rtc iteration (start t) g ->
  in_bounds g /\ hints (out g) + (max g - min g) <= 99.
Proof.
  intros Ht Hr. revert g Hr. apply rtc_ind_r.
  - unfold in_bounds. simpl. split; [lia|]. vm_compute. discriminate.
  - intros g g' _ Hit [Hb Hm].
    destruct (iteration_in_bounds _ _ Hit Hb) as [Hb' _]. split; [exact Hb'|].
    destruct Hit as [keyin Hk].
    pose proof (guess_measure g keyin Hb) as Hstep. rewrite Hk in Hstep.
    simpl in Hstep. lia.
Qed.

(** X1.  However the player answers, a game gives at most 99 hints: the
    hints given so far and the width of the prompted range never add up
    to more than 99. *)
Theorem guess_hints_bounded (t : Z) (g : game) :
  1 <= t <= 100 ->
  rtc iteration (start t) g ->
  hints (out g) + (max g - min g) <= 99
  /\ 0 <= max g - min g
  /\ hints (out g) <= 99.
Proof.
  intros Ht Hr. destruct (loop_measure t g Ht Hr) as [Hb Hm].
  unfold in_bounds in Hb. repeat split; lia.
Qed.

Lemma guess_hints_bounded_witness :
  1 <= 37 <= 100
  /\ rtc iteration (start 37) (guess (prompt (start 37)) 50).1
  /\ hints (out (guess (prompt (start 37)) 50).1) <= 99.
Proof.
  assert (H1 : 1 <= 37 <= 100) by lia.
  assert (H2 : rtc iteration (start 37) (guess (prompt (start 37)) 50).1).
  { apply rtc_once. exists 50. reflexivity. }
  split; [exact H1|]. split; [exact H2|].
  exact (proj2 (proj2 (guess_hints_bounded 37 _ H1 H2))).
Defined.

Lemma guess_counts g keyin : count (guess (prompt g) keyin).1 = count g + 1.
Proof. unfold guess, prompt. repeat case_match; reflexivity. Qed.

Lemma guess_break g keyin g' :
  guess (prompt g) keyin = (g', Break) ->
  keyin = target g
  /\ out g' = out g ++ [Prompt (min g) (max g); PrintHit; PrintCount (count g + 1)].
Proof.
  unfold guess, prompt. simpl.
  destruct ((min g <=? keyin) && (keyin <=? max g)); [|discriminate].
  destruct (Z.eqb_spec (target g) keyin) as [Heq|Hne].
  - intros Hg. injection Hg as <-. simpl. split; [congruence|].
    by rewrite <- !app_assoc.
  - repeat case_match; discriminate.
Qed.

(** X2.  When a game returns, the lines it read end with the target, every
    line read was an integer and was counted (out-of-range guesses
    included), and the last two lines printed are the hit and that
    count. *)
Theorem play_game_returns_on_hit g stdin g' rest :
  while_true g stdin = Returned g' rest ->
  exists used last_line,
    stdin = used ++ last_line :: rest
    /\ as_int last_line = Some (target g)
    /\ Forall (fun l => exists z, as_int l = Some z) used
    /\ count g' = count g + Z.of_nat (length used) + 1
    /\ exists printed, out g' = printed ++ [PrintHit; PrintCount (count g')].
Proof.
  revert g. induction stdin as [|l stdin IH]; intros g; simpl; [discriminate|].
  destruct (as_int l) as [keyin|] eqn:Hl; [|discriminate].
  destruct (guess (prompt g) keyin) as [g1 [|]] eqn:Hg.
  - intros H. destruct (IH g1 H) as (used & last_line & -> & Hlast & Hall & Hc & p & Hp).
    pose proof (guess_keeps_target (prompt g) keyin) as Ht. rewrite Hg in Ht.
    pose proof (guess_counts g keyin) as Hc1. rewrite Hg in Hc1. simpl in Ht, Hc1.
    exists (l :: used), last_line. split; [reflexivity|].
    split; [congruence|]. split; [constructor; eauto|].
    split; [simpl length; lia | eauto].
  - intros H. injection H as <- <-.
    destruct (guess_break g keyin g1 Hg) as [-> Hout].
    pose proof (guess_counts g (target g)) as Hc1. rewrite Hg in Hc1. simpl in Hc1.
    exists [], l. split; [reflexivity|]. split; [exact Hl|]. split; [constructor|].
    split; [simpl; lia|].
    exists (out g ++ [Prompt (min g) (max g)]).
    rewrite Hout, Hc1, <- app_assoc. reflexivity.
Qed.

Lemma play_game_returns_on_hit_witness :
  exists g',
    play_game 37 [Line "50" (Some 50); Line "37" (Some 37); Line "n" None]
    = Returned g' [Line "n" None]
    /\ count g' = 2.
Proof.
  eexists. split; [reflexivity|].
  destruct (play_game_returns_on_hit (start 37)
              [Line "50" (Some 50); Line "37" (Some 37); Line "n" None]
              _ [Line "n" None] eq_refl)
    as (used & last_line & Hsplit & _ & _ & Hcount & _).
  assert (Hlen : length used = 1%nat).
  { apply (f_equal (@length line)) in Hsplit.
    rewrite length_app in Hsplit. simpl in Hsplit. lia. }
  rewrite Hcount, Hlen. reflexivity.
Defined.

Lemma while_true_suffix g stdin g' rest :
  while_true g stdin = Returned g' rest ->
  exists used, stdin = used ++ rest /\ (0 < length used)%nat.
Proof.
  revert g. induction stdin as [|l stdin IH]; intros g; simpl; [discriminate|].
  destruct (as_int l) as [keyin|]; [|discriminate].
  destruct (guess (prompt g) keyin) as [g1 [|]].
  - intros H. destruct (IH g1 H) as (used & -> & _).
    exists (l :: used). split; [reflexivity | simpl; lia].
  - intros H. injection H as <- <-. exists [l]. split; [reflexivity | simpl; lia].
Qed.

Lemma main_loop_exit rounds k draw printed stdin shown :
  main_loop rounds k draw printed stdin = ExitNormally shown ->
  exists used answer rest,
    stdin = used ++ answer :: rest
    /\ text answer = "n"
    /\ (0 < length used)%nat
    /\ last shown = Some PrintGameOver.
Proof.
  revert k printed stdin.
  induction rounds as [|rounds IH]; intros k printed stdin; simpl; [discriminate|].
  destruct (play_game (draw k) stdin) as [g rest|e g] eqn:Hplay; [|discriminate].
  apply while_true_suffix in Hplay as (used & -> & Hused).
  destruct rest as [|answer rest]; [discriminate|].
  destruct (String.eqb (text answer) "n") eqn:Hn.
  - intros H. injection H as <-. apply String.eqb_eq in Hn.
    exists used, answer, rest. split; [reflexivity|]. split; [exact Hn|].
    split; [exact Hused | apply last_snoc].
  - intros H. apply IH in H as (used' & answer' & rest' & -> & Hn' & _ & Hlast).
    exists (used ++ answer :: used'), answer', rest'.
    split; [by rewrite <- app_assoc|]. split; [exact Hn'|].
    split; [rewrite length_app; lia | exact Hlast].
Qed.

(** X3.  The program ends normally only on the answer n: some game
    was played to its end, the line read after it was exactly n, and the
    last line printed is 遊戲結束. *)
Theorem main_ends_on_n draw stdin shown :
  main draw stdin = ExitNormally shown ->
  exists used answer rest,
    stdin = used ++ answer :: rest
    /\ text answer = "n"
    /\ (0 < length used)%nat
    /\ last shown = Some PrintGameOver.
Proof. apply main_loop_exit. Qed.

Lemma main_ends_on_n_witness :
  exists used answer rest,
    [Line "50" (Some 50); Line "37" (Some 37); Line "n" None]
    = used ++ answer :: rest
    /\ text answer = "n"
    /\ (0 < length used)%nat
    /\ last [PrintTarget 37; PrintBanner; Prompt 1 100; PrintSmaller; PrintCount 1;
             Prompt 1 49; PrintHit; PrintCount 2; PromptAgain; PrintGameOver]
       = Some PrintGameOver.
Proof.
  apply (main_ends_on_n (fun _ => 37)
           [Line "50" (Some 50); Line "37" (Some 37); Line "n" None]).
  reflexivity.
Defined.

End GuessMore.

(** ** Strings *)

Section StringMore.

Lemma append_cons a s1 s2 : String a s1 +:+ s2 = String a (s1 +:+ s2).
Proof. reflexivity. Qed.

Lemma append_nil_r s : s +:+ "" = s.
Proof. induction s as [|a s IH]; [reflexivity|]. by rewrite append_cons, IH. Qed.

Lemma append_assoc s1 s2 s3 : (s1 +:+ s2) +:+ s3 = s1 +:+ (s2 +:+ s3).
Proof.
  induction s1 as [|a s1 IH]; [reflexivity|]. by rewrite !append_cons, IH.
Qed.

Lemma rev_app_append s1 s2 : String.rev_app s1 s2 = String.rev s1 +:+ s2.
Proof.
  unfold String.rev. revert s2. induction s1 as [|a s1 IH]; intros s2; [reflexivity|].
  simpl. rewrite (IH (String a s2)), (IH (String a "")).
  by rewrite append_assoc.
Qed.

Lemma rev_cons a s : String.rev (String a s) = String.rev s +:+ String a "".
Proof. unfold String.rev at 1. simpl. apply rev_app_append. Qed.

Lemma rev_append s1 s2 : String.rev (s1 +:+ s2) = String.rev s2 +:+ String.rev s1.
Proof.
  induction s1 as [|a s1 IH].
  - by rewrite append_nil_r.
  - by rewrite append_cons, !rev_cons, IH, append_assoc.
Qed.

Lemma rev_involutive s : String.rev (String.rev s) = s.
Proof.
  induction s as [|a s IH]; [reflexivity|].
  by rewrite rev_cons, rev_append, IH.
Qed.

Lemma prefix_append w p u :
  String.prefix w p = true -> String.prefix w (p +:+ u) = true.
Proof.
  revert p. induction w as [|a w IH]; intros p.
  - intros _. by destruct (p +:+ u).
  - destruct p as [|b p]; simpl; [discriminate|].
    destruct (ascii_dec a b); [apply IH | discriminate].
Qed.

Lemma token_width_clean ws s : Py.starts_clean ws s -> Py.token_width ws s = O.
Proof.
  unfold Py.token_width. intros H.
  assert (Hnil : filter (fun w => Is_true (String.prefix w s)) ws = []).
  { induction H as [|w ws Hw Hws IH]; [reflexivity|].
    rewrite filter_cons_False; [exact IH|].
    intros Ht. by rewrite Hw in Ht. }
  by rewrite Hnil.
Qed.

Lemma token_width_zero ws s :
  Forall (fun w => w <> "") ws -> Py.token_width ws s = O -> Py.starts_clean ws s.
Proof.
  unfold Py.token_width, Py.starts_clean. intros Hne.
  induction Hne as [|w ws Hw Hws IH]; [constructor|].
  destruct (String.prefix w s) eqn:Hp.
  - rewrite filter_cons_True by (by rewrite Hp).
    destruct w; [contradiction | discriminate].
  - rewrite filter_cons_False by (intros Ht; by rewrite Hp in Ht).
    intros H. constructor; auto.
Qed.

Lemma starts_clean_nil ws : Forall (fun w => w <> "") ws -> Py.starts_clean ws "".
Proof.
  intros H. unfold Py.starts_clean. eapply Forall_impl; [exact H|].
  intros [|a w] Hw; [contradiction | reflexivity].
Qed.

Lemma drop_leading_clean ws k s :
  Forall (fun w => w <> "") ws -> Py.starts_clean ws (Py.drop_leading ws k s).
Proof.
  intros Hne. revert k. induction s as [|a s IH]; intros k.
  - simpl. by apply starts_clean_nil.
  - simpl. destruct k as [|k]; [|apply IH].
    destruct (Py.token_width ws (String a s)) as [|k] eqn:Hw; [|apply IH].
    by apply token_width_zero.
Qed.

Lemma drop_leading_fixed ws s : Py.starts_clean ws s -> Py.drop_leading ws 0 s = s.
Proof.
  intros H. destruct s as [|a s]; [reflexivity|].
  simpl. by rewrite (token_width_clean _ _ H).
Qed.

Lemma drop_leading_suffix ws k s : exists v, s = v +:+ Py.drop_leading ws k s.
Proof.
  revert k. induction s as [|a s IH]; intros k.
  - by exists "".
  - simpl. destruct k as [|k].
    + destruct (Py.token_width ws (String a s)) as [|k]; [by exists ""|].
      destruct (IH k) as [v Hv]. exists (String a v). by rewrite append_cons, <- Hv.
    + destruct (IH k) as [v Hv]. exists (String a v). by rewrite append_cons, <- Hv.
Qed.

Lemma starts_clean_prefix ws p u : Py.starts_clean ws (p +:+ u) -> Py.starts_clean ws p.
Proof.
  unfold Py.starts_clean. intros H. eapply Forall_impl; [exact H|].
  intros w Hw. simpl in Hw. destruct (String.prefix w p) eqn:Hp; [|reflexivity].
  by rewrite (prefix_append w p u Hp) in Hw.
Qed.

Lemma whitespace_nonempty : Forall (fun w => w <> "") Py.whitespace.
Proof. repeat constructor; discriminate. Qed.

Lemma whitespace_rev_nonempty : Forall (fun w => w <> "") (map String.rev Py.whitespace).
Proof. repeat constructor; discriminate. Qed.

Lemma rstrip_prefix s : exists u, s = Py.rstrip s +:+ u.
Proof.
  unfold Py.rstrip.
  destruct (drop_leading_suffix (map String.rev Py.whitespace) 0 (String.rev s))
    as [v Hv].
  exists (String.rev v).
  rewrite <- rev_append, <- Hv. by rewrite rev_involutive.
Qed.

(** What [strip] returns starts and ends with no white space. *)
Lemma strip_clean s :
  Py.starts_clean Py.whitespace (Py.strip s)
  /\ Py.starts_clean (map String.rev Py.whitespace) (String.rev (Py.strip s)).
Proof.
  unfold Py.strip. split.
  - destruct (rstrip_prefix (Py.lstrip s)) as [u Hu].
    apply (starts_clean_prefix _ _ u). rewrite <- Hu.
    apply drop_leading_clean, whitespace_nonempty.
  - unfold Py.rstrip. rewrite rev_involutive.
    apply drop_leading_clean, whitespace_rev_nonempty.
Qed.

Lemma strip_fixed s :
  Py.starts_clean Py.whitespace s ->
  Py.starts_clean (map String.rev Py.whitespace) (String.rev s) ->
  Py.strip s = s.
Proof.
  intros Hs He. unfold Py.strip, Py.lstrip, Py.rstrip.
  rewrite (drop_leading_fixed _ _ Hs), (drop_leading_fixed _ _ He).
  apply rev_involutive.
Qed.

Lemma strip_idempotent s : Py.strip (Py.strip s) = Py.strip s.
Proof. destruct (strip_clean s). by apply strip_fixed. Qed.

Lemma prefix_cons_ne a w b s :
  a <> b -> String.prefix (String a w) (String b s) = false.
Proof. intros Hne. simpl. by destruct (ascii_dec a b). Qed.

Lemma split_first_entry code rest :
  Exchange.contains " " code = false ->
  Py.split_first " - " (code +:+ " - " +:+ rest) = code.
Proof.
  induction code as [|c code IH]; intros Hc; [by destruct rest|].
  assert (Hc' : Ascii.eqb " " c = false /\ Exchange.contains " " code = false)
    by (apply orb_false_iff; exact Hc).
  destruct Hc' as [Hne Hrest]. apply Ascii.eqb_neq in Hne.
  change (Py.split_first " - " (String c (code +:+ " - " +:+ rest)) = String c code).
  change (Py.split_first " - " (String c (code +:+ " - " +:+ rest)))
    with (if String.prefix " - " (String c (code +:+ " - " +:+ rest))
          then "" else String c (Py.split_first " - " (code +:+ " - " +:+ rest))).
  rewrite (prefix_cons_ne _ _ _ _ Hne). f_equal. by apply IH.
Qed.

End StringMore.

(** ** The exchange-rate window, further *)

Section ExchangeMore.
Import Exchange.

(** *** The calculator *)

Ltac boxed := left; eexists; split; [|reflexivity]; reflexivity.

Lemma calculate_outcome float_of now a :
  (exists e, is_alert e = true /\ _calculate_conversion float_of now a = show e a)
  \/ (exists twd_amount rate_data buy_rate sell_rate,
        _calculate_conversion float_of now a
        = set_result_label
            (Converted twd_amount (combo_text a)
               buy_rate (Py.format_2f (twd_amount / buy_rate)%float)
               sell_rate (Py.format_2f (twd_amount / sell_rate)%float) now) a
        /\ float_of (Py.strip (twd_entry a)) = Some twd_amount
        /\ PrimFloat.leb twd_amount 0%float = false
        /\ _find_rate_by_currency (combo_text a) a = Some rate_data
        /\ rate_of float_of rate_data buy_key = inr buy_rate
        /\ rate_of float_of rate_data sell_key = inr sell_rate
        /\ Py.nonzero buy_rate = true /\ Py.nonzero sell_rate = true).
Proof.
  unfold _calculate_conversion.
  destruct (negb (Py.truthy (Py.strip (twd_entry a)))); [boxed|].
  destruct (float_of (Py.strip (twd_entry a))) as [twd_amount|] eqn:Htwd;
    [|boxed].
  destruct (PrimFloat.leb twd_amount 0) eqn:Hpos; [boxed|].
  destruct (negb (Py.truthy (combo_text a))); [boxed|].
  destruct (_find_rate_by_currency (combo_text a) a) as [rate_data|] eqn:Hfind;
    [|boxed].
  destruct (bool_decide (rate_data = ∅)); [boxed|].
  destruct (rate_of float_of rate_data buy_key) as [e|buy_rate] eqn:Hbuy;
    [destruct e; boxed|].
  destruct (rate_of float_of rate_data sell_key) as [e|sell_rate] eqn:Hsell;
    [destruct e; boxed|].
  unfold divide, Py.truediv, Py.nonzero.
  destruct (PrimFloat.eqb buy_rate 0) eqn:Hb; [boxed|].
  destruct (PrimFloat.eqb sell_rate 0) eqn:Hs; [boxed|].
  right. exists twd_amount, rate_data, buy_rate, sell_rate.
  rewrite Hb, Hs. repeat split; assumption.
Qed.

(** X4.  The calculator never fails silently and never half-updates.
    Either it shows exactly one warning or error box and changes nothing
    else, the result label included; or it shows no box and sets the
    result label, and then the amount was read as a float that is not
    [<= 0], the selected currency was found, both of its rates were read
    as non-zero floats, and the two results are the quotients printed
    with two decimals. *)
Theorem calculator_box_or_result float_of now a :
  (exists e, is_alert e = true /\ _calculate_conversion float_of now a = show e a)
  \/ (exists twd_amount rate_data buy_rate sell_rate,
        _calculate_conversion float_of now a
        = set_result_label
            (Converted twd_amount (combo_text a)
               buy_rate (Py.format_2f (twd_amount / buy_rate)%float)
               sell_rate (Py.format_2f (twd_amount / sell_rate)%float) now) a
        /\ float_of (Py.strip (twd_entry a)) = Some twd_amount
        /\ PrimFloat.leb twd_amount 0%float = false
        /\ _find_rate_by_currency (combo_text a) a = Some rate_data
        /\ rate_of float_of rate_data buy_key = inr buy_rate
        /\ rate_of float_of rate_data sell_key = inr sell_rate
        /\ Py.nonzero buy_rate = true /\ Py.nonzero sell_rate = true).
Proof. apply calculate_outcome. Qed.

(** *** Looking a currency up *)

Lemma head_filter_Some {A} (P : A -> Prop) `{!forall x, Decision (P x)} l x :
  head (filter P l) = Some x ->
  exists l1 l2, l = l1 ++ x :: l2 /\ P x /\ Forall (fun y => ~ P y) l1.
Proof.
  induction l as [|y l IH]; [discriminate|].
  destruct (decide (P y)) as [Hy|Hy].
  - rewrite filter_cons_True by assumption. simpl. intros [= ->].
    exists [], l. repeat split; [assumption | constructor].
  - rewrite filter_cons_False by assumption. intros Hh.
    destruct (IH Hh) as (l1 & l2 & -> & Hx & Hl1).
    exists (y :: l1), l2. repeat split; [assumption | by constructor].
Qed.

Lemma head_filter_None {A} (P : A -> Prop) `{!forall x, Decision (P x)} l :
  head (filter P l) = None -> Forall (fun y => ~ P y) l.
Proof.
  induction l as [|y l IH]; [constructor|].
  destruct (decide (P y)) as [Hy|Hy].
  - rewrite filter_cons_True by assumption. discriminate.
  - rewrite filter_cons_False by assumption. intros Hh. constructor; auto.
Qed.

(** X5.  [_find_rate_by_currency] returns the first cached record whose
    currency field is the code asked for, and [None] exactly when no
    cached record has it. *)
Theorem find_rate_first_match currency a :
  match _find_rate_by_currency currency a with
  | Some rate =>
      exists earlier later,
        exchange_data a = Some (earlier ++ rate :: later)
        /\ rate !! currency_key = Some currency
        /\ Forall (fun r => r !! currency_key <> Some currency) earlier
  | None =>
      Forall (fun r => r !! currency_key <> Some currency) (data_of a)
  end.
Proof.
  unfold _find_rate_by_currency, data_of.
  destruct (exchange_data a) as [[|rate0 data]|]; simpl; [constructor | | constructor].
  destruct (head (filter (fun rate => rate !! currency_key = Some currency)
                         (rate0 :: data))) as [rate|] eqn:Hhead.
  - apply head_filter_Some in Hhead as (l1 & l2 & Heq & Hr & Hl1).
    exists l1, l2. rewrite Heq. auto.
  - by apply head_filter_None in Hhead.
Qed.

(** *** What the window shows agrees with what it holds *)

Lemma in_sync_frame a b :
  tree b = tree a -> combo_values b = combo_values a ->
  exchange_data b = exchange_data a -> last_update b = last_update a ->
  time_label b = time_label a -> in_sync a -> in_sync b.
Proof.
  unfold in_sync, rows, data_of. intros -> -> -> -> ->. auto.
Qed.

Lemma step_in_sync a a' : step a a' -> in_sync a -> in_sync a'.
Proof.
  intros Hstep. destruct Hstep as
    [a Hon | text a | code a Hcode | float_of now a | r a Hpos | a Hpos
     | now ms cb l1 l2 a Hafter].
  - apply in_sync_frame; unfold _fetch_data_thread;
      destruct (is_loading a); by destruct a.
  - apply in_sync_frame; by destruct a.
  - apply in_sync_frame; by destruct a.
  - destruct (calculate_frame float_of now a) as [[e ->] | [r ->]];
      apply in_sync_frame; by destruct a.
  - apply in_sync_frame; destruct r; by destruct a.
  - apply in_sync_frame; by destruct a.
  - intros Hs.
    assert (Hs' : in_sync (set_after (l1 ++ l2) a))
      by (revert Hs; apply in_sync_frame; by destruct a).
    destruct cb as [data| |]; simpl.
    + assert (Hd : data = None \/ data = Some [] \/ exists d, data = Some d /\ d <> []).
      { destruct data as [[|x d]|]; eauto. }
      destruct Hd as [Hd | [Hd | (d & -> & Hd)]].
      * rewrite update_ui_failure by auto. revert Hs'.
        apply in_sync_frame; by destruct a.
      * rewrite update_ui_failure by auto. revert Hs'.
        apply in_sync_frame; by destruct a.
      * destruct (update_ui_success now d (set_after (l1 ++ l2) a) Hd)
          as (t & n & -> & Hrows).
        unfold in_sync, rows, data_of. simpl. repeat split; try assumption.
        -- intros [= ->]. by apply Hd.
        -- discriminate.
    + revert Hs'. apply in_sync_frame; by destruct a.
    + revert Hs'. apply in_sync_frame; by destruct a.
Qed.

(** X6.  In every state the window can reach, the table shows exactly the
    cached records in their order, the dropdown lists exactly their
    tradable codes, the cache is never an empty list, and the time label
    shows the time of the last successful update, or a dash while there
    has been none and nothing is cached. *)
Theorem exchange_view_in_sync a :
  reachable a ->
  rows a = map row_of (data_of a)
  /\ combo_values a = available (data_of a)
  /\ exchange_data a <> Some []
  /\ match last_update a with
     | Some t => exchange_data a <> None /\ time_label a = "最後更新: " +:+ t
     | None => exchange_data a = None /\ time_label a = "最後更新: -"
     end.
Proof.
  unfold reachable. revert a. apply rtc_ind_r.
  - repeat split. discriminate.
  - intros a a' _ Hstep IH. by apply (step_in_sync a a').
Qed.

Lemma exchange_view_in_sync_witness :
  reachable opened /\ rows opened = [] /\ time_label opened = "最後更新: -".
Proof.
  assert (Hr : reachable opened) by apply rtc_refl.
  destruct (exchange_view_in_sync opened Hr) as (Hrows & _ & _ & Hlabel).
  split; [exact Hr|]. split; [exact Hrows | exact (proj2 Hlabel)].
Defined.

(** *** The busy notice *)

Lemma step_never_busy_box a a' : step a a' -> never_busy_box a -> never_busy_box a'.
Proof.
  unfold never_busy_box.
  intros Hstep [Hflag Hbox]. destruct Hstep as
    [a Hon | text a | code a Hcode | float_of now a | r a Hpos | a Hpos
     | now ms cb l1 l2 a Hafter].
  - unfold _fetch_data_thread. destruct (is_loading a) eqn:Hl.
    + specialize (Hflag eq_refl). congruence.
    + destruct a; simpl in *. auto.
  - destruct a; simpl in *. auto.
  - destruct a; simpl in *. auto.
  - destruct (calculate_outcome float_of now a)
      as [(e & Halert & ->) | (t & rd & b & s0 & -> & _)].
    + destruct a; simpl in *. split; [assumption|].
      apply Forall_app. split; [assumption|]. constructor; [|constructor].
      by destruct e.
    + destruct a; simpl in *. auto.
  - destruct r; destruct a; simpl in *; auto.
  - destruct a; simpl in *. split; [discriminate | assumption].
  - destruct cb as [data| |]; simpl.
    + assert (Hd : data = None \/ data = Some [] \/ exists d, data = Some d /\ d <> []).
      { destruct data as [[|x d]|]; eauto. }
      destruct Hd as [Hd | [Hd | (d & -> & Hd)]].
      * rewrite update_ui_failure by auto. destruct a; simpl in *.
        split; [discriminate|]. apply Forall_app. split; [assumption|].
        by repeat constructor.
      * rewrite update_ui_failure by auto. destruct a; simpl in *.
        split; [discriminate|]. apply Forall_app. split; [assumption|].
        by repeat constructor.
      * destruct (update_ui_success now d (set_after (l1 ++ l2) a) Hd)
          as (t & n & -> & _).
        destruct a; simpl in *. split; [discriminate | assumption].
    + destruct a; simpl in *. split; [assumption|].
      apply Forall_app. split; [assumption|]. by repeat constructor.
    + destruct a; simpl in *. auto.
Qed.

(** X7.  The notice "still loading, please wait" is never shown: in every
    state the window can reach, the update button is disabled whenever
    the busy flag is set, so its command cannot run then, and no
    information box has been shown at all. *)
Theorem busy_notice_never_shown a :
  reachable a ->
  (is_loading a = true -> update_btn a = false)
  /\ Forall (fun e => is_info e = false) (effects a)
  /\ (update_btn a = true ->
      effects (_fetch_data_thread a) = effects a
      /\ fetching (_fetch_data_thread a) = S (fetching a)).
Proof.
  intros Hr.
  assert (Hinv : never_busy_box a).
  { revert a Hr. apply rtc_ind_r.
    - split; [reflexivity | constructor].
    - intros a a' _ Hstep IH. by apply (step_never_busy_box a a'). }
  destruct Hinv as [Hflag Hbox]. split; [exact Hflag|]. split; [exact Hbox|].
  intros Hon. unfold _fetch_data_thread.
  destruct (is_loading a) eqn:Hl; [specialize (Hflag eq_refl); congruence|].
  by destruct a.
Qed.

Lemma busy_notice_never_shown_witness :
  reachable opened /\ update_btn opened = false /\ effects opened = [].
Proof.
  assert (Hr : reachable opened) by apply rtc_refl.
  destruct (busy_notice_never_shown opened Hr) as (Hflag & _ & _).
  split; [exact Hr|]. split; [exact (Hflag eq_refl) | reflexivity].
Defined.

(** *** The cleaning of the scraped rows *)

Lemma contains_cons c x s :
  contains c (String x s) = Ascii.eqb c x || contains c s.
Proof. reflexivity. Qed.

Lemma before_append c s1 s2 :
  contains c s1 = false -> before c (s1 +:+ s2) = s1 +:+ before c s2.
Proof.
  induction s1 as [|x s1 IH]; intros Hc; [reflexivity|].
  rewrite contains_cons in Hc. apply orb_false_iff in Hc as [Hx Hs1].
  rewrite !append_cons. simpl. rewrite Ascii.eqb_sym, Hx. f_equal. by apply IH.
Qed.

Lemma before_here c s : before c (String c s) = "".
Proof. simpl. by rewrite Ascii.eqb_refl. Qed.

Lemma after_first_append c s1 s2 :
  contains c s1 = false -> after_first c (s1 +:+ String c s2) = Some s2.
Proof.
  induction s1 as [|x s1 IH]; intros Hc.
  - simpl. by rewrite Ascii.eqb_refl.
  - rewrite contains_cons in Hc. apply orb_false_iff in Hc as [Hx Hs1].
    rewrite append_cons. simpl. rewrite Ascii.eqb_sym, Hx. by apply IH.
Qed.

(** X8.  From a scraped name of the form "name (CODE) ..." the cleaning
    extracts CODE: what stands between the first opening parenthesis and
    the closing one that follows it, whatever comes after. *)
Theorem code_between_parentheses name code rest :
  contains "(" name = false ->
  contains "(" code = false ->
  contains ")" code = false ->
  between_parentheses (name +:+ "(" +:+ code +:+ ")" +:+ rest) = code.
Proof.
  intros Hname Hopen Hclose. unfold between_parentheses.
  change (name +:+ "(" +:+ code +:+ ")" +:+ rest)
    with (name +:+ String "(" (code +:+ String ")" rest)).
  rewrite (after_first_append _ _ _ Hname). simpl default.
  rewrite (before_append _ _ _ Hopen).
  assert (Hnext : before "(" (String ")" rest) = String ")" (before "(" rest))
    by reflexivity.
  rewrite Hnext, (before_append _ _ _ Hclose), before_here.
  apply append_nil_r.
Qed.

Lemma code_between_parentheses_witness :
  contains "(" "USD" = false
  /\ between_parentheses ("Dollar " +:+ "(" +:+ "USD" +:+ ")" +:+ " (cash)") = "USD".
Proof.
  split; [reflexivity|].
  apply (code_between_parentheses "Dollar " "USD" " (cash)"); reflexivity.
Defined.

Lemma well_formed_lookup code buy sell :
  let rate : dict := {[ currency_key := code; buy_key := buy; sell_key := sell ]} in
  rate !! currency_key = Some code
  /\ rate !! buy_key = Some buy
  /\ rate !! sell_key = Some sell.
Proof.
  cbv zeta. split; [|split].
  - apply lookup_insert_eq.
  - rewrite lookup_insert_ne by discriminate. apply lookup_insert_eq.
  - rewrite !lookup_insert_ne by discriminate. apply lookup_singleton_eq.
Qed.

Lemma clean_row_cases cleaned_rates rate :
  clean_row cleaned_rates rate = cleaned_rates
  \/ exists r, well_formed r /\ clean_row cleaned_rates rate = cleaned_rates ++ [r].
Proof.
  unfold clean_row.
  destruct (String.eqb _ "-" && String.eqb _ "-"); [by left|].
  match goal with
  | |- context [Py.truthy ?c && _ && _ && _ && _] => set (code := c)
  end.
  destruct (Py.truthy code && _ && _ && _ && _) eqn:Hcond; [|by left].
  right. eexists. split; [|reflexivity].
  repeat (apply andb_true_iff in Hcond as [Hcond ?]).
  exists code, (Py.strip (get rate buy_key "")), (Py.strip (get rate sell_key "")).
  split; [reflexivity|].
  repeat split; try (by apply truthy_nonempty);
    try (apply String.eqb_neq; by apply negb_true_iff);
    apply strip_idempotent.
Qed.

Lemma fold_clean_row rates cleaned_rates :
  Forall well_formed cleaned_rates ->
  Forall well_formed (fold_left clean_row rates cleaned_rates)
  /\ (length (fold_left clean_row rates cleaned_rates)
      <= length cleaned_rates + length rates)%nat.
Proof.
  revert cleaned_rates. induction rates as [|rate rates IH]; intros acc Hacc; simpl.
  - split; [assumption | lia].
  - destruct (clean_row_cases acc rate) as [-> | (r & Hr & ->)].
    + destruct (IH acc Hacc). split; [assumption | lia].
    + destruct (IH (acc ++ [r])) as [Hall Hlen].
      { apply Forall_app. split; [assumption | by constructor]. }
      split; [assumption|]. rewrite length_app in Hlen. simpl in Hlen. lia.
Qed.

(** X9.  Every record [fetch_exchange_rates] delivers has exactly the
    three fields, none of them empty, with rates that carry no surrounding
    white space and are not the dash of a suspended currency; the table
    shows its three values as they are, and it is listed in the dropdown
    exactly when its code is not blank.  No more records are delivered
    than rows were scraped, and never an empty list. *)
Theorem cleaned_records_well_formed rates cleaned_rates :
  cleaned rates = Some cleaned_rates ->
  cleaned_rates <> []
  /\ (length cleaned_rates <= length rates)%nat
  /\ Forall (fun rate =>
               exists code buy sell,
                 rate = {[ currency_key := code; buy_key := buy; sell_key := sell ]}
                 /\ code <> "" /\ buy <> "" /\ sell <> ""
                 /\ buy <> "-" /\ sell <> "-"
                 /\ Py.strip buy = buy /\ Py.strip sell = sell
                 /\ row_of rate = (code, buy, sell)
                 /\ (tradable rate = true <-> Py.strip code <> ""))
            cleaned_rates.
Proof.
  unfold cleaned. intros Hc.
  destruct (fold_clean_row rates [] ltac:(constructor)) as [Hall Hlen].
  destruct (fold_left clean_row rates []) as [|r l] eqn:Hfold; [discriminate|].
  injection Hc as <-. split; [discriminate|]. split; [simpl in *; lia|].
  eapply Forall_impl; [exact Hall|].
  intros rate (code & buy & sell & -> & Hcode & Hbuy & Hsell & Hb & Hs & Hsb & Hss).
  exists code, buy, sell.
  destruct (well_formed_lookup code buy sell) as (Hl1 & Hl2 & Hl3).
  split; [reflexivity|]. repeat (split; [assumption|]). split.
  - unfold row_of, get. by rewrite Hl1, Hl2, Hl3.
  - unfold tradable, get. rewrite Hl1, Hl2, Hl3. simpl.
    rewrite Hsb, Hss, !andb_true_iff, !truthy_nonempty. tauto.
Qed.

Lemma cleaned_records_well_formed_witness :
  cleaned [Examples.usd_scraped; Examples.zar_suspended] = Some [Examples.usd]
  /\ row_of Examples.usd = ("USD", "30.1", "30.5").
Proof.
  assert (Hc : cleaned [Examples.usd_scraped; Examples.zar_suspended]
               = Some [Examples.usd]) by (vm_compute; reflexivity).
  split; [exact Hc|].
  destruct (cleaned_records_well_formed _ _ Hc) as (_ & _ & Hall).
  inversion Hall as [|r l (code & buy & sell & _ & _ & _ & _ & _ & _ & _ & _ & Hrow & _) _].
  rewrite Hrow. vm_compute in Hrow. exact (eq_sym Hrow).
Defined.

(** *** Picking a currency and finding it again *)

(** X10.  When what the window shows agrees with what it holds and no
    cached code carries surrounding white space, every entry of the
    dropdown is found again by [_find_rate_by_currency], in a record that
    has exactly that code.  (The dropdown lists stripped codes and the
    lookup compares unstripped ones.) *)
Theorem dropdown_entry_is_found a code :
  in_sync a ->
  Forall (fun rate => Py.strip (get rate currency_key "") = get rate currency_key "")
         (data_of a) ->
  code ∈ combo_values a ->
  exists rate,
    _find_rate_by_currency code a = Some rate
    /\ rate !! currency_key = Some code.
Proof.
  intros (_ & Hcombo & Hne & _) Hclean Hin.
  rewrite Hcombo in Hin. unfold available in Hin.
  apply list_elem_of_fmap in Hin as (r & -> & Hr).
  apply list_elem_of_In, filter_In in Hr as [Hr Ht].
  apply list_elem_of_In in Hr.
  rewrite Forall_forall in Hclean. rewrite (Hclean r Hr).
  unfold tradable in Ht. rewrite !andb_true_iff in Ht. destruct Ht as [[Hcode _] _].
  rewrite (Hclean r Hr) in Hcode. apply truthy_nonempty in Hcode.
  assert (Hkey : r !! currency_key = Some (get r currency_key "")).
  { unfold get in *. destruct (r !! currency_key); [reflexivity | contradiction]. }
  unfold _find_rate_by_currency, data_of in *.
  destruct (exchange_data a) as [[|rate0 data]|]; simpl in Hr;
    [inversion Hr | | inversion Hr].
  destruct (head (filter (fun rate => rate !! currency_key = Some (get r currency_key ""))
                         (rate0 :: data))) as [rate|] eqn:Hhead.
  - exists rate. split; [reflexivity|].
    by apply head_filter_Some in Hhead as (l1 & l2 & _ & Hrate & _).
  - apply head_filter_None in Hhead. rewrite Forall_forall in Hhead.
    by destruct (Hhead r Hr).
Qed.

Lemma dropdown_entry_is_found_witness :
  in_sync Examples.showing_usd
  /\ _find_rate_by_currency "USD" Examples.showing_usd = Some Examples.usd.
Proof.
  assert (Hs : in_sync Examples.showing_usd).
  { repeat split; discriminate. }
  split; [exact Hs|].
  destruct (dropdown_entry_is_found Examples.showing_usd "USD" Hs) as (rate & Hfind & _).
  - repeat constructor.
  - vm_compute. left.
  - rewrite Hfind. vm_compute in Hfind. vm_compute. exact (eq_sym Hfind).
Defined.

End ExchangeMore.

(** ** The stock watch-list window, further *)

Section StockMore.
Import Stock.

#[local] Set Warnings "-clear-no-such-hyp".

(** *** The cards follow the watch list and the cache *)

Lemma tk_call_display r : display (tk_call r) = display r.1.
Proof. rewrite tk_call_effects. by destruct r.1. Qed.

Lemma add_to_watchlist_shown selection a :
  shown (display a) -> shown (display (add_to_watchlist selection a).1).
Proof.
  rewrite add_to_watchlist_shape. unfold shown, display.
  destruct selection as [stock_code|]; [case_bool_decide|]; destruct a; simpl; auto.
Qed.

Lemma remove_from_watchlist_shown stock_code a :
  shown (display a) -> shown (display (remove_from_watchlist stock_code a).1).
Proof.
  rewrite remove_from_watchlist_shape. unfold shown, display.
  case_bool_decide; destruct a; simpl; auto.
Qed.

Lemma manual_update_display a : display (manual_update a) = display a.
Proof.
  destruct (manual_update_data a) as (Hw & Hc & _ & Hs). unfold display. congruence.
Qed.

Lemma schedule_auto_update_display a : display (schedule_auto_update a) = display a.
Proof.
  destruct (schedule_auto_update_data a) as (Hw & Hc & _ & Hs). unfold display. congruence.
Qed.

Lemma toggle_auto_update_display v a : display (toggle_auto_update v a) = display a.
Proof.
  destruct (toggle_auto_update_data v a) as (Hw & Hc & _ & Hs). unfold display. congruence.
Qed.

Lemma crawler_fetched_display r before_it after_it a :
  display (crawler_fetched r before_it after_it a) = display a.
Proof. destruct r; by destruct a. Qed.

Lemma crawler_closed_display raised before_it after_it a :
  display (crawler_closed raised before_it after_it a) = display a.
Proof. destruct raised; by destruct a. Qed.

(** Whether it returns or raises, a handler leaves the container as the
    display built it from the cache it leaves. *)
Lemma handle_shown now m a :
  shown (display a) -> shown (display (handle now m a).1).
Proof.
  unfold shown, display. destruct m as [results | e]; unfold handle.
  - rewrite on_update_complete_shape. cbv zeta.
    destruct (built _); destruct a; simpl; auto.
  - rewrite on_update_error_shape. simpl. auto.
Qed.

Lemma drain_shown now pending a :
  shown (display a) -> shown (display (drain now pending a).1).
Proof.
  revert a. induction pending as [|m pending IH]; intros a Ha; simpl; [assumption|].
  assert (Ha' : shown (display (set_result_queue pending a))) by (by destruct a).
  pose proof (handle_shown now m _ Ha') as Hm.
  destruct (handle now m (set_result_queue pending a)) as [a' [|e]]; [|exact Hm].
  by apply IH.
Qed.

Lemma check_queue_shown now a :
  shown (display a) -> shown (display (check_queue now a).1).
Proof.
  intros Ha. unfold check_queue. pose proof (drain_shown now (result_queue a) a Ha) as Hd.
  destruct (drain now (result_queue a) a) as [a' [|e]]; [|exact Hd].
  by destruct a'.
Qed.

Lemma step_shown a a' : step a a' -> shown (display a) -> shown (display a').
Proof.
  intros Hstep. destruct Hstep as
    [selection a | stock_code a | a Hbtn | v a
    | jobs codes l1 l2 a Hthreads Hjobs | e codes l1 l2 a Hthreads
    | raised l1 l2 a Hthreads | now id ms cb l1 l2 a Hafter].
  - rewrite tk_call_display. apply add_to_watchlist_shown.
  - rewrite tk_call_display. apply remove_from_watchlist_shown.
  - by rewrite manual_update_display.
  - by rewrite toggle_auto_update_display.
  - by rewrite crawler_fetched_display.
  - by rewrite crawler_fetched_display.
  - by rewrite crawler_closed_display.
  - intros Ha. rewrite tk_call_display.
    assert (Ha' : shown (display (set_after (l1 ++ l2) a))) by (by destruct a).
    destruct cb; unfold run_callback.
    + by apply check_queue_shown.
    + simpl. by rewrite schedule_auto_update_display.
Qed.

(** X11.  In every state the window can reach, the container shows
    exactly the cards of the current watch list and cache: the empty-state
    label when nothing is watched, otherwise one card per watched stock in
    ascending code order, with the cached record or waiting for it; no
    card is left unfinished, since every record the window holds was
    stamped by the fetcher. *)
Theorem stock_cards_in_sync a :
  reachable a ->
  stocks_container a = cards (watchlist a) (stock_data_cache a)
  /\ stocks_container a
     = (if bool_decide (watchlist a = ∅) then [EmptyLabel]
        else map (card_of (stock_data_cache a)) (sorted (elements (watchlist a))))
  /\ Forall (fun c => unfinished c = false) (stocks_container a).
Proof.
  intros Hreach.
  assert (Hshown : shown (display a)).
  { destruct Hreach as [now Hr]. revert a Hr. apply rtc_ind_r.
    - reflexivity.
    - intros a a' _ Hstep IH. by apply (step_shown a a'). }
  destruct (reachable_stamped a Hreach) as [Hcache _].
  unfold shown, display in Hshown. simpl in Hshown.
  split; [exact Hshown|]. rewrite Hshown. unfold cards.
  destruct (cards_of_stamped (stock_data_cache a) (sorted (elements (watchlist a)))
              Hcache) as [-> _].
  split; [reflexivity|]. case_bool_decide; [by repeat constructor|].
  apply Forall_forall. intros c Hc.
  apply list_elem_of_fmap in Hc as (code & -> & _). by apply card_of_finished.
Qed.

Lemma stock_cards_in_sync_witness :
  reachable Examples.first_poll
  /\ stocks_container Examples.first_poll
     = [StockCard "2330"
          (<["update_time" := "2025-12-20 09:00:30"]>
             (<["stock_code" := "2330"]> Examples.tsmc))].
Proof.
  assert (Hr : reachable Examples.first_poll).
  { destruct results_put_reachable as [now Hr]. exists now.
    eapply rtc_r; [exact Hr|].
    by apply (step_timer "2025-12-20 09:00:31" 0%nat 100 CheckQueue [] [] Examples.results_put). }
  split; [exact Hr|].
  destruct (stock_cards_in_sync _ Hr) as (_ & -> & _). vm_compute. reflexivity.
Defined.

(** *** Removing a stock *)

Lemma cards_of_elem cache stock_codes c :
  c ∈ cards_of cache stock_codes ->
  exists stock_code, stock_code ∈ stock_codes /\ c = card_of cache stock_code.
Proof.
  induction stock_codes as [|code stock_codes IH]; simpl; [by intros ?%elem_of_nil|].
  destruct (unfinished (card_of cache code)).
  - intros ->%list_elem_of_singleton. exists code. split; [by left | reflexivity].
  - intros [-> | Hc]%elem_of_cons.
    + exists code. split; [by left | reflexivity].
    + destruct (IH Hc) as (code' & Hin & ->). exists code'. split; [by right | reflexivity].
Qed.

Lemma cards_codes watching cache c :
  c ∈ cards watching cache ->
  match c with
  | EmptyLabel => watching = ∅
  | StockCard stock_code stock_data | UnfinishedCard stock_code stock_data =>
      stock_code ∈ watching /\ cache !! stock_code = Some stock_data
  | WaitingCard stock_code => stock_code ∈ watching
  end.
Proof.
  unfold cards. case_bool_decide as Hw.
  - intros Hc. apply list_elem_of_singleton in Hc as ->. exact Hw.
  - intros Hc. apply cards_of_elem in Hc as (code & Hcode & ->).
    assert (Hin : code ∈ watching).
    { apply elem_of_elements. by rewrite <- (sorted_perm (elements watching)). }
    unfold card_of. destruct (cache !! code) as [d|] eqn:Hd; [|exact Hin].
    case_bool_decide; [exact Hin|]. by destruct (update_field d).
Qed.

Lemma remove_watched stock_code a :
  stock_code ∈ watchlist a ->
  (remove_from_watchlist stock_code a).1
  = set_stocks_container
      (cards (watchlist a ∖ {[stock_code]}) (delete stock_code (stock_data_cache a)))
      (set_stock_data_cache (delete stock_code (stock_data_cache a))
         (set_watchlist (watchlist a ∖ {[stock_code]}) a)).
Proof.
  intros Hin. rewrite remove_from_watchlist_shape.
  by rewrite bool_decide_true by assumption.
Qed.

Lemma remove_unwatched stock_code a :
  stock_code ∉ watchlist a -> remove_from_watchlist stock_code a = (a, Normal).
Proof.
  intros Hout. unfold remove_from_watchlist. by rewrite bool_decide_false.
Qed.

Lemma add_unwatched stock_code a :
  stock_code ∉ watchlist a ->
  (add_to_watchlist (Some stock_code) a).1
  = set_stocks_container
      (cards (watchlist a ∪ {[stock_code]}) (stock_data_cache a))
      (show (ShowInfo "成功" ("已加入股票 " +:+ stock_code +:+ " 到觀察清單"))
         (set_watchlist (watchlist a ∪ {[stock_code]}) a)).
Proof.
  intros Hout. rewrite add_to_watchlist_shape.
  by rewrite bool_decide_false by assumption.
Qed.

(** X12.  Removing a watched stock takes it off the watch list, drops its
    cached record and leaves no card for it; removing a stock that is not
    watched changes nothing.  Adding a stock that was neither watched nor
    cached and removing it again gives back the window as it was, but
    for the "added" notice. *)
Theorem remove_from_watchlist_forgets stock_code a :
  let a' := (remove_from_watchlist stock_code a).1 in
  (stock_code ∉ watchlist a')
  /\ (stock_code ∈ watchlist a ->
      watchlist a' = watchlist a ∖ {[stock_code]}
      /\ stock_data_cache a' !! stock_code = None
      /\ (forall stock_data, StockCard stock_code stock_data ∉ stocks_container a')
      /\ (forall stock_data, UnfinishedCard stock_code stock_data ∉ stocks_container a')
      /\ WaitingCard stock_code ∉ stocks_container a')
  /\ (stock_code ∉ watchlist a -> a' = a)
  /\ (stock_code ∉ watchlist a ->
      stock_data_cache a !! stock_code = None ->
      stocks_container a = cards (watchlist a) (stock_data_cache a) ->
      (remove_from_watchlist stock_code (add_to_watchlist (Some stock_code) a).1).1
      = show (ShowInfo "成功" ("已加入股票 " +:+ stock_code +:+ " 到觀察清單")) a).
Proof.
  cbv zeta. split; [|split; [|split]].
  - destruct (decide (stock_code ∈ watchlist a)) as [Hin|Hout].
    + rewrite (remove_watched _ _ Hin). destruct a; simpl. set_solver.
    + by rewrite (remove_unwatched _ _ Hout).
  - intros Hin. rewrite (remove_watched _ _ Hin).
    destruct a as [wl cache ? ? ? ? ? ? ? cs ? ? ? ?]; simpl in *.
    split; [reflexivity|]. split; [apply lookup_delete_eq|]. split; [|split].
    + intros d Hc. apply cards_codes in Hc as [Hc _]. set_solver.
    + intros d Hc. apply cards_codes in Hc as [Hc _]. set_solver.
    + intros Hc. apply cards_codes in Hc. set_solver.
  - intros Hout. by rewrite (remove_unwatched _ _ Hout).
  - intros Hout Hcache Hsync. rewrite (add_unwatched _ _ Hout).
    rewrite remove_watched by (destruct a; simpl; set_solver).
    destruct a as [wl cache ? ? ? ? ? ? ? cs ? ? ? ?]; simpl in *.
    assert (Hwl : (wl ∪ {[stock_code]}) ∖ {[stock_code]} = wl) by set_solver.
    rewrite Hwl, (delete_id _ _ Hcache), <- Hsync. reflexivity.
Qed.

Lemma remove_from_watchlist_forgets_witness :
  "1101" ∈ watchlist Examples.watching_two
  /\ watchlist (remove_from_watchlist "1101" Examples.watching_two).1 = {[ "2330" ]}.
Proof.
  assert (Hin : "1101" ∈ watchlist Examples.watching_two) by (vm_compute; set_solver).
  split; [exact Hin|].
  destruct (remove_from_watchlist_forgets "1101" Examples.watching_two)
    as (_ & Hrm & _).
  destruct (Hrm Hin) as (-> & _). vm_compute. reflexivity.
Defined.

(** *** The timers *)

Lemma tk_call_timing r : timing (tk_call r) = timing r.1.
Proof. rewrite tk_call_effects. by destruct r.1. Qed.

Lemma add_to_watchlist_timing selection a :
  timing (add_to_watchlist selection a).1 = timing a.
Proof.
  rewrite add_to_watchlist_shape.
  destruct selection as [stock_code|]; [case_bool_decide|]; by destruct a.
Qed.

Lemma remove_from_watchlist_timing stock_code a :
  timing (remove_from_watchlist stock_code a).1 = timing a.
Proof.
  rewrite remove_from_watchlist_shape. case_bool_decide; by destruct a.
Qed.

Lemma manual_update_timing a : timing (manual_update a) = timing a.
Proof.
  destruct (manual_update_cases a) as [[message ->] | (_ & _ & ->)]; by destruct a.
Qed.

Lemma crawler_fetched_timing r before_it after_it a :
  timing (crawler_fetched r before_it after_it a) = timing a.
Proof. destruct r; by destruct a. Qed.

Lemma crawler_closed_timing raised before_it after_it a :
  timing (crawler_closed raised before_it after_it a) = timing a.
Proof. destruct raised; by destruct a. Qed.

Lemma handle_timing now m a : timing (handle now m a).1 = timing a.
Proof.
  destruct m as [results | e]; unfold handle.
  - rewrite on_update_complete_shape. cbv zeta. destruct (built _); by destruct a.
  - by rewrite on_update_error_shape.
Qed.

Lemma drain_timing now pending a : timing (drain now pending a).1 = timing a.
Proof.
  revert a. induction pending as [|m pending IH]; intros a; simpl; [reflexivity|].
  pose proof (handle_timing now m (set_result_queue pending a)) as Hm.
  destruct (handle now m (set_result_queue pending a)) as [a' [|e]]; cbn [fst] in Hm.
  - rewrite IH, Hm. by destruct a.
  - cbn [fst]. rewrite Hm. by destruct a.
Qed.

(** A poll that returns has scheduled the next one; a poll that raises
    has not. *)
Lemma check_queue_timing now a :
  timing (check_queue now a).1
  = match (check_queue now a).2 with
    | Normal =>
        (after a ++ [(next_timer a, 100, CheckQueue)], S (next_timer a),
         update_timer_id a, auto_update_enabled a)
    | Raise _ => timing a
    end.
Proof.
  unfold check_queue. pose proof (drain_timing now (result_queue a) a) as Hd.
  destruct (drain now (result_queue a) a) as [a' [|e]]; cbn [fst snd] in *; [|exact Hd].
  destruct a'; unfold timing in *; simpl in *. congruence.
Qed.

Lemma schedule_auto_update_timing a :
  timing (schedule_auto_update a)
  = if auto_update_enabled a
    then (after a ++ [(next_timer a, 60000, ScheduleAutoUpdate)], S (next_timer a),
          Some (next_timer a), true)
    else timing a.
Proof.
  destruct a as [wl cache auto tid upd q btn st lst cs eff aft nt run].
  unfold schedule_auto_update, timing; simpl.
  destruct auto; simpl; [|reflexivity].
  destruct (bool_decide (wl = ∅)); simpl; [reflexivity|].
  destruct upd; reflexivity.
Qed.

Lemma toggle_auto_update_timing v a :
  timing (toggle_auto_update v a)
  = if v
    then (after a ++ [(next_timer a, 60000, ScheduleAutoUpdate)], S (next_timer a),
          Some (next_timer a), true)
    else (match update_timer_id a with
          | Some id => filter (fun t => t.1.1 <> id) (after a)
          | None => after a
          end, next_timer a, None, false).
Proof.
  unfold toggle_auto_update.
  assert (Hv : auto_update_enabled (set_auto_update_enabled v a) = v)
    by (destruct a; reflexivity).
  rewrite Hv. destruct v.
  - rewrite schedule_auto_update_timing, Hv. by destruct a.
  - by destruct a as [? ? ? [tid|] ? ? ? ? ? ? ? ? ? ?].
Qed.

Lemma timers_of_app cb l1 l2 :
  timers_of cb (l1 ++ l2) = timers_of cb l1 ++ timers_of cb l2.
Proof. apply List.filter_app. Qed.

Lemma timers_of_filter cb (P : nat * Z * callback -> Prop)
    `{!forall x, Decision (P x)} l :
  timers_of cb (filter P l) = filter P (timers_of cb l).
Proof.
  induction l as [|x l IH]; [reflexivity|].
  destruct (decide (P x)) as [Hx|Hx].
  - rewrite filter_cons_True by assumption. simpl.
    destruct (same_callback x.2 cb).
    + rewrite filter_cons_True by assumption. by rewrite IH.
    + exact IH.
  - rewrite filter_cons_False by assumption. simpl.
    destruct (same_callback x.2 cb).
    + rewrite filter_cons_False by assumption. exact IH.
    + exact IH.
Qed.

Lemma polling_fire_poll l1 l2 id ms next kept enabled enabled' :
  polling (l1 ++ (id, ms, CheckQueue) :: l2, next, kept, enabled) ->
  polling ((l1 ++ l2) ++ [(next, 100, CheckQueue)], S next, kept, enabled').
Proof.
  intros (Hlt & Hcount & Hkept).
  apply Forall_app in Hlt as [Hl1 Hl2]. apply Forall_cons in Hl2 as [_ Hl2].
  rewrite timers_of_app, length_app in Hcount. simpl in Hcount.
  split; [|split].
  - repeat (apply Forall_app; split); try (eapply Forall_impl; [eassumption|]);
      try (intros; simpl in *; lia). constructor; [simpl; lia | constructor].
  - rewrite !timers_of_app, !length_app. simpl. lia.
  - intros id' Hk. destruct (Hkept id' Hk) as [Hid Hall]. split; [lia|].
    apply Forall_app in Hall as [Hall1 Hall2].
    apply Forall_cons in Hall2 as [_ Hall2].
    repeat (apply Forall_app; split); try assumption.
    constructor; [|constructor]. simpl. lia.
Qed.

Lemma polling_drop_auto l1 l2 id ms next kept enabled enabled' :
  polling (l1 ++ (id, ms, ScheduleAutoUpdate) :: l2, next, kept, enabled) ->
  polling (l1 ++ l2, next, kept, enabled').
Proof.
  intros (Hlt & Hcount & Hkept).
  apply Forall_app in Hlt as [Hl1 Hl2]. apply Forall_cons in Hl2 as [_ Hl2].
  rewrite timers_of_app, length_app in Hcount. simpl in Hcount.
  split; [|split].
  - by apply Forall_app.
  - by rewrite timers_of_app, length_app.
  - intros id' Hk. destruct (Hkept id' Hk) as [Hid Hall]. split; [lia|].
    apply Forall_app in Hall as [Hall1 Hall2].
    apply Forall_cons in Hall2 as [_ Hall2]. by apply Forall_app.
Qed.

Lemma polling_arm timers ms next kept enabled enabled' :
  polling (timers, next, kept, enabled) ->
  polling (timers ++ [(next, ms, ScheduleAutoUpdate)], S next, Some next, enabled').
Proof.
  intros (Hlt & Hcount & Hkept). split; [|split].
  - apply Forall_app. split.
    + eapply Forall_impl; [exact Hlt|]. intros; simpl in *; lia.
    + constructor; [simpl; lia | constructor].
  - rewrite timers_of_app, length_app. simpl. lia.
  - intros id' [= <-]. split; [lia|]. apply Forall_app. split.
    + eapply Forall_impl; [exact Hlt|]. intros t Ht Heq. simpl in *. lia.
    + by repeat constructor.
Qed.

Lemma polling_cancel timers next kept enabled enabled' :
  polling (timers, next, kept, enabled) ->
  polling (match kept with
           | Some id => filter (fun t => t.1.1 <> id) timers
           | None => timers
           end, next, None, enabled').
Proof.
  intros (Hlt & Hcount & Hkept). destruct kept as [id|].
  - destruct (Hkept id eq_refl) as [Hid Hall]. split; [|split].
    + apply Forall_forall. intros t Ht. apply list_elem_of_filter in Ht as [_ Ht].
      rewrite Forall_forall in Hlt. by apply Hlt.
    + rewrite timers_of_filter.
      assert (Hsame : filter (fun t : nat * Z * callback => t.1.1 <> id)
                             (timers_of CheckQueue timers)
                      = timers_of CheckQueue timers).
      { clear Hcount Hlt Hkept. induction Hall as [|t l Ht Hl IH]; [reflexivity|].
        simpl. destruct (same_callback t.2 CheckQueue) eqn:Hcb; [|exact IH].
        rewrite filter_cons_True; [by rewrite IH|].
        intros Heq. specialize (Ht Heq). rewrite Ht in Hcb. discriminate. }
      by rewrite Hsame.
    + intros id' Hk. discriminate.
  - split; [assumption|]. split; [assumption|]. intros id' Hk. discriminate.
Qed.

Lemma timers_of_split cb l1 x l2 :
  timers_of cb (l1 ++ x :: l2)
  = timers_of cb l1 ++ (if same_callback x.2 cb then [x] else []) ++ timers_of cb l2.
Proof.
  rewrite timers_of_app. f_equal. unfold timers_of. simpl.
  by destruct (same_callback x.2 cb).
Qed.

Lemma set_after_fields timers a :
  after (set_after timers a) = timers
  /\ next_timer (set_after timers a) = next_timer a
  /\ update_timer_id (set_after timers a) = update_timer_id a
  /\ auto_update_enabled (set_after timers a) = auto_update_enabled a.
Proof. by destruct a. Qed.

Lemma step_polling a a' :
  step a a' -> stamped a -> polling (timing a) -> polling (timing a').
Proof.
  intros Hstep Hstamped. destruct Hstep as
    [selection a | stock_code a | a Hbtn | v a
    | jobs codes l1 l2 a Hthreads Hjobs | e codes l1 l2 a Hthreads
    | raised l1 l2 a Hthreads | now id ms cb l1 l2 a Hafter].
  - by rewrite tk_call_timing, add_to_watchlist_timing.
  - by rewrite tk_call_timing, remove_from_watchlist_timing.
  - by rewrite manual_update_timing.
  - rewrite toggle_auto_update_timing. unfold timing. destruct v.
    + apply polling_arm.
    + apply polling_cancel.
  - by rewrite crawler_fetched_timing.
  - by rewrite crawler_fetched_timing.
  - by rewrite crawler_closed_timing.
  - unfold timing at 1. rewrite Hafter. intros Hp. rewrite tk_call_timing.
    destruct (set_after_fields (l1 ++ l2) a) as (Hs1 & Hs2 & Hs3 & Hs4).
    destruct cb; unfold run_callback.
    + assert (Hs : stamped (set_after (l1 ++ l2) a)) by (destruct a; exact Hstamped).
      rewrite check_queue_timing, (check_queue_stamped now _ Hs). cbn [snd].
      rewrite Hs1, Hs2, Hs3, Hs4. eapply polling_fire_poll. exact Hp.
    + cbn [fst]. rewrite schedule_auto_update_timing, Hs4.
      apply polling_drop_auto with (enabled' := auto_update_enabled a) in Hp.
      destruct (auto_update_enabled a).
      * rewrite Hs1, Hs2. eapply polling_arm. exact Hp.
      * unfold timing. rewrite Hs1, Hs2, Hs3, Hs4. exact Hp.
Qed.

(** X13.  The queue never stops being polled and is never polled twice
    over: in every state the window can reach exactly one call of
    [check_queue] is pending in the timers, whatever is switched on or
    off; cancelling the automatic update never cancels it, since the
    identifier kept for cancelling belongs to no poll; and no poll ends
    in an exception, since every record the window holds was stamped by
    the fetcher. *)
Theorem one_poll_pending a :
  reachable a ->
  length (timers_of CheckQueue (after a)) = 1%nat
  /\ Forall (fun t => (t.1.1 < next_timer a)%nat) (after a)
  /\ (forall id, update_timer_id a = Some id ->
        Forall (fun t => t.1.1 = id -> t.2 = ScheduleAutoUpdate) (after a))
  /\ forall now, (check_queue now a).2 = Normal.
Proof.
  intros [start Hr].
  assert (Hp : polling (timing a)).
  { revert a Hr. apply rtc_ind_r.
    - rewrite opened_shape. simpl.
      split; [repeat constructor|]. split; [reflexivity|]. discriminate.
    - intros a a' Hr Hstep IH. apply (step_polling a a' Hstep); [|exact IH].
      apply reachable_stamped. by exists start. }
  destruct Hp as (Hlt & Hcount & Hkept). split; [exact Hcount|].
  split; [exact Hlt|]. split.
  - intros id Hid. by destruct (Hkept id Hid).
  - intros now. rewrite check_queue_stamped; [reflexivity|].
    apply reachable_stamped. by exists start.
Qed.

Lemma one_poll_pending_witness :
  reachable Examples.third_update
  /\ length (timers_of CheckQueue (after Examples.third_update)) = 1%nat.
Proof.
  split; [exact third_update_reachable|].
  exact (proj1 (one_poll_pending _ third_update_reachable)).
Defined.

Lemma ui_step_armed a a' : ui_step a a' -> armed (timing a) -> armed (timing a').
Proof.
  intros Hstep. destruct Hstep as
    [selection a | stock_code a | a Hbtn | a
    | jobs codes l1 l2 a Hthreads Hjobs | e codes l1 l2 a Hthreads
    | raised l1 l2 a Hthreads | now id ms cb l1 l2 a Hafter].
  - by rewrite tk_call_timing, add_to_watchlist_timing.
  - by rewrite tk_call_timing, remove_from_watchlist_timing.
  - by rewrite manual_update_timing.
  - rewrite toggle_auto_update_timing. unfold timing.
    destruct (auto_update_enabled a); simpl.
    + intros (id & -> & Hautos). rewrite timers_of_filter, Hautos.
      by rewrite filter_cons_False by (simpl; intros Hne; by apply Hne).
    + intros Hautos. exists (next_timer a). split; [reflexivity|].
      by rewrite timers_of_app, Hautos.
  - by rewrite crawler_fetched_timing.
  - by rewrite crawler_fetched_timing.
  - by rewrite crawler_closed_timing.
  - unfold timing at 1. rewrite Hafter. intros Ha. rewrite tk_call_timing.
    destruct (set_after_fields (l1 ++ l2) a) as (Hs1 & Hs2 & Hs3 & Hs4).
    destruct cb; unfold run_callback.
    + rewrite check_queue_timing.
      unfold armed in *. rewrite timers_of_split in Ha. simpl in Ha.
      destruct (check_queue now (set_after (l1 ++ l2) a)).2.
      * rewrite ?Hs1, ?Hs2, ?Hs3, ?Hs4. rewrite !timers_of_app. simpl.
        by rewrite app_nil_r.
      * unfold timing. rewrite ?Hs1, ?Hs2, ?Hs3, ?Hs4. by rewrite timers_of_app.
    + cbn [fst]. rewrite schedule_auto_update_timing. unfold timing.
      rewrite ?Hs1, ?Hs2, ?Hs3, ?Hs4.
      unfold armed in *. rewrite timers_of_split in Ha. simpl in Ha.
      destruct (auto_update_enabled a).
      * destruct Ha as (kept & _ & Ha).
        exists (next_timer a). split; [reflexivity|].
        rewrite !timers_of_app.
        destruct (timers_of ScheduleAutoUpdate l1) as [|t1 rest1]; simpl in Ha.
        -- assert (Hl2 : timers_of ScheduleAutoUpdate l2 = []) by congruence.
           by rewrite Hl2.
        -- exfalso. destruct rest1; discriminate.
      * by destruct (timers_of ScheduleAutoUpdate l1).
Qed.

(** X14.  Driven through its check box, the window keeps exactly one
    timer armed for the automatic update while the box is ticked, the one
    whose identifier it holds for cancelling, and none while the box is
    clear: a timer that fires re-arms itself once, and clearing the box
    cancels the one that is pending. *)
Theorem auto_update_timer_armed now a :
  rtc ui_step (opened now) a ->
  if auto_update_enabled a
  then exists id, update_timer_id a = Some id
                  /\ timers_of ScheduleAutoUpdate (after a)
                     = [(id, 60000, ScheduleAutoUpdate)]
  else timers_of ScheduleAutoUpdate (after a) = [].
Proof.
  intros Hr. change (armed (timing a)). revert a Hr. apply rtc_ind_r.
  - rewrite opened_shape. reflexivity.
  - intros a a' _ Hstep IH. by apply (ui_step_armed a a').
Qed.

Lemma auto_update_timer_armed_witness :
  exists id,
    update_timer_id (toggle_auto_update true (opened "2025-12-20 09:00:00")) = Some id
    /\ timers_of ScheduleAutoUpdate
         (after (toggle_auto_update true (opened "2025-12-20 09:00:00")))
       = [(id, 60000, ScheduleAutoUpdate)].
Proof.
  apply (auto_update_timer_armed "2025-12-20 09:00:00"
           (toggle_auto_update true (opened "2025-12-20 09:00:00"))).
  apply rtc_once. apply (ui_toggle (opened "2025-12-20 09:00:00")).
Defined.

(** *** One update at a time *)

Lemma tk_call_busy r : busy (tk_call r) = busy r.1.
Proof. rewrite tk_call_effects. by destruct r.1. Qed.

Lemma add_to_watchlist_busy selection a :
  busy (add_to_watchlist selection a).1 = busy a.
Proof.
  rewrite add_to_watchlist_shape.
  destruct selection as [stock_code|]; [case_bool_decide|]; by destruct a.
Qed.

Lemma remove_from_watchlist_busy stock_code a :
  busy (remove_from_watchlist stock_code a).1 = busy a.
Proof.
  rewrite remove_from_watchlist_shape. case_bool_decide; by destruct a.
Qed.

Lemma start_update_busy a :
  busy (start_update a)
  = (threads a ++ [Fetching (elements (watchlist a))], result_queue a, true).
Proof. by destruct a. Qed.

Lemma in_flight_app l1 l2 :
  length (List.filter is_fetching (l1 ++ l2))
  = (length (List.filter is_fetching l1) + length (List.filter is_fetching l2))%nat.
Proof. by rewrite List.filter_app, length_app. Qed.

Lemma one_update_started a :
  is_updating a = false -> one_update a -> one_update (start_update a).
Proof.
  intros Hclear [Hle Hflag].
  assert (Hzero : unsettled a = 0%nat).
  { destruct (decide (unsettled a = 1%nat)) as [H1|H1]; [|lia].
    specialize (Hflag H1). congruence. }
  unfold one_update, unsettled, in_flight in *.
  destruct a; simpl in *. rewrite in_flight_app. simpl. split; [lia | reflexivity].
Qed.

Lemma one_update_busy a a' : busy a' = busy a -> one_update a -> one_update a'.
Proof.
  unfold busy, one_update, unsettled, in_flight. by intros [= -> -> ->].
Qed.

Lemma schedule_auto_update_one_update a :
  one_update a -> one_update (schedule_auto_update a).
Proof.
  intros Hone.
  destruct (schedule_auto_update_cases a) as (started & armed & -> & Hs & Ha).
  assert (Hstarted : one_update (started a)).
  { destruct Hs as [-> | (-> & Hclear & _)]; [exact Hone | by apply one_update_started]. }
  destruct Ha as [-> | ->]; [exact Hstarted|].
  apply (one_update_busy (started a)); [|exact Hstarted]. by destruct (started a).
Qed.

Lemma calm_step_one_update a a' :
  calm_step a a' -> stamped a -> one_update a -> one_update a'.
Proof.
  intros [Hstep Hcalm] Hstamped. destruct Hstep as
    [selection a | stock_code a | a Hbtn | v a
    | jobs codes l1 l2 a Hthreads Hjobs | e codes l1 l2 a Hthreads
    | raised l1 l2 a Hthreads | now id ms cb l1 l2 a Hafter].
  - apply one_update_busy. by rewrite tk_call_busy, add_to_watchlist_busy.
  - apply one_update_busy. by rewrite tk_call_busy, remove_from_watchlist_busy.
  - destruct (manual_update_cases a) as [[message ->] | (Hclear & _ & ->)].
    + apply one_update_busy. by destruct a.
    + by apply one_update_started.
  - unfold toggle_auto_update.
    assert (Hv : auto_update_enabled (set_auto_update_enabled v a) = v)
      by (destruct a; reflexivity).
    rewrite Hv. intros Hone.
    assert (Hone' : one_update (set_auto_update_enabled v a))
      by (apply (one_update_busy a); [by destruct a | exact Hone]).
    destruct v; [by apply schedule_auto_update_one_update|].
    destruct (update_timer_id (set_auto_update_enabled false a)) as [tid|];
      [|exact Hone'].
    apply (one_update_busy a); [by destruct a | exact Hone].
  - unfold one_update, unsettled, in_flight. rewrite Hthreads.
    destruct a; simpl. rewrite !in_flight_app, !length_app. simpl. intros [? ?].
    split; [lia|]. intros ?. auto with lia.
  - unfold one_update, unsettled, in_flight. rewrite Hthreads.
    destruct a; simpl. rewrite !in_flight_app, !length_app. simpl. intros [? ?].
    split; [lia|]. intros ?. auto with lia.
  - destruct raised as [e|]; [exfalso; apply Hcalm; by exists e, l1, l2|].
    unfold one_update, unsettled, in_flight. rewrite Hthreads.
    destruct a; simpl. rewrite !in_flight_app. simpl. tauto.
  - intros Hone. apply (one_update_busy (run_callback now cb (set_after (l1 ++ l2) a)).1);
      [apply tk_call_busy|].
    assert (Hone' : one_update (set_after (l1 ++ l2) a))
      by (apply (one_update_busy a); [by destruct a | exact Hone]).
    destruct cb; unfold run_callback; [|by apply schedule_auto_update_one_update].
    assert (Hs : stamped (set_after (l1 ++ l2) a)) by (destruct a; exact Hstamped).
    rewrite (check_queue_stamped now _ Hs). cbn [fst].
    destruct (fold_handled_frame now (result_queue (set_after (l1 ++ l2) a))
                (set_after (l1 ++ l2) a)) as (_ & _ & _ & Ht & _ & _ & Hne & Hnil & _).
    destruct Hone' as [Hle Hflag]. unfold one_update, unsettled, in_flight in *.
    destruct (result_queue (set_after (l1 ++ l2) a)) as [|m q] eqn:Hq.
    + rewrite (Hnil eq_refl). destruct (set_after (l1 ++ l2) a); simpl in *.
      subst. split; [lia|]. exact Hflag.
    + destruct (fold_left _ _ _); simpl in *. subst. split; [lia|]. lia.
Qed.

(** X24.  In both desktop windows a refresh requested while the busy flag
    is set starts no worker and changes nothing but the list of message
    boxes, which gains one information box; a worker is started only by a
    call that found the flag clear.  In the exchange-rate window at most
    one fetch is in flight in every state it can reach; in the stock
    window the same holds along every run in which no [loop.close()]
    raises. *)
Theorem refresh_rejected_while_busy :
  (forall a, Exchange.is_loading a = true ->
     Exchange._fetch_data_thread a
     = Exchange.show (ShowInfo "提示" "正在載入中，請稍候...") a
     /\ Exchange.fetching (Exchange._fetch_data_thread a) = Exchange.fetching a)
  /\ (forall a, Exchange.fetching (Exchange._fetch_data_thread a) <> Exchange.fetching a ->
        Exchange.is_loading a = false)
  /\ (forall a, Exchange.reachable a -> (Exchange.fetching a <= 1)%nat)
  /\ (forall a, is_updating a = true ->
        exists message,
          manual_update a = show (ShowInfo "提示" message) a
          /\ threads (manual_update a) = threads a)
  /\ (forall a, threads (manual_update a) <> threads a -> is_updating a = false)
  /\ (forall a, threads (schedule_auto_update a) <> threads a -> is_updating a = false)
  /\ (forall now a, rtc calm_step (opened now) a -> (in_flight a <= 1)%nat).
Proof.
  split; [|split; [|split; [|split; [|split; [|split]]]]].
  - intros a H. unfold Exchange._fetch_data_thread. rewrite H. split; [reflexivity|].
    by destruct a.
  - intros a H. unfold Exchange._fetch_data_thread in H.
    destruct (Exchange.is_loading a); [|reflexivity].
    exfalso. apply H. by destruct a.
  - intros a H. destruct (reachable_settled_or_locked a H) as [Hle _].
    unfold Exchange.unsettled in Hle. lia.
  - intros a H. unfold manual_update. rewrite H.
    case_bool_decide; eexists; (split; [reflexivity | by destruct a]).
  - intros a H. destruct (manual_update_cases a) as [[message Heq] | (Hu & _)];
      [|exact Hu].
    exfalso. apply H. rewrite Heq. by destruct a.
  - intros a H.
    destruct (schedule_auto_update_cases a) as (started & armed & Heq & Hs & Ha).
    destruct Hs as [-> | (-> & Hclear & _)]; [|exact Hclear].
    exfalso. apply H. rewrite Heq. destruct Ha as [-> | ->]; by destruct a.
  - intros now a Hr.
    assert (Hone : one_update a).
    { revert a Hr. apply rtc_ind_r.
      - rewrite opened_shape. split; [vm_compute; lia | intros H; vm_compute in H; lia].
      - intros a a' Hr Hstep IH. apply (calm_step_one_update a a' Hstep); [|exact IH].
        apply reachable_stamped. exists now.
        apply (rtc_subrel calm_step step); [by intros x y [? _] | exact Hr]. }
    destruct Hone as [Hle _]. unfold unsettled in Hle. lia.
Qed.

Lemma refresh_rejected_while_busy_witness :
  is_updating Examples.first_update = true
  /\ effects (manual_update Examples.first_update)
     = effects Examples.first_update ++ [ShowInfo "提示" "正在更新中，請稍候..."]
  /\ in_flight (manual_update Examples.first_update) = 1%nat.
Proof.
  destruct refresh_rejected_while_busy as (_ & _ & _ & Hbusy & _).
  destruct (Hbusy Examples.first_update eq_refl) as (message & Heq & Hthreads).
  split; [reflexivity|]. split; [vm_compute; reflexivity|].
  unfold in_flight. rewrite Hthreads. vm_compute. reflexivity.
Defined.

(** X25.  In the stock window a fetch that ends, with results or with an
    error, is answered at the next poll: the worker has put one message,
    the poll handles it without an exception, clears the busy flag and
    enables the button, and a manual update of a watch list that is not
    empty then starts a new fetch. *)
Theorem fetch_outcome_clears_flag now r stock_codes before_it after_it a :
  reachable a ->
  threads a = before_it ++ Fetching stock_codes :: after_it ->
  match r with FetchReturned jobs => jobs_of stock_codes jobs | FetchRaised _ => True end ->
  exists a2,
    check_queue now (crawler_fetched r before_it after_it a) = (a2, Normal)
    /\ result_queue (crawler_fetched r before_it after_it a) <> []
    /\ is_updating a2 = false
    /\ update_btn a2 = true
    /\ (watchlist a2 <> ∅ -> manual_update a2 = start_update a2).
Proof.
  intros [start Hr] Hthreads Hjobs.
  assert (Hreach : reachable (crawler_fetched r before_it after_it a)).
  { exists start. eapply rtc_r; [exact Hr|]. destruct r as [jobs | e].
    - by apply (step_fetched jobs stock_codes).
    - by apply (step_fetch_raised e stock_codes). }
  pose proof (reachable_stamped _ Hreach) as Hs.
  assert (Hq : result_queue (crawler_fetched r before_it after_it a) <> []).
  { destruct r; destruct a; simpl; by destruct result_queue0. }
  eexists. split; [apply (check_queue_stamped now _ Hs)|]. split; [exact Hq|].
  destruct (fold_handled_frame now (result_queue (crawler_fetched r before_it after_it a))
              (crawler_fetched r before_it after_it a))
    as (_ & _ & _ & _ & _ & _ & Hne & _ & _).
  destruct (Hne Hq) as [Hflag Hbtn].
  destruct (fold_left _ _ _) eqn:Hfold; simpl in *.
  split; [exact Hflag|]. split; [exact Hbtn|].
  intros Hw. unfold manual_update. simpl.
  rewrite bool_decide_false by assumption. by rewrite Hflag.
Qed.

Lemma fetch_outcome_clears_flag_witness :
  exists a2,
    check_queue "2025-12-20 09:00:31" Examples.results_put = (a2, Normal)
    /\ is_updating Examples.first_update = true
    /\ is_updating a2 = false
    /\ update_btn a2 = true.
Proof.
  destruct (fetch_outcome_clears_flag "2025-12-20 09:00:31" (FetchReturned [Examples.tsmc_job])
              ["2330"] [] [] Examples.first_update first_update_reachable eq_refl)
    as (a2 & Hcheck & _ & Hflag & Hbtn & _).
  { split; [reflexivity|]. repeat constructor. by exists "2025-12-20", "09:00:30". }
  exists a2. split; [exact Hcheck|]. split; [reflexivity|]. by split.
Defined.

(** X26.  What the window does with a record it cannot show.  When the
    oldest message holds results whose cards end in the [IndexError] of
    line 677, the poll raises it: the message is taken and its records
    are cached, the container is left with the cards made so far, the
    later messages stay in the queue, the busy flag and the button are
    left as they were, and no further poll is scheduled. *)
Theorem poll_stops_at_unfinished_card now results later a :
  result_queue a = Success results :: later ->
  built (cards (watchlist a) (fold_left cache_result results (stock_data_cache a)))
  = Raise "IndexError" ->
  let a' := (check_queue now a).1 in
  (check_queue now a).2 = Raise "IndexError"
  /\ result_queue a' = later
  /\ stock_data_cache a' = fold_left cache_result results (stock_data_cache a)
  /\ stocks_container a' = cards (watchlist a) (stock_data_cache a')
  /\ is_updating a' = is_updating a
  /\ update_btn a' = update_btn a
  /\ after a' = after a.
Proof.
  intros Hq Hraise. cbv zeta. unfold check_queue. rewrite Hq. simpl.
  rewrite on_update_complete_shape. cbv zeta.
  assert (Hw : watchlist (set_result_queue later a) = watchlist a) by (by destruct a).
  assert (Hc : stock_data_cache (set_result_queue later a) = stock_data_cache a)
    by (by destruct a).
  rewrite Hw, Hc, Hraise. destruct a; simpl. repeat split.
Qed.

Lemma poll_stops_at_unfinished_card_witness :
  (check_queue "2025-12-20 09:00:31" Examples.unstamped_queued).2 = Raise "IndexError"
  /\ result_queue (check_queue "2025-12-20 09:00:31" Examples.unstamped_queued).1 = [Error "late"]
  /\ stocks_container (check_queue "2025-12-20 09:00:31" Examples.unstamped_queued).1
     = [UnfinishedCard "2330" Examples.unstamped]
  /\ after (check_queue "2025-12-20 09:00:31" Examples.unstamped_queued).1
     = after Examples.unstamped_queued.
Proof.
  destruct (poll_stops_at_unfinished_card "2025-12-20 09:00:31" [Examples.unstamped]
              [Error "late"] Examples.unstamped_queued)
    as (Hraise & Hlater & Hcache & Hcards & _ & _ & Hafter).
  - reflexivity.
  - vm_compute. reflexivity.
  - split; [exact Hraise|]. split; [exact Hlater|]. split; [|exact Hafter].
    rewrite Hcards, Hcache. vm_compute. reflexivity.
Defined.

End StockMore.
(* ===================================================================== *)
(** ** The stock list panel and the fetcher, further                     *)
(* ===================================================================== *)

Section ListingMore.
Import Listing Fetcher.

Lemma listed_omap codes : listed codes = omap entry_of codes.
Proof.
  unfold listed.
  assert (Hacc : forall acc,
             fold_left
               (fun all_stocks '(code, info) =>
                  if String.eqb (type info) "股票"
                  then all_stocks ++ [(code, name info, display_text code (name info))]
                  else all_stocks)
               codes acc
             = acc ++ omap entry_of codes).
  { induction codes as [|[code info] codes IH]; intros acc; simpl.
    - by rewrite app_nil_r.
    - rewrite IH. unfold entry_of. simpl.
      destruct (String.eqb (type info) "股票"); [|reflexivity].
      by rewrite <- app_assoc. }
  apply Hacc.
Qed.

Lemma elem_of_listed e codes :
  e ∈ listed codes
  <-> exists code info,
        (code, info) ∈ codes /\ type info = "股票"
        /\ e = (code, name info, display_text code (name info)).
Proof.
  rewrite listed_omap, list_elem_of_omap. unfold entry_of. split.
  - intros ([code info] & Hin & He). simpl in He.
    destruct (String.eqb (type info) "股票") eqn:Ht; [|discriminate].
    apply String.eqb_eq in Ht. injection He as <-. by exists code, info.
  - intros (code & info & Hin & Ht & ->). exists (code, info). split; [assumption|].
    simpl. by rewrite Ht.
Qed.

Lemma insert_by_code_perm x l : Permutation (insert_by_code x l) (x :: l).
Proof.
  induction l as [|y l IH]; simpl; [reflexivity|].
  destruct (String.leb x.1.1 y.1.1); [reflexivity|].
  rewrite IH. apply perm_swap.
Qed.

Lemma sort_by_code_perm l : Permutation (sort_by_code l) l.
Proof.
  induction l as [|x l IH]; simpl; [reflexivity|].
  rewrite insert_by_code_perm. by constructor.
Qed.

Lemma insert_by_code_HdRel z x l :
  by_code z x -> HdRel by_code z l -> HdRel by_code z (insert_by_code x l).
Proof.
  intros Hzx Hl. destruct l as [|y l]; simpl; [by constructor|].
  destruct (String.leb x.1.1 y.1.1); constructor; [assumption|].
  by inversion Hl.
Qed.

Lemma insert_by_code_Sorted x l :
  Sorted by_code l -> Sorted by_code (insert_by_code x l).
Proof.
  induction 1 as [|y l Hl IH Hy]; simpl; [repeat constructor|].
  destruct (String.leb x.1.1 y.1.1) eqn:Hxy.
  - repeat constructor; assumption.
  - constructor; [assumption|].
    apply insert_by_code_HdRel; [|assumption].
    unfold by_code.
    destruct (String.leb_total x.1.1 y.1.1) as [H|H]; [congruence | exact H].
Qed.

Lemma sort_by_code_Sorted l : Sorted by_code (sort_by_code l).
Proof.
  induction l as [|x l IH]; simpl; [constructor | by apply insert_by_code_Sorted].
Qed.

(** X15.  [load_tw_stocks] keeps exactly the items of the code table
    whose type is 股票, one entry each, in ascending order of their codes,
    and appends their lines to the list box in that order. *)
Theorem loaded_stocks_sorted codes p :
  let p' := load_tw_stocks codes p in
  Sorted by_code (all_stocks p')
  /\ Permutation (all_stocks p') (omap entry_of codes)
  /\ (forall e, e ∈ all_stocks p'
        <-> exists code info,
              (code, info) ∈ codes /\ type info = "股票"
              /\ e = (code, name info, display_text code (name info)))
  /\ stock_listbox p' = stock_listbox p ++ map (fun e => e.2) (all_stocks p').
Proof.
  simpl. split; [apply sort_by_code_Sorted|].
  split; [by rewrite sort_by_code_perm, listed_omap|].
  split; [|reflexivity].
  intros e. rewrite <- elem_of_listed. by rewrite sort_by_code_perm.
Qed.

Lemma within_empty s : Dashboard.within "" s = true.
Proof. unfold Dashboard.within. by destruct s. Qed.

Lemma filter_all {A} (f : A -> bool) l :
  (forall x, f x = true) -> List.filter f l = l.
Proof.
  intros Hf. induction l as [|x l IH]; simpl; [reflexivity|].
  by rewrite Hf, IH.
Qed.

(** X16.  Clearing the search box brings the whole list back: whatever
    was searched for before, a search for the empty text shows the list
    box as [load_tw_stocks] filled it. *)
Theorem cleared_search_restores_list (lower : string -> string) codes search_text :
  lower "" = "" ->
  on_search lower "" (on_search lower search_text (load_tw_stocks codes empty_panel))
  = load_tw_stocks codes empty_panel.
Proof.
  intros Hlower. unfold on_search, load_tw_stocks. simpl. rewrite Hlower.
  f_equal. f_equal. apply filter_all. intros e. unfold matches.
  by rewrite within_empty.
Qed.

Lemma cleared_search_restores_list_witness :
  on_search (fun s => s) ""
    (on_search (fun s => s) "23"
       (load_tw_stocks
          [("2330", StockInfo "股票" "台積電"); ("0050", StockInfo "ETF" "元大台灣50");
           ("1101", StockInfo "股票" "台泥")] empty_panel))
  = load_tw_stocks
      [("2330", StockInfo "股票" "台積電"); ("0050", StockInfo "ETF" "元大台灣50");
       ("1101", StockInfo "股票" "台泥")] empty_panel.
Proof.
  apply (cleared_search_restores_list (fun s => s)). reflexivity.
Defined.

Lemma listed_line (lower : string -> string) codes p line :
  p = load_tw_stocks codes empty_panel
  \/ (exists search_text,
        p = on_search lower search_text (load_tw_stocks codes empty_panel)) ->
  line ∈ stock_listbox p ->
  exists code info,
    (code, info) ∈ codes /\ type info = "股票"
    /\ line = display_text code (name info).
Proof.
  intros Hp Hline.
  assert (He : exists e, e ∈ listed codes /\ line = e.2).
  { destruct Hp as [-> | [search_text ->]]; simpl in Hline;
      apply list_elem_of_fmap in Hline as (e & -> & He).
    - exists e. split; [|reflexivity]. by rewrite sort_by_code_perm in He.
    - apply list_elem_of_In, List.filter_In in He as [He _].
      apply list_elem_of_In in He. exists e. split; [|reflexivity].
      by rewrite sort_by_code_perm in He. }
  destruct He as (e & He & ->). apply elem_of_listed in He as (code & info & ? & ? & ->).
  by exists code, info.
Qed.

Lemma add_to_watchlist_watched stock_code a :
  stock_code ∈ Stock.watchlist (Stock.add_to_watchlist (Some stock_code) a).1.
Proof.
  rewrite add_to_watchlist_shape. case_bool_decide as Hin.
  - by destruct a.
  - destruct a; simpl in *. set_solver.
Qed.

(** X17.  Every line of the list box, as loaded or after any search, is
    the line of a stock of the code table, and picking it puts that
    stock's code on the watch list: the code is read back from the line
    by cutting at the first " - ", which gives the code as long as the
    code itself holds no space. *)
Theorem picked_line_is_watched (lower : string -> string) codes p i line a :
  p = load_tw_stocks codes empty_panel
  \/ (exists search_text,
        p = on_search lower search_text (load_tw_stocks codes empty_panel)) ->
  stock_listbox p !! i = Some line ->
  exists code info,
    (code, info) ∈ codes /\ type info = "股票"
    /\ line = display_text code (name info)
    /\ (Exchange.contains " " code = false ->
        selected_code (Some i) p = Some code
        /\ code ∈ Stock.watchlist (add_selected (Some i) p a).1).
Proof.
  intros Hp Hi.
  destruct (listed_line lower codes p line Hp) as (code & info & Hin & Ht & ->).
  { by eapply list_elem_of_lookup_2. }
  exists code, info. split; [assumption|]. split; [assumption|].
  split; [reflexivity|]. intros Hcode.
  assert (Hsel : selected_code (Some i) p = Some code).
  { unfold selected_code. rewrite Hi. simpl. f_equal.
    by apply split_first_entry. }
  split; [exact Hsel|]. unfold add_selected. rewrite Hsel.
  apply add_to_watchlist_watched.
Qed.

Lemma picked_line_is_watched_witness :
  exists code info,
    (code, info) ∈ [("2330", StockInfo "股票" "台積電");
                    ("1101", StockInfo "股票" "台泥")]
    /\ type info = "股票"
    /\ "1101 - 台泥" = display_text code (name info)
    /\ (Exchange.contains " " code = false ->
        selected_code (Some 0%nat)
          (load_tw_stocks [("2330", StockInfo "股票" "台積電");
                           ("1101", StockInfo "股票" "台泥")] empty_panel)
        = Some code
        /\ code ∈ Stock.watchlist
             (add_selected (Some 0%nat)
                (load_tw_stocks [("2330", StockInfo "股票" "台積電");
                                 ("1101", StockInfo "股票" "台泥")] empty_panel)
                (Stock.opened "2025-12-20 09:00:00")).1).
Proof.
  apply (picked_line_is_watched (fun s => s)
           [("2330", StockInfo "股票" "台積電"); ("1101", StockInfo "股票" "台泥")]
           _ 0%nat "1101 - 台泥" (Stock.opened "2025-12-20 09:00:00")).
  - left. reflexivity.
  - reflexivity.
Defined.

(** *** The fetcher *)

Lemma reports_fetched stock_code job stock_data :
  fetched_by job = Some stock_data ->
  Stock.reports stock_code stock_data = bool_decide (job.1.1 = stock_code).
Proof.
  intros Hf. apply fetch_single_stock_tagged in Hf as [Hcode _].
  unfold Stock.reports. rewrite Hcode.
  apply bool_decide_ext. split; congruence.
Qed.

Lemma fetched_none_for stock_code jobs :
  stock_code ∉ map (fun job : string * time * crawled => job.1.1) jobs ->
  List.filter (Stock.reports stock_code) (omap fetched_by jobs) = [].
Proof.
  induction jobs as [|job jobs IH]; intros Hout; [reflexivity|].
  simpl in *. apply not_elem_of_cons in Hout as [Hne Hout].
  destruct (fetched_by job) as [stock_data|] eqn:Hf; simpl; [|by apply IH].
  rewrite (reports_fetched _ _ _ Hf).
  rewrite bool_decide_false by congruence. by apply IH.
Qed.

Lemma fetched_one_for job jobs :
  NoDup (map (fun job : string * time * crawled => job.1.1) jobs) ->
  job ∈ jobs ->
  List.filter (Stock.reports job.1.1) (omap fetched_by jobs)
  = match fetched_by job with Some stock_data => [stock_data] | None => [] end.
Proof.
  induction jobs as [|job' jobs IH]; intros Hnd Hin; [by apply elem_of_nil in Hin|].
  simpl in Hnd. apply NoDup_cons in Hnd as [Hout Hnd].
  apply elem_of_cons in Hin as [<- | Hin].
  - simpl. destruct (fetched_by job) as [stock_data|] eqn:Hf; simpl.
    + rewrite (reports_fetched _ _ _ Hf), bool_decide_true by reflexivity.
      by rewrite fetched_none_for.
    + by rewrite fetched_none_for.
  - assert (Hne : job'.1.1 <> job.1.1).
    { intros Heq. apply Hout. rewrite Heq.
      apply list_elem_of_fmap. by exists job. }
    simpl. destruct (fetched_by job') as [stock_data|] eqn:Hf; simpl.
    + rewrite (reports_fetched _ _ _ Hf), bool_decide_false by assumption.
      by apply IH.
    + by apply IH.
Qed.

Lemma omap_length_le {A B} (f : A -> option B) l :
  (length (omap f l) <= length l)%nat.
Proof.
  induction l as [|x l IH]; simpl; [lia|].
  fold (omap f l). destruct (f x); simpl; lia.
Qed.

(** X18.  The records [fetch_multiple_stocks] returns are those of the
    stocks whose fetch succeeded, in the order the stocks were asked for,
    each carrying the code it was asked for and the time it was fetched;
    a failed fetch contributes nothing and stops nothing. *)
Theorem fetched_records_tagged jobs :
  fetch_multiple_stocks jobs = omap fetched_by jobs
  /\ (length (fetch_multiple_stocks jobs) <= length jobs)%nat
  /\ forall stock_data, stock_data ∈ fetch_multiple_stocks jobs ->
       exists stock_code now c,
         (stock_code, now, c) ∈ jobs
         /\ fetch_single_stock stock_code now c = Some stock_data
         /\ stock_data !! "stock_code" = Some stock_code
         /\ stock_data !! "update_time" = Some now.
Proof.
  rewrite fetch_multiple_stocks_omap. split; [reflexivity|]. split.
  - apply omap_length_le.
  - intros stock_data Hin.
    apply list_elem_of_omap in Hin as ([[stock_code now] c] & Hin & Hf).
    exists stock_code, now, c. split; [assumption|]. split; [exact Hf|].
    exact (fetch_single_stock_tagged stock_code now c stock_data Hf).
Qed.

(** X19.  Fetching and then caching: when each stock is asked for once,
    [on_update_complete] on the records of [fetch_multiple_stocks] leaves
    in the cache, for every stock asked for, the fresh record if its
    fetch succeeded and whatever was cached before if it failed. *)
Theorem fetched_record_is_cached now jobs stock_code stamp c a :
  NoDup (map (fun job : string * time * crawled => job.1.1) jobs) ->
  (stock_code, stamp, c) ∈ jobs ->
  Py.truthy stock_code = true ->
  Stock.stock_data_cache
    (Stock.on_update_complete now (fetch_multiple_stocks jobs) a).1 !! stock_code
  = match fetch_single_stock stock_code stamp c with
    | Some stock_data => Some stock_data
    | None => Stock.stock_data_cache a !! stock_code
    end.
Proof.
  intros Hnd Hin Hcode.
  assert (Hcache : Stock.stock_data_cache
                     (Stock.on_update_complete now (fetch_multiple_stocks jobs) a).1
                   = fold_left Stock.cache_result (fetch_multiple_stocks jobs)
                               (Stock.stock_data_cache a)).
  { rewrite on_update_complete_shape. cbv zeta.
    destruct (Stock.built _); by destruct a. }
  rewrite Hcache, cache_results_lookup by assumption.
  rewrite fetch_multiple_stocks_omap.
  assert (Hone := fetched_one_for (stock_code, stamp, c) jobs Hnd Hin).
  unfold fetched_by at 2 in Hone. simpl in Hone. rewrite Hone.
  by destruct (fetch_single_stock stock_code stamp c).
Qed.

Lemma fetched_record_is_cached_witness :
  Stock.stock_data_cache
    (Stock.on_update_complete "2025-12-20 09:01:00"
       (fetch_multiple_stocks
          [("2330", "2025-12-20 09:00:30",
            CrawlResult true (Some (JsonList [Some Examples.tsmc])));
           ("1101", "2025-12-20 09:00:31", CrawlRaised "timeout")])
       Examples.watching_two).1 !! "2330"
  = match fetch_single_stock "2330" "2025-12-20 09:00:30"
            (CrawlResult true (Some (JsonList [Some Examples.tsmc]))) with
    | Some stock_data => Some stock_data
    | None => Stock.stock_data_cache Examples.watching_two !! "2330"
    end.
Proof.
  apply (fetched_record_is_cached "2025-12-20 09:01:00"
           [("2330", "2025-12-20 09:00:30",
             CrawlResult true (Some (JsonList [Some Examples.tsmc])));
            ("1101", "2025-12-20 09:00:31", CrawlRaised "timeout")]
           "2330" "2025-12-20 09:00:30"
           (CrawlResult true (Some (JsonList [Some Examples.tsmc])))
           Examples.watching_two).
  - simpl. apply NoDup_cons. split; [|apply NoDup_singleton].
    intros Hin. apply list_elem_of_singleton in Hin. discriminate.
  - apply elem_of_cons. by left.
  - reflexivity.
Defined.

End ListingMore.

(* ===================================================================== *)
(** ** The web dashboard from run to run                                 *)
(* ===================================================================== *)

Section DashboardMore.
Import Dashboard.

Variable float_of : string -> option float.
Variable float_str : float -> string.

Lemma nonempty_truthy s : Py.truthy s = true -> s <> "".
Proof.
  unfold Py.truthy. rewrite negb_true_iff. apply String.eqb_neq.
Qed.

Lemma suspended_nonempty : suspended <> "".
Proof. discriminate. Qed.

Lemma within_suspended : within suspended suspended = true.
Proof. reflexivity. Qed.

(** The text a rate column gets and the value read from it. *)
Lemma rate_value_valid scraped value :
  within suspended scraped = false ->
  rate_value float_of (if Py.truthy scraped then scraped else suspended) = Some value ->
  valid_rate float_of (if Py.truthy scraped then scraped else suspended) value.
Proof.
  intros Hw Hv. destruct (Py.truthy scraped) eqn:Ht.
  - unfold rate_value in Hv.
    destruct (String.eqb scraped suspended) eqn:He.
    + apply String.eqb_eq in He. subst scraped.
      rewrite within_suspended in Hw. discriminate.
    + apply String.eqb_neq in He.
      destruct (float_of scraped) as [x|] eqn:Hf; [|discriminate].
      injection Hv as <-. split; [by apply nonempty_truthy|].
      split; [split; [discriminate | contradiction]|].
      split; [rewrite Hw; discriminate|]. by intros y [= <-].
  - unfold rate_value in Hv. rewrite String.eqb_refl in Hv. injection Hv as <-.
    split; [exact suspended_nonempty|]. split; [done|]. split; [done|].
    intros x Hx. discriminate.
Qed.

Lemma clean_rate_cases cleaned_data rate :
  clean_rate float_of cleaned_data rate = cleaned_data
  \/ exists r, clean_rate float_of cleaned_data rate = cleaned_data ++ [r]
               /\ valid_row float_of r
               /\ currency r = Py.strip (get rate "幣別" "").
Proof.
  unfold clean_rate.
  destruct (Py.truthy (Py.strip (get rate "幣別" ""))) eqn:Hc; simpl; [|by left].
  destruct (within suspended (Py.strip (get rate "本行即期買入" ""))) eqn:Hwb;
    simpl; [by left|].
  destruct (within suspended (Py.strip (get rate "本行即期賣出" ""))) eqn:Hws;
    simpl; [by left|].
  destruct (rate_value float_of _) as [buy_float|] eqn:Hb; [|by left].
  destruct (rate_value float_of
              (if Py.truthy (Py.strip (get rate "本行即期賣出" ""))
               then Py.strip (get rate "本行即期賣出" "") else suspended))
    as [sell_float|] eqn:Hs; [|by left].
  destruct (is_Some_bool buy_float || is_Some_bool sell_float) eqn:Hany; [|by left].
  right. eexists. split; [reflexivity|]. split; [|reflexivity].
  split; [by apply nonempty_truthy|]. simpl.
  split; [by apply rate_value_valid|]. split; [by apply rate_value_valid|].
  destruct buy_float; [by left|]. destruct sell_float; [by right | discriminate].
Qed.

Lemma fold_clean_rate_valid rates cleaned_data :
  Forall (valid_row float_of) cleaned_data ->
  Forall (valid_row float_of) (fold_left (clean_rate float_of) rates cleaned_data).
Proof.
  revert cleaned_data. induction rates as [|rate rates IH]; intros acc Hacc; [exact Hacc|].
  simpl. apply IH.
  destruct (clean_rate_cases acc rate) as [-> | (r & -> & Hr & _)]; [exact Hacc|].
  apply Forall_app. split; [exact Hacc | constructor; [exact Hr | constructor]].
Qed.

(** X20.  Every row of the table [clean_rate_data] builds has a currency
    name, shows in each rate column either 暫停交易 with no value or a text
    that [float] reads with that value, and has a value in at least one
    of the two; a scraped text that merely contains 暫停交易 never gets
    into a row. *)
Theorem cleaned_rows_valid rates :
  Forall (valid_row float_of) (clean_rate_data float_of rates).
Proof. unfold clean_rate_data. by apply fold_clean_rate_valid. Qed.

Lemma update_cases f stamp s :
  (update float_of f stamp s).1 = s
  \/ exists r df, (update float_of f stamp s).1 = save_rates_to_cache (r :: df) stamp s.
Proof.
  destruct f as [[[|rate rates]|]|e]; simpl; try by left.
  destruct (clean_rate_data float_of (rate :: rates)) as [|r df]; [by left|].
  right. by exists r, df.
Qed.

Lemma initial_load_cases f stamp s :
  (initial_load float_of f stamp s).1 = s
  \/ exists r df,
       (initial_load float_of f stamp s).1 = save_rates_to_cache (r :: df) stamp s.
Proof.
  destruct f as [[[|rate rates]|]|e]; simpl; try by left.
  destruct (clean_rate_data float_of (rate :: rates)) as [|r df]; [by left|].
  right. by exists r, df.
Qed.

Lemma update_nothing f stamp s :
  gave_nothing float_of f -> (update float_of f stamp s).1 = s.
Proof.
  destruct f as [[[|rate rates]|]|e]; simpl; try done.
  by intros ->.
Qed.

Lemma initial_load_nothing f stamp s :
  gave_nothing float_of f -> (initial_load float_of f stamp s).1 = s.
Proof.
  destruct f as [[[|rate rates]|]|e]; simpl; try done.
  by intros ->.
Qed.

Lemma save_consistent r df stamp s : consistent (save_rates_to_cache (r :: df) stamp s).
Proof. split; simpl; [discriminate | split; discriminate]. Qed.

Lemma reset_need_refresh_fields s :
  rates_cache (reset_need_refresh s) = rates_cache s
  /\ last_update (reset_need_refresh s) = last_update s
  /\ need_refresh (reset_need_refresh s) <> Some true.
Proof. destruct s as [c t [[|]|]]; simpl; repeat split; discriminate. Qed.

Lemma press_fields pressed s :
  rates_cache (press pressed s) = rates_cache s
  /\ last_update (press pressed s) = last_update s
  /\ need_refresh (press pressed s) = if pressed then Some true else need_refresh s.
Proof. by destruct pressed. Qed.

Lemma consistent_fields s s' :
  rates_cache s' = rates_cache s -> last_update s' = last_update s ->
  consistent s -> consistent s'.
Proof. unfold consistent. by intros -> ->. Qed.

Lemma run_session pressed now saved_at loaded_at first second
    twd_amount selected_currency s :
  (run float_of float_str pressed now saved_at loaded_at first second
       twd_amount selected_currency s).1.1
  = let s1 := refreshed float_of pressed now saved_at first s in
    if has_rates s1 then s1
    else (initial_load float_of
            (if need_update now (press pressed s)
                || default false (need_refresh (press pressed s))
             then second else first) loaded_at s1).1.
Proof.
  unfold run, refreshed.
  destruct (need_update now (press pressed s)
            || default false (need_refresh (press pressed s))).
  - destruct (update float_of first saved_at (press pressed s)) as [s' shown]. simpl.
    destruct (has_rates (reset_need_refresh s')); [reflexivity|].
    by destruct (initial_load float_of second loaded_at (reset_need_refresh s')).
  - destruct (has_rates (press pressed s)); [reflexivity|].
    by destruct (initial_load float_of first loaded_at (press pressed s)).
Qed.

Lemma run_calls pressed now saved_at loaded_at first second
    twd_amount selected_currency s :
  (run float_of float_str pressed now saved_at loaded_at first second
       twd_amount selected_currency s).2
  = ((if need_update now (press pressed s)
         || default false (need_refresh (press pressed s))
      then 1 else 0)
     + (if has_rates (refreshed float_of pressed now saved_at first s) then 0 else 1))%nat.
Proof.
  unfold run, refreshed.
  destruct (need_update now (press pressed s)
            || default false (need_refresh (press pressed s))).
  - destruct (update float_of first saved_at (press pressed s)) as [s' shown]. simpl.
    destruct (has_rates (reset_need_refresh s')); [reflexivity|].
    by destruct (initial_load float_of second loaded_at (reset_need_refresh s')).
  - destruct (has_rates (press pressed s)); [reflexivity|].
    by destruct (initial_load float_of first loaded_at (press pressed s)).
Qed.

Lemma refreshed_settled pressed now saved_at first s :
  settled s -> settled (refreshed float_of pressed now saved_at first s).
Proof.
  intros [Hc Hn]. unfold refreshed.
  destruct (press_fields pressed s) as (Hp1 & Hp2 & Hp3).
  destruct (need_update now (press pressed s)
            || default false (need_refresh (press pressed s))) eqn:Hdue.
  - destruct (reset_need_refresh_fields (update float_of first saved_at (press pressed s)).1)
      as (Hr1 & Hr2 & Hr3).
    split; [|exact Hr3].
    destruct (update_cases first saved_at (press pressed s)) as [Hu | (r & df & Hu)];
      rewrite Hu in Hr1, Hr2 |- *.
    + apply (consistent_fields s); congruence.
    + apply (consistent_fields (save_rates_to_cache (r :: df) saved_at (press pressed s)));
        [assumption | assumption | apply save_consistent].
  - apply orb_false_iff in Hdue as [_ Hdue]. rewrite Hp3 in Hdue.
    split; [by apply (consistent_fields s)|].
    rewrite Hp3. destruct pressed; [discriminate | exact Hn].
Qed.

Lemma settled_has_rates s :
  consistent s -> has_rates s = false -> rates_cache s = None.
Proof.
  intros [Hne _]. unfold has_rates. by destruct (rates_cache s) as [[|r df]|].
Qed.

(** X21.  Whatever the button and the fetcher do, a run of the script
    leaves the session as the next run expects it: the cached table, if
    there is one, has rows; table and time of last update are there
    together or not at all; and no refresh request is left pending. *)
Theorem run_keeps_session_settled pressed now saved_at loaded_at first second
    twd_amount selected_currency s :
  settled s ->
  settled (run float_of float_str pressed now saved_at loaded_at first second
       twd_amount selected_currency s).1.1.
Proof.
  intros Hs. rewrite run_session. cbv zeta.
  assert (Hr := refreshed_settled pressed now saved_at first s Hs).
  destruct (has_rates (refreshed float_of pressed now saved_at first s)); [exact Hr|].
  destruct Hr as [Hc Hn].
  match goal with |- settled (initial_load _ ?f _ _).1 =>
    destruct (initial_load_cases f loaded_at (refreshed float_of pressed now saved_at first s))
      as [-> | (r & df & ->)] end.
  - by split.
  - split; [apply save_consistent | exact Hn].
Qed.

(** X22.  How often a run calls the fetcher: not at all exactly when the
    button was not pressed and the table is less than ten minutes old,
    and then the run changes nothing in the session and shows the notices
    of the calculator and no other; twice only when the session had no
    table and the refresh brought none; once otherwise. *)
Theorem run_fetch_count pressed now saved_at loaded_at first second
    twd_amount selected_currency s :
  settled s ->
  let '(s', shown, calls) := run float_of float_str pressed now saved_at loaded_at first second
       twd_amount selected_currency s in
  (calls <= 2)%nat
  /\ (calls = 0%nat <-> pressed = false /\ need_update now s = false)
  /\ (calls = 0%nat ->
      s' = s
      /\ shown = calculator float_str twd_amount selected_currency
                            (default [] (rates_cache s)))
  /\ (calls = 2%nat ->
      rates_cache s = None /\ (update float_of first saved_at (press pressed s)).1
                               = press pressed s).
Proof.
  intros [Hc Hn].
  assert (Hnu : need_update now (press pressed s) = need_update now s)
    by (by destruct pressed).
  assert (Hnr : default false (need_refresh (press pressed s)) = pressed).
  { destruct pressed; [reflexivity|]. simpl.
    destruct (need_refresh s) as [[|]|]; [contradiction | reflexivity | reflexivity]. }
  unfold run. rewrite Hnu, Hnr.
  destruct (need_update now s) eqn:Hdue; simpl.
  - destruct (update_cases first saved_at (press pressed s)) as [Hu | (r & df & Hu)];
      destruct (update float_of first saved_at (press pressed s)) as [s1 shown];
      simpl in Hu; subst s1.
    + destruct (reset_need_refresh_fields (press pressed s)) as (Hr1 & _ & _).
      destruct (press_fields pressed s) as (Hp1 & _ & _).
      destruct (has_rates (reset_need_refresh (press pressed s))) eqn:Hh.
      * split; [lia|]. split; [split; [lia | intros [_ ?]; discriminate]|].
        split; [lia | lia].
      * destruct (initial_load float_of second loaded_at _) as [s2 more].
        split; [lia|]. split; [split; [lia | intros [_ ?]; discriminate]|].
        split; [lia|]. intros _. split; [|reflexivity].
        unfold has_rates in Hh. rewrite Hr1, Hp1 in Hh.
        destruct Hc as [Hne _]. by destruct (rates_cache s) as [[|r df]|].
    + assert (Hh : has_rates (reset_need_refresh
                                (save_rates_to_cache (r :: df) saved_at (press pressed s)))
                   = true).
      { unfold has_rates.
        destruct (reset_need_refresh_fields
                    (save_rates_to_cache (r :: df) saved_at (press pressed s)))
          as (-> & _ & _). reflexivity. }
      rewrite Hh. split; [lia|]. split; [split; [lia | intros [_ ?]; discriminate]|].
      split; lia.
  - assert (Hh : has_rates s = true).
    { unfold need_update in Hdue. unfold has_rates. destruct Hc as [Hne _].
      by destruct (rates_cache s) as [[|r df]|]. }
    destruct pressed.
    + cbn [orb].
      destruct (update_cases first saved_at (press true s)) as [Hu | (r & df & Hu)];
        destruct (update float_of first saved_at (press true s)) as [s1 shown];
        cbn [fst] in Hu; subst s1.
      * assert (Hh' : has_rates (reset_need_refresh (press true s)) = true).
        { unfold has_rates in *.
          destruct (reset_need_refresh_fields (press true s)) as (-> & _ & _).
          exact Hh. }
        rewrite Hh'. split; [lia|]. split; [split; [lia | intros [? _]; discriminate]|].
        split; lia.
      * assert (Hh' : has_rates (reset_need_refresh
                                   (save_rates_to_cache (r :: df) saved_at (press true s)))
                      = true).
        { unfold has_rates.
          destruct (reset_need_refresh_fields
                      (save_rates_to_cache (r :: df) saved_at (press true s)))
            as (-> & _ & _). reflexivity. }
        rewrite Hh'. split; [lia|]. split; [split; [lia | intros [? _]; discriminate]|].
        split; lia.
    + simpl. rewrite Hh. split; [lia|]. split; [done|]. split; [done | lia].
Qed.

(** X23.  A run whose calls of the fetcher give no table leaves the
    cached table and the time of its update as they were: the rates of
    the last successful run stay on display, with their own time. *)
Theorem failed_run_keeps_table pressed now saved_at loaded_at first second
    twd_amount selected_currency s :
  gave_nothing float_of first -> gave_nothing float_of second ->
  let s' := (run float_of float_str pressed now saved_at loaded_at first second
       twd_amount selected_currency s).1.1 in
  rates_cache s' = rates_cache s /\ last_update s' = last_update s.
Proof.
  intros H1 H2. cbv zeta. rewrite run_session. cbv zeta.
  assert (Hr : rates_cache (refreshed float_of pressed now saved_at first s) = rates_cache s
               /\ last_update (refreshed float_of pressed now saved_at first s) = last_update s).
  { unfold refreshed. destruct (press_fields pressed s) as (Hp1 & Hp2 & _).
    destruct (_ || _); [|by split].
    rewrite update_nothing by assumption.
    destruct (reset_need_refresh_fields (press pressed s)) as (-> & -> & _).
    by split. }
  destruct (has_rates (refreshed float_of pressed now saved_at first s)); [exact Hr|].
  rewrite initial_load_nothing; [exact Hr|]. by destruct (_ || _).
Qed.

End DashboardMore.

Lemma new_session_settled : Dashboard.settled Dashboard.new_session.
Proof. split; [split; [discriminate | done] | discriminate]. Qed.

Lemma run_keeps_session_settled_witness :
  Dashboard.settled
    (Dashboard.run Examples.float_of Examples.float_str false 0 1 2
       (Dashboard.FetchReturned (Some [Examples.usd])) (Dashboard.FetchRaised "timeout")
       1000%float "USD" Dashboard.new_session).1.1.
Proof.
  apply (run_keeps_session_settled Examples.float_of Examples.float_str false 0 1 2
           (Dashboard.FetchReturned (Some [Examples.usd]))
           (Dashboard.FetchRaised "timeout") 1000%float "USD" Dashboard.new_session).
  exact new_session_settled.
Defined.

Lemma usd_session_settled : Dashboard.settled Examples.usd_session.
Proof. split; [split; [discriminate | split; discriminate] | discriminate]. Qed.

Lemma run_fetch_count_witness :
  Dashboard.settled Examples.usd_session
  /\ Dashboard.run Examples.float_of Examples.float_str false 1000 1001 1002
       (Dashboard.FetchRaised "timeout") (Dashboard.FetchReturned None)
       1000%float "USD" Examples.usd_session
     = (Examples.usd_session,
        [Dashboard.StSuccess "✅ 轉換結果";
         Dashboard.StInfo ("💡 計算公式：" +:+ Py.bytes [10%N]
                           +:+ "1000.00 TWD ÷ 30.5 = 32.79 USD")],
        0%nat).
Proof.
  split; [exact usd_session_settled|].
  pose proof (run_fetch_count Examples.float_of Examples.float_str false 1000 1001 1002
                (Dashboard.FetchRaised "timeout") (Dashboard.FetchReturned None)
                1000%float "USD" Examples.usd_session usd_session_settled) as Hcount.
  destruct (Dashboard.run _ _ _ _ _ _ _ _ _ _ _) as [[s' shown] calls].
  destruct Hcount as (_ & Hnone & Hsame & _).
  assert (Hcalls : calls = 0%nat) by (apply Hnone; split; reflexivity).
  destruct (Hsame Hcalls) as [-> ->]. rewrite Hcalls.
  vm_compute. reflexivity.
Defined.

Lemma failed_run_keeps_table_witness :
  let s' := (Dashboard.run Examples.float_of Examples.float_str true 1000 1001 1002
               (Dashboard.FetchRaised "timeout") (Dashboard.FetchReturned None)
               1000%float "USD" Examples.usd_session).1.1 in
  Dashboard.rates_cache s' = Dashboard.rates_cache Examples.usd_session
  /\ Dashboard.last_update s' = Dashboard.last_update Examples.usd_session.
Proof.
  apply (failed_run_keeps_table Examples.float_of Examples.float_str true 1000 1001 1002
           (Dashboard.FetchRaised "timeout") (Dashboard.FetchReturned None)
           1000%float "USD" Examples.usd_session);
    exact I.
Defined.
